(** * bakedbaker: a version-aware proxy in front of Agent Baker instances

    A shallow embedding of the repository's two packages:
    - [versions] (discovery of the embedded binaries, their launch on
      consecutive local ports, the version -> address mapping), and
    - [http] (resolution of the two accepted request shapes and the
      forwarding of the resolved request),
    together with the pieces of the Go standard library and of the JSON
    library that the code calls ([path.Join], [fmt.Sprintf "%d"],
    [json.Marshal], [json.Unmarshal], [reflect.Value.IsZero]).

    Go strings and byte slices are Rocq [string]s (sequences of 8-bit
    characters). *)

From Stdlib Require Import ZArith String Ascii List Bool Lia.
From stdpp Require Import base option list gmap strings pretty.

Set Warnings "-register-all".

Open Scope string_scope.
Open Scope Z_scope.

(* ================================================================== *)
(** * Part I: definitions *)
(* ================================================================== *)

(** ** Errors

    The code builds every error with [fmt.Errorf]; one constructor stands
    for each call site, and keeps the values the message is formatted
    with. *)

Inductive error : Type :=
  (* package http, versionedRequest *)
  | ErrEmptyBody                         (* "empty body" *)
  | ErrUnmarshalVersioned                (* "could not unmarshal ... to VersionedReq" *)
  | ErrReqMissing                        (* "must provide .Req if .ABVersion is set" *)
  | ErrUnmarshalConfig                   (* "could not unmarshal ... to GetNodeBootstrapDataRequest" *)
  | ErrInvalidRequest                    (* "must provide a valid request" *)
  | ErrVersionRequired                   (* "must provide a version" *)
  (* package http, handlers and sendToAgentBaker *)
  | ErrVersionNotFound (ver : string)    (* "could not find agent baker version(%s) in our mapping" *)
  | ErrMarshalConfig                     (* "could not marshal the config to send to agent baker" *)
  | ErrAgentSend (cause : string)        (* "could not send the request to the agent: %w" *)
  | ErrAgentStatus (status : Z)          (* "the agent returned a non-200 status code: %d" *)
  (* package versions *)
  | ErrReadDir (cause : string)          (* "could not read the versions directory" *)
  | ErrValidate (cause : string)         (* "embed filesystem had version that did not validate" *)
  | ErrReadFile (ver cause : string)     (* "could not read agentbaker file for version(%v)" *)
  | ErrWriteFile (ver cause : string)    (* "could not write agentbaker binary file(%v)" *)
  | ErrStart (ver cause : string).       (* "could not start agentbaker binary(%v)" *)

(** A Go result [(x, err)]: either the value or the error. *)
Definition result (A : Type) : Type := error + A.
Definition Ok {A} (x : A) : result A := inr x.
Definition Err {A} (e : error) : result A := inl e.

Definition is_err {A} (r : result A) : bool :=
  match r with inl _ => true | inr _ => false end.

(* ------------------------------------------------------------------ *)
(** ** Standard library: [path.Join] and [path.Clean]

    Both [path.Join] (package http) and [filepath.Join] (package versions,
    on a slash-separated system) join the non-empty elements with a slash
    and return the [Clean]ed result.  [Clean] works on the slash-separated
    elements of the path: empty elements (that is, runs of slashes) and
    "." elements are dropped, a ".." element removes the element before
    it when there is one, is kept at the start of a relative path and is
    dropped at the root; the empty result is ".". *)

Module path.

Definition slash : ascii := "/"%char.

(** The elements between slashes; [split "a//b" = ["a"; ""; "b"]]. *)
Fixpoint split (s : string) : list string :=
  match s with
  | EmptyString => [EmptyString]
  | String c rest =>
      if Ascii.eqb c slash then EmptyString :: split rest
      else match split rest with
           | h :: t => String c h :: t
           | [] => [String c EmptyString]
           end
  end.

(** One element processed against the elements written so far (most
    recent first). *)
Definition push (rooted : bool) (out : list string) (el : string) : list string :=
  if String.eqb el "" then out
  else if String.eqb el "." then out
  else if String.eqb el ".." then
    match out with
    | top :: below =>
        if String.eqb top ".." then el :: out else below
    | [] => if rooted then out else [el]
    end
  else el :: out.

Definition concat_slash (els : list string) : string :=
  String.concat "/" els.

Definition Clean (p : string) : string :=
  match p with
  | EmptyString => "."
  | String c _ =>
      let rooted := Ascii.eqb c slash in
      let out := rev (fold_left (push rooted) (split p) []) in
      let body := concat_slash out in
      if rooted then String slash body
      else if String.eqb body "" then "." else body
  end.

Definition Join (elem : list string) : string :=
  let parts := filter (fun e => e <> "") elem in
  match parts with
  | [] => ""
  | _ => Clean (concat_slash parts)
  end.

End path.

(* ------------------------------------------------------------------ *)
(** ** The JSON library: [json.Marshal] and [json.Unmarshal]

    The code uses github.com/go-json-experiment/json.  The model has two
    layers: JSON text <-> JSON values (the grammar of RFC 8259), and JSON
    values <-> Go values of a given Go type.

    Behaviour of the library that the model keeps: object names match
    struct fields exactly (case-sensitive); members that match no field
    are ignored; an object with a duplicate name is rejected; a JSON null
    leaves the zero value; a member of the wrong JSON kind is an error;
    struct fields are written in declaration order and none is omitted.

    Outside the modelled fragment: Go types other than strings, booleans
    and structs of these; validation of UTF-8 (bytes above 127 pass
    through unchanged in both directions); surrogate halves in [\u]
    escapes (rejected); the library's limit on nesting (the model has
    none).  [valid_value] and [payload_type] say where the encoder of the
    model is the library's. *)

Module json.

(** *** JSON values *)

Inductive value : Type :=
  | Null
  | Bool (b : bool)
  | Number (lit : string)       (* the literal, as written *)
  | Str (s : string)
  | Array (els : list value)
  | Object (members : list (string * value)).

Definition dquote : ascii := "034"%char.
Definition backslash : ascii := "\"%char.

(** *** Writing JSON text *)

Definition hex_digit (n : N) : ascii :=
  if (n <? 10)%N then ascii_of_N (48 + n) else ascii_of_N (87 + n).

(** A string character as it is written between the quotes. *)
Definition escape_char (c : ascii) : string :=
  let n := N_of_ascii c in
  if Ascii.eqb c dquote then String backslash (String dquote "")
  else if Ascii.eqb c backslash then String backslash (String backslash "")
  else if (n =? 8)%N then "\b"
  else if (n =? 12)%N then "\f"
  else if (n =? 10)%N then "\n"
  else if (n =? 13)%N then "\r"
  else if (n =? 9)%N then "\t"
  else if (n <? 32)%N then
    "\u00" ++ String (hex_digit (n / 16)) (String (hex_digit (n mod 16)) "")
  else String c "".

Fixpoint escape (s : string) : string :=
  match s with
  | EmptyString => ""
  | String c rest => escape_char c ++ escape rest
  end.

Definition quote (s : string) : string :=
  String dquote (escape s ++ String dquote "").

Fixpoint print (v : value) : string :=
  match v with
  | Null => "null"
  | Bool true => "true"
  | Bool false => "false"
  | Number lit => lit
  | Str s => quote s
  | Array els => "[" ++ String.concat "," (map print els) ++ "]"
  | Object ms =>
      "{" ++ String.concat ","
               (map (fun kv => quote (fst kv) ++ ":" ++ print (snd kv)) ms)
          ++ "}"
  end.

(** *** Reading JSON text *)

Definition is_ws (c : ascii) : bool :=
  let n := N_of_ascii c in
  ((n =? 32) || (n =? 9) || (n =? 10) || (n =? 13))%N.

Fixpoint skip_ws (s : string) : string :=
  match s with
  | String c rest => if is_ws c then skip_ws rest else s
  | EmptyString => s
  end.

Definition is_digit (c : ascii) : bool :=
  let n := N_of_ascii c in ((48 <=? n) && (n <=? 57))%N.

Definition hex_value (c : ascii) : option N :=
  let n := N_of_ascii c in
  if ((48 <=? n) && (n <=? 57))%N then Some (n - 48)%N
  else if ((97 <=? n) && (n <=? 102))%N then Some (n - 87)%N
  else if ((65 <=? n) && (n <=? 70))%N then Some (n - 55)%N
  else None.

Definition hex4 (a b c d : ascii) : option N :=
  match hex_value a, hex_value b, hex_value c, hex_value d with
  | Some x, Some y, Some z, Some w =>
      Some (((x * 16 + y) * 16 + z) * 16 + w)%N
  | _, _, _, _ => None
  end.

(** The UTF-8 bytes of a code point of the basic plane. *)
Definition utf8 (cp : N) : option string :=
  if (cp <? 128)%N then Some (String (ascii_of_N cp) "")
  else if (cp <? 2048)%N then
    Some (String (ascii_of_N (192 + cp / 64))
         (String (ascii_of_N (128 + cp mod 64)) ""))
  else if ((55296 <=? cp) && (cp <? 57344))%N then None
  else
    Some (String (ascii_of_N (224 + cp / 4096))
         (String (ascii_of_N (128 + (cp / 64) mod 64))
         (String (ascii_of_N (128 + cp mod 64)) ""))).

(** The character a one-letter escape stands for. *)
Definition unescape (e : ascii) : option ascii :=
  if Ascii.eqb e dquote then Some dquote
  else if Ascii.eqb e backslash then Some backslash
  else if Ascii.eqb e "/" then Some "/"%char
  else if Ascii.eqb e "b" then Some (ascii_of_N 8)
  else if Ascii.eqb e "f" then Some (ascii_of_N 12)
  else if Ascii.eqb e "n" then Some (ascii_of_N 10)
  else if Ascii.eqb e "r" then Some (ascii_of_N 13)
  else if Ascii.eqb e "t" then Some (ascii_of_N 9)
  else None.

(** The characters of a string literal, read after its opening quote, up
    to and including the closing quote. *)
Fixpoint parse_chars (s : string) : option (string * string) :=
  match s with
  | EmptyString => None
  | String c r =>
      if Ascii.eqb c dquote then Some ("", r)
      else if Ascii.eqb c backslash then
        match r with
        | EmptyString => None
        | String e r1 =>
            if Ascii.eqb e "u" then
              match r1 with
              | String h1 (String h2 (String h3 (String h4 r2))) =>
                  match hex4 h1 h2 h3 h4 with
                  | Some cp =>
                      match utf8 cp, parse_chars r2 with
                      | Some bytes, Some (t, rest) => Some (bytes ++ t, rest)
                      | _, _ => None
                      end
                  | None => None
                  end
              | _ => None
              end
            else
              match unescape e, parse_chars r1 with
              | Some b, Some (t, rest) => Some (String b t, rest)
              | _, _ => None
              end
        end
      else if (N_of_ascii c <? 32)%N then None
      else
        match parse_chars r with
        | Some (t, rest) => Some (String c t, rest)
        | None => None
        end
  end.

Fixpoint strip_prefix (p s : string) : option string :=
  match p, s with
  | EmptyString, _ => Some s
  | String a p', String b s' => if Ascii.eqb a b then strip_prefix p' s' else None
  | String _ _, EmptyString => None
  end.

Fixpoint span_digits (s : string) : string * string :=
  match s with
  | String c rest =>
      if is_digit c then
        let '(ds, r) := span_digits rest in (String c ds, r)
      else ("", s)
  | EmptyString => ("", s)
  end.

(** A number literal: an optional minus sign; an integer part, which is
    a single 0 or a non-zero digit followed by digits; an optional
    fraction (a dot and one or more digits); an optional exponent (e or
    E, an optional sign, one or more digits). *)
Definition parse_number (s : string) : option (string * string) :=
  let '(sign, s1) :=
    match s with
    | String c r => if Ascii.eqb c "-" then ("-", r) else ("", s)
    | EmptyString => ("", s)
    end in
  match s1 with
  | EmptyString => None
  | String c r =>
      if negb (is_digit c) then None
      else
        let '(int, s2) :=
          if Ascii.eqb c "0" then ("0", r)
          else let '(ds, r') := span_digits r in (String c ds, r') in
        let frac :=
          match s2 with
          | String d r' =>
              if Ascii.eqb d "." then
                let '(ds, r'') := span_digits r' in
                if String.eqb ds "" then None else Some ("." ++ ds, r'')
              else Some ("", s2)
          | EmptyString => Some ("", s2)
          end in
        match frac with
        | None => None
        | Some (fr, s3) =>
            let exp :=
              match s3 with
              | String e r' =>
                  if Ascii.eqb e "e" || Ascii.eqb e "E" then
                    let '(sg, r'') :=
                      match r' with
                      | String g r3 =>
                          if Ascii.eqb g "+" || Ascii.eqb g "-"
                          then (String g "", r3) else ("", r')
                      | EmptyString => ("", r')
                      end in
                    let '(ds, r3) := span_digits r'' in
                    if String.eqb ds "" then None
                    else Some (String e (sg ++ ds), r3)
                  else Some ("", s3)
              | EmptyString => Some ("", s3)
              end in
            match exp with
            | None => None
            | Some (ex, s4) => Some (sign ++ int ++ fr ++ ex, s4)
            end
        end
  end.

Fixpoint nodup_names (ms : list (string * value)) : bool :=
  match ms with
  | [] => true
  | (k, _) :: rest =>
      negb (existsb (fun kv => String.eqb k (fst kv)) rest) && nodup_names rest
  end.

(** One value, after optional white space.  [fuel] bounds the depth of
    the calls: a level of nesting takes two units and a further member or
    element one, and each of them has at least as many characters, so the
    length of the text (plus one) is enough. *)
Fixpoint parse_value (fuel : nat) (s : string) : option (value * string) :=
  match fuel with
  | O => None
  | S fuel =>
      match skip_ws s with
      | EmptyString => None
      | String c r =>
          if Ascii.eqb c "{" then
            match skip_ws r with
            | EmptyString => None
            | String c' r' =>
                if Ascii.eqb c' "}" then Some (Object [], r')
                else
                  match parse_members fuel r with
                  | Some (ms, rest) =>
                      if nodup_names ms then Some (Object ms, rest) else None
                  | None => None
                  end
            end
          else if Ascii.eqb c "[" then
            match skip_ws r with
            | EmptyString => None
            | String c' r' =>
                if Ascii.eqb c' "]" then Some (Array [], r')
                else
                  match parse_elements fuel r with
                  | Some (els, rest) => Some (Array els, rest)
                  | None => None
                  end
            end
          else if Ascii.eqb c dquote then
            match parse_chars r with
            | Some (t, rest) => Some (Str t, rest)
            | None => None
            end
          else if Ascii.eqb c "t" then
            option_map (pair (Bool true)) (strip_prefix "true" (String c r))
          else if Ascii.eqb c "f" then
            option_map (pair (Bool false)) (strip_prefix "false" (String c r))
          else if Ascii.eqb c "n" then
            option_map (pair Null) (strip_prefix "null" (String c r))
          else
            match parse_number (String c r) with
            | Some (lit, rest) => Some (Number lit, rest)
            | None => None
            end
      end
  end

(** The members of a non-empty object, up to and including its closing
    brace. *)
with parse_members (fuel : nat) (s : string)
    : option (list (string * value) * string) :=
  match fuel with
  | O => None
  | S fuel =>
      match skip_ws s with
      | EmptyString => None
      | String c r =>
          if negb (Ascii.eqb c dquote) then None
          else
            match parse_chars r with
            | None => None
            | Some (k, r1) =>
                match skip_ws r1 with
                | EmptyString => None
                | String c1 r2 =>
                    if negb (Ascii.eqb c1 ":") then None
                    else
                      match parse_value fuel r2 with
                      | None => None
                      | Some (v, r3) =>
                          match skip_ws r3 with
                          | EmptyString => None
                          | String c3 r4 =>
                              if Ascii.eqb c3 "}" then Some ([(k, v)], r4)
                              else if Ascii.eqb c3 "," then
                                match parse_members fuel r4 with
                                | Some (ms, rest) => Some ((k, v) :: ms, rest)
                                | None => None
                                end
                              else None
                          end
                      end
                end
            end
      end
  end

(** The elements of a non-empty array, up to and including its closing
    bracket. *)
with parse_elements (fuel : nat) (s : string)
    : option (list value * string) :=
  match fuel with
  | O => None
  | S fuel =>
      match parse_value fuel s with
      | None => None
      | Some (v, r1) =>
          match skip_ws r1 with
          | EmptyString => None
          | String c r2 =>
              if Ascii.eqb c "]" then Some ([v], r2)
              else if Ascii.eqb c "," then
                match parse_elements fuel r2 with
                | Some (els, rest) => Some (v :: els, rest)
                | None => None
                end
              else None
          end
      end
  end.

(** A whole text: one value, then nothing but white space. *)
Definition parse (s : string) : option value :=
  match parse_value (S (String.length s)) s with
  | Some (v, rest) =>
      match skip_ws rest with
      | EmptyString => Some v
      | String _ _ => None
      end
  | None => None
  end.

(** *** Go types and values

    The payload types the router is instantiated with are structs; the
    model has structs with exported fields of string, boolean and struct
    type (a named string type such as [versions.Version] is a string). *)

Inductive gotype : Type :=
  | TString
  | TBool
  | TStruct (fields : list (string * gotype)).

Inductive govalue : Type :=
  | VString (s : string)
  | VBool (b : bool)
  | VStruct (fields : list (string * govalue)).

(** The zero value of a type ([var x T]). *)
Fixpoint zero (t : gotype) : govalue :=
  match t with
  | TString => VString ""
  | TBool => VBool false
  | TStruct fs => VStruct (map (fun f => (fst f, zero (snd f))) fs)
  end.

(** [reflect.ValueOf(x).IsZero()]: the empty string, false, a struct
    all of whose fields are zero. *)
Fixpoint IsZero (v : govalue) : bool :=
  match v with
  | VString s => String.eqb s ""
  | VBool b => negb b
  | VStruct fs => forallb (fun f => IsZero (snd f)) fs
  end.

(** [v] is a value of type [t]. *)
Fixpoint has_type (t : gotype) (v : govalue) {struct t} : bool :=
  match t, v with
  | TString, VString _ => true
  | TBool, VBool _ => true
  | TStruct fs, VStruct vs =>
      (fix fields (fs : list (string * gotype)) (vs : list (string * govalue)) : bool :=
         match fs, vs with
         | [], [] => true
         | (n, t') :: fs', (m, v') :: vs' =>
             String.eqb n m && has_type t' v' && fields fs' vs'
         | _, _ => false
         end) fs vs
  | _, _ => false
  end.

(** A type the compiler accepts: the field names of a struct are
    distinct. *)
Fixpoint wf_type (t : gotype) : bool :=
  match t with
  | TString | TBool => true
  | TStruct fs =>
      (fix names (fs : list (string * gotype)) : bool :=
         match fs with
         | [] => true
         | (n, t') :: fs' =>
             negb (existsb (fun f => String.eqb n (fst f)) fs')
             && wf_type t' && names fs'
         end) fs
  end.

(** *** Go values to JSON values and back *)

Fixpoint encode (v : govalue) : value :=
  match v with
  | VString s => Str s
  | VBool b => Bool b
  | VStruct fs => Object (map (fun f => (fst f, encode (snd f))) fs)
  end.

Fixpoint lookup_member (n : string) (ms : list (string * value)) : option value :=
  match ms with
  | [] => None
  | (k, j) :: rest => if String.eqb n k then Some j else lookup_member n rest
  end.

(** Decoding into a fresh (zero) variable of type [t]. *)
Fixpoint decode (t : gotype) (j : value) {struct t} : option govalue :=
  match t with
  | TString =>
      match j with
      | Str s => Some (VString s)
      | Null => Some (VString "")
      | _ => None
      end
  | TBool =>
      match j with
      | Bool b => Some (VBool b)
      | Null => Some (VBool false)
      | _ => None
      end
  | TStruct fs =>
      match j with
      | Object ms =>
          option_map VStruct
            ((fix fields (fs : list (string * gotype)) : option (list (string * govalue)) :=
                match fs with
                | [] => Some []
                | (n, t') :: fs' =>
                    let field :=
                      match lookup_member n ms with
                      | Some j' => decode t' j'
                      | None => Some (zero t')
                      end in
                    match field, fields fs' with
                    | Some v, Some vs => Some ((n, v) :: vs)
                    | _, _ => None
                    end
                end) fs)
      | Null => Some (zero t)
      | _ => None
      end
  end.

(** [json.Marshal(v)], without its error result: the library refuses a
    string that is not valid UTF-8 and an encoding nested deeper than its
    limit, and encodes every other value of the modelled types. *)
Definition Marshal (v : govalue) : string := print (encode v).

(** [json.Unmarshal(body, &x)] for a fresh [x] of type [t]; [None] is
    the error result. *)
Definition Unmarshal (t : gotype) (body : string) : option govalue :=
  match parse body with
  | Some j => decode t j
  | None => None
  end.

End json.

(* ------------------------------------------------------------------ *)
(** ** Package versions

    The package as it is in the repository is work in progress: [New]
    calls [extractBinaries] without the file system argument it declares,
    [extractBinaries] lists the directory of its argument [rdfs] but reads
    the payloads from the package variable [binariesFS], and
    [spawnVersions] writes the payload to an undeclared [p] where the path
    it has just computed is [fp].  The model keeps the two file systems
    apart (both are arguments), passes [New]'s file system to
    [extractBinaries], and writes to [fp]. *)

Module versions.

(** [type Version string] *)
Definition Version : Type := string.

(** [func (v Version) validate() error]: the body is a placeholder
    ("Some detection logic here") that returns nil. *)
Definition validate (v : Version) : option string := None.

(** [func (v Version) String() string] *)
Definition String_ (v : Version) : string := v.

Definition Latest : Version := "latest".

(** [type Mapping struct { versions map[Version]string }] *)
Record Mapping : Type := { versions : gmap string string }.

(** [Mapping{}] *)
Definition empty_Mapping : Mapping := {| versions := ∅ |}.

(** [func (m Mapping) Base(v Version) string]: a Go map read, which
    yields the empty string for a missing key. *)
Definition Base (m : Mapping) (v : Version) : string :=
  default "" (versions m !! v).

(** [type versionPath struct { version Version; bin []byte; addr string }] *)
Record versionPath : Type := {
  version : Version;
  bin : string;
  addr : string
}.

(** *** The asset bundle: [fs.ReadDirFS] and [fs.ReadFileFS] *)

Record DirEntry : Type := { Name : string; IsDir : bool }.

(** A failing call returns the text of its error. *)
Record binFS : Type := {
  ReadDir : string -> string + list DirEntry;
  ReadFile : string -> string + string
}.

(** The loop of [extractBinaries] over the directory entries. *)
Fixpoint extract_loop (binariesFS : binFS) (entries : list DirEntry)
    (verPaths : list versionPath) : result (list versionPath) :=
  match entries with
  | [] => Ok verPaths
  | fn :: rest =>
      if negb (IsDir fn) then extract_loop binariesFS rest verPaths
      else
        let ver : Version := Name fn in
        match validate ver with
        | Some cause => Err (ErrValidate cause)
        | None =>
            let binPath := path.Join [Name fn; "agentbaker"] in
            match ReadFile binariesFS binPath with
            | inl cause => Err (ErrReadFile ver cause)
            | inr content =>
                extract_loop binariesFS rest
                  (verPaths ++ [{| version := ver; bin := content; addr := "" |}])
            end
        end
  end.

(** [func extractBinaries(rdfs binFS) ([]versionPath, error)] *)
Definition extractBinaries (binariesFS rdfs : binFS) : result (list versionPath) :=
  match ReadDir rdfs "." with
  | inl cause => Err (ErrReadDir cause)
  | inr entries => extract_loop binariesFS entries []
  end.

(** *** Launching: [spawnVersions]

    One goroutine per entry.  The goroutines share the port counter (an
    [atomic.Int32]), the slice [verPaths] (each writes its own index),
    the disk and the process table.  A goroutine takes four steps, and
    a schedule says which goroutine takes the next step. *)

(** The operating system: the temporary directory, and which writes and
    which process starts fail (with the text of the error). *)
Record Env : Type := {
  TempDir : string;
  WriteFile : string -> string -> option string;
  Start : string -> list string -> option string
}.

(** 32-bit signed wrap-around. *)
Definition wrap32 (z : Z) : Z := (z + 2 ^ 31) mod 2 ^ 32 - 2 ^ 31.

(** [fmt.Sprintf("http://localhost:%d", port)] *)
Definition Sprintf_addr (port : Z) : string := "http://localhost:" ++ pretty port.

Inductive pc : Type :=
  | AtWriteFile                      (* before os.WriteFile *)
  | AtAdd                            (* before ports.Add(1) *)
  | AtStart                          (* before exec.Command(...).Start() *)
  | AtStore                          (* before verPaths[i] = vp *)
  | Returned (err : option error).   (* the goroutine's function has returned *)

(** A goroutine: its position and its copy [vp] of the entry. *)
Record goroutine : Type := { at_pc : pc; vp : versionPath }.

Record state : Type := {
  ports : Z;                                 (* the atomic.Int32 *)
  verPaths : list versionPath;               (* the shared slice *)
  goroutines : list goroutine;
  written : list (string * string);          (* files written: path, content *)
  started : list (string * list string);     (* processes started: path, arguments *)
  allocated : list (nat * Z)                 (* trace: goroutine, the port it computed *)
}.

Definition set_goroutine (i : nat) (g : goroutine) (st : state) : state :=
  {| ports := ports st; verPaths := verPaths st;
     goroutines := <[i := g]> (goroutines st);
     written := written st; started := started st;
     allocated := allocated st |}.

(** The path [fp] of goroutine [g]. *)
Definition fp_of (env : Env) (g : goroutine) : string :=
  path.Join [TempDir env; String_ (version (vp g))].

(** One step of goroutine [i]. *)
Definition step (env : Env) (st : state) (i : nat) : state :=
  match goroutines st !! i with
  | None => st
  | Some g =>
      let fp := fp_of env g in
      match at_pc g with
      | AtWriteFile =>
          match WriteFile env fp (bin (vp g)) with
          | Some cause =>
              set_goroutine i
                {| at_pc := Returned (Some (ErrWriteFile (version (vp g)) cause)); vp := vp g |} st
          | None =>
              {| ports := ports st; verPaths := verPaths st;
                 goroutines := <[i := {| at_pc := AtAdd; vp := vp g |}]> (goroutines st);
                 written := written st ++ [(fp, bin (vp g))];
                 started := started st;
                 allocated := allocated st |}
          end
      | AtAdd =>
          let new := wrap32 (ports st + 1) in
          let port := wrap32 (new - 1) in
          let vp' := {| version := version (vp g); bin := bin (vp g);
                        addr := Sprintf_addr port |} in
          {| ports := new; verPaths := verPaths st;
             goroutines := <[i := {| at_pc := AtStart; vp := vp' |}]> (goroutines st);
             written := written st; started := started st;
             allocated := allocated st ++ [(i, port)] |}
      | AtStart =>
          let args := ["-port"; addr (vp g)] in
          match Start env fp args with
          | Some cause =>
              set_goroutine i
                {| at_pc := Returned (Some (ErrStart (version (vp g)) cause)); vp := vp g |} st
          | None =>
              {| ports := ports st; verPaths := verPaths st;
                 goroutines := <[i := {| at_pc := AtStore; vp := vp g |}]> (goroutines st);
                 written := written st;
                 started := started st ++ [(fp, args)];
                 allocated := allocated st |}
          end
      | AtStore =>
          {| ports := ports st;
             verPaths := <[i := vp g]> (verPaths st);
             goroutines := <[i := {| at_pc := Returned None; vp := vp g |}]> (goroutines st);
             written := written st; started := started st;
             allocated := allocated st |}
      | Returned _ => st
      end
  end.

Definition run (env : Env) (sched : list nat) (st : state) : state :=
  fold_left (step env) sched st.

(** The state after [ports.Store(8080)] and the [g.Go] calls. *)
Definition spawn_init (verPaths : list versionPath) : state :=
  {| ports := 8080;
     verPaths := verPaths;
     goroutines := map (fun vp => {| at_pc := AtWriteFile; vp := vp |}) verPaths;
     written := []; started := []; allocated := [] |}.

(** [g.Wait()] blocks until every goroutine has returned: whatever the
    schedule did not run is run to the end (goroutine by goroutine; four
    steps finish any of them). *)
Definition four_steps (i : nat) : list nat := [i; i; i; i].

Definition finish_all (n : nat) : list nat :=
  flat_map four_steps (seq 0 n).

(** The error [g.Wait()] returns: that of a goroutine that failed (the
    first, by index), nil when none did.  (The code calls [g.Go] with a
    function that returns an error and takes an error from [g.Wait()],
    as the wait group of github.com/gostdlib/concurrency of go.mod has
    them; the package it imports has neither.) *)
Fixpoint Wait (gs : list goroutine) : option error :=
  match gs with
  | [] => None
  | g :: rest =>
      match at_pc g with
      | Returned (Some err) => Some err
      | _ => Wait rest
      end
  end.

(** [func spawnVersions(verPaths []versionPath) error], under a schedule
    of the goroutines; the state it leaves holds the slice, modified in
    place. *)
Definition spawnVersions (env : Env) (sched : list nat) (verPaths : list versionPath)
    : option error * state :=
  let st := run env (sched ++ finish_all (length verPaths)) (spawn_init verPaths) in
  (Wait (goroutines st), st).

(** The loop of [New] that fills the map. *)
Definition build (verPaths : list versionPath) : Mapping :=
  fold_left
    (fun m vp => {| versions := <[version vp := addr vp]> (versions m) |})
    verPaths {| versions := ∅ |}.

(** [func New() (Mapping, error)] *)
Definition New (env : Env) (binariesFS rdfs : binFS) (sched : list nat)
    : Mapping * option error :=
  match extractBinaries binariesFS rdfs with
  | inl err => (empty_Mapping, Some err)
  | inr verPaths =>
      match spawnVersions env sched verPaths with
      | (Some err, _) => (empty_Mapping, Some err)
      | (None, st) => (build (versions.verPaths st), None)
      end
  end.

End versions.

(* ------------------------------------------------------------------ *)
(** ** Package http *)

Module http.

Import json versions.

(** [type VersionedReq[T any] struct { ABVersion versions.Version; Req T }] *)
Record VersionedReq : Type := { ABVersion : Version; Req : govalue }.

(** The Go type of [VersionedReq[T]], as the JSON library sees it. *)
Definition VersionedReqT (T : gotype) : gotype :=
  TStruct [("ABVersion", TString); ("Req", T)].

Definition to_govalue (r : VersionedReq) : govalue :=
  VStruct [("ABVersion", VString (ABVersion r)); ("Req", Req r)].

Definition of_govalue (v : govalue) : option VersionedReq :=
  match v with
  | VStruct [(_, VString a); (_, r)] => Some {| ABVersion := a; Req := r |}
  | _ => None
  end.

(** [json.Unmarshal(body, &versioned)] *)
Definition Unmarshal_versioned (T : gotype) (body : string) : option VersionedReq :=
  match Unmarshal (VersionedReqT T) body with
  | Some v => of_govalue v
  | None => None
  end.

(** [func versionedRequest[T any](body []byte) (versions.Version, T, error)] *)
Definition versionedRequest (T : gotype) (body : string) : result (Version * govalue) :=
  if (String.length body =? 0)%nat then Err ErrEmptyBody
  else
    match Unmarshal_versioned T body with
    | None => Err ErrUnmarshalVersioned
    | Some versioned =>
        if IsZero (Req versioned) then
          if negb (String.eqb (ABVersion versioned) "") then Err ErrReqMissing
          else
            match Unmarshal T body with
            | None => Err ErrUnmarshalConfig
            | Some config =>
                if IsZero config then Err ErrInvalidRequest
                else Ok (Latest, config)
            end
        else if String.eqb (ABVersion versioned) "" then Err ErrVersionRequired
        else Ok (ABVersion versioned, Req versioned)
    end.

(** The payload types for which a bare body cannot be taken for an
    envelope: structs none of whose fields is named like a field of
    [VersionedReq]. *)
Definition bare_payload_type (T : gotype) : bool :=
  match T with
  | TStruct fs =>
      forallb (fun f => negb (String.eqb (fst f) "ABVersion")
                        && negb (String.eqb (fst f) "Req")) fs
  | _ => false
  end.

(** *** The fiber context and the outbound agent *)

Definition header : Type := (string * string)%type.

(** What a handler reads from [*fiber.Ctx]. *)
Record Ctx : Type := {
  Path : string;
  Body : string;
  Header : list header
}.

(** The request built on a [fiber.Agent]. *)
Record Request : Type := {
  req_method : string;
  req_url : string;
  req_body : string;
  req_header : list header
}.

(** What [agent.Bytes()] returns: status, body, errors. *)
Record Response : Type := {
  resp_status : Z;
  resp_body : string;
  resp_errs : list string
}.

(** The backends, as seen from the router. *)
Definition Network : Type := Request -> Response.

Definition StatusOK : Z := 200.

(** The outcome of a handler: the error it returns, the body it sends to
    the caller with [c.Send], and the requests it issued. *)
Record Outcome : Type := {
  returned : option error;
  sent : option string;
  outbound : list Request
}.

Definition fail (e : error) (out : list Request) : Outcome :=
  {| returned := Some e; sent := None; outbound := out |}.

(** [func sendToAgentBaker(c *fiber.Ctx, base string, body []byte) error] *)
Definition sendToAgentBaker (net : Network) (c : Ctx) (base : string) (body : string) : Outcome :=
  let agent :=
    {| req_method := "POST";
       req_url := path.Join [base; Path c];
       req_body := "";
       req_header := [] |} in
  let agent :=
    {| req_method := req_method agent; req_url := req_url agent;
       req_body := body; req_header := req_header agent |} in
  let agent :=
    fold_left
      (fun a kv =>
         {| req_method := req_method a; req_url := req_url a;
            req_body := req_body a;
            req_header := req_header a ++ [kv] |})
      (Header c) agent in
  let resp := net agent in
  match resp_errs resp with
  | e :: _ => fail (ErrAgentSend e) [agent]
  | [] =>
      if negb (resp_status resp =? StatusOK) then
        fail (ErrAgentStatus (resp_status resp)) [agent]
      else
        {| returned := None; sent := Some (resp_body resp); outbound := [agent] |}
  end.

(** The three endpoint handlers have one body, instantiated at the
    payload type of the endpoint. *)
Definition handle (T : gotype) (mapping : Mapping) (net : Network) (c : Ctx) : Outcome :=
  match versionedRequest T (Body c) with
  | inl err => fail err []
  | inr (ver, config) =>
      let base := Base mapping ver in
      if String.eqb base "" then fail (ErrVersionNotFound ver) []
      else
        let out := Marshal config in
        sendToAgentBaker net c base out
  end.

Section Handlers.
(** [datamodel.GetNodeBootstrapDataRequest] and
    [datamodel.GetLatestSigImageConfigRequest] are declared in
    github.com/Azure/agentbaker. *)
Variables GetNodeBootstrapDataRequest GetLatestSigImageConfigRequest : gotype.

(** [func (s *Server) bootstrapData(c *fiber.Ctx) error] *)
Definition bootstrapData := handle GetNodeBootstrapDataRequest.
(** [func (s *Server) latestConfig(c *fiber.Ctx) error] *)
Definition latestConfig := handle GetLatestSigImageConfigRequest.
(** [func (s *Server) distroConfig(c *fiber.Ctx) error] *)
Definition distroConfig := handle GetLatestSigImageConfigRequest.
End Handlers.

End http.

(* ------------------------------------------------------------------ *)
(** ** Package main *)

Module main.

(** [addr = flag.String("addr", "localhost:8080", "address to listen on")] *)
Definition addr : string := "localhost:8080".

End main.

(* ------------------------------------------------------------------ *)
(** ** Definitions used in the statements and proofs *)

Import json versions http.

(** JSON text written with single quotes for the double quotes:
    [quoted "{'a':'b'}"] is the text [{"a":"b"}]. *)
Fixpoint quoted (s : string) : string :=
  match s with
  | EmptyString => EmptyString
  | String c rest => String (if Ascii.eqb c "'" then dquote else c) (quoted rest)
  end.

(** The payload type of the repository's own test ([TestVersionedRequest]):
    [type Config struct { Type string; Data string }]. *)
Definition Config : gotype := TStruct [("Type", TString); ("Data", TString)].

Definition test_config : govalue :=
  VStruct [("Type", VString "test"); ("Data", VString "data")].

(** A payload type with a field named like the envelope's. *)
Definition Collides : gotype := TStruct [("ABVersion", TString)].
Definition collides_payload : govalue := VStruct [("ABVersion", VString "1.0.0")].

(** *** JSON text *)

(** The values whose text is read back as the same value: all but number
    literals (which are kept as written), with distinct names in every
    object. *)
Fixpoint plain (v : value) : bool :=
  match v with
  | Null | Bool _ | Str _ => true
  | Number _ => false
  | Array els => forallb plain els
  | Object ms => nodup_names ms && forallb (fun kv => plain (snd kv)) ms
  end.

Definition member_text (kv : string * value) : string :=
  quote (fst kv) ++ ":" ++ print (snd kv).

Definition members_text (ms : list (string * value)) : string :=
  String.concat "," (map member_text ms).

Definition elements_text (els : list value) : string :=
  String.concat "," (map print els).

(** The characters a printed plain value can start with are neither white
    space nor closing brackets. *)
Definition opens_value (c : ascii) : bool :=
  negb (is_ws c) && negb (Ascii.eqb c "]") && negb (Ascii.eqb c "}").

(** What [parse_members] and [parse_elements] do once a value is read. *)
Definition members_after (n : nat) (k : string) (v : value) (r3 : string)
    : option (list (string * value) * string) :=
  match skip_ws r3 with
  | EmptyString => None
  | String c3 r4 =>
      if Ascii.eqb c3 "}" then Some ([(k, v)], r4)
      else if Ascii.eqb c3 "," then
        match parse_members n r4 with
        | Some (ms, rest) => Some ((k, v) :: ms, rest)
        | None => None
        end
      else None
  end.

Definition elements_after (n : nat) (v : value) (r1 : string)
    : option (list value * string) :=
  match skip_ws r1 with
  | EmptyString => None
  | String c r2 =>
      if Ascii.eqb c "]" then Some ([v], r2)
      else if Ascii.eqb c "," then
        match parse_elements n r2 with
        | Some (els, rest) => Some (v :: els, rest)
        | None => None
        end
      else None
  end.

(** *** Go types and values *)

(** Induction over Go types, with the fields of a struct. *)
Fixpoint gotype_induction (P : gotype -> Prop)
    (Hs : P TString) (Hb : P TBool)
    (Hst : forall fs, Forall (fun f => P (snd f)) fs -> P (TStruct fs))
    (t : gotype) : P t :=
  match t with
  | TString => Hs
  | TBool => Hb
  | TStruct fs =>
      Hst fs
        ((fix go (fs : list (string * gotype)) : Forall (fun f => P (snd f)) fs :=
            match fs with
            | [] => List.Forall_nil _
            | f :: fs' =>
                List.Forall_cons _ _ _ (gotype_induction P Hs Hb Hst (snd f)) (go fs')
            end) fs)
  end.

Definition typed_field (f : string * gotype) (x : string * govalue) : Prop :=
  fst f = fst x /\ has_type (snd f) (snd x) = true.

Definition field_names {A} (fs : list (string * A)) : list string := map fst fs.

Definition encode_field (f : string * govalue) : string * value :=
  (fst f, encode (snd f)).

(** The loop of [decode] over the fields of a struct. *)
Definition decode_field (ms : list (string * value)) (f : string * gotype) : option govalue :=
  match lookup_member (fst f) ms with
  | Some j => decode (snd f) j
  | None => Some (zero (snd f))
  end.

Fixpoint decode_fields (ms : list (string * value)) (fs : list (string * gotype))
    : option (list (string * govalue)) :=
  match fs with
  | [] => Some []
  | f :: fs' =>
      match decode_field ms f, decode_fields ms fs' with
      | Some v, Some vs => Some ((fst f, v) :: vs)
      | _, _ => None
      end
  end.

(** *** Discovery and launch *)

(** The names of the directories among the entries of the bundle. *)
Fixpoint directories (entries : list DirEntry) : list string :=
  match entries with
  | [] => []
  | fn :: rest =>
      if IsDir fn then Name fn :: directories rest else directories rest
  end.

(** The path an entry is written to and started from. *)
Definition entry_path (env : Env) (x : versionPath) : string :=
  path.Join [TempDir env; String_ (version x)].

(** The launch of entry [x] succeeds: its payload can be written and the
    written file can be started. *)
Definition launch_succeeds (env : Env) (x : versionPath) : Prop :=
  WriteFile env (entry_path env x) (bin x) = None
  /\ forall args, Start env (entry_path env x) args = None.

(** The launch of entry [x] fails: its payload cannot be written, or the
    written file cannot be started. *)
Definition launch_fails (env : Env) (x : versionPath) : Prop :=
  WriteFile env (entry_path env x) (bin x) <> None
  \/ forall args, Start env (entry_path env x) args <> None.

(** Steps left before goroutine [g] returns. *)
Definition remaining (g : goroutine) : nat :=
  match at_pc g with
  | AtWriteFile => 4
  | AtAdd => 3
  | AtStart => 2
  | AtStore => 1
  | Returned _ => 0
  end.

Definition launched_ok (env : Env) (g : goroutine) : Prop :=
  WriteFile env (fp_of env g) (bin (vp g)) = None
  /\ Start env (fp_of env g) ["-port"; addr (vp g)] = None.

Definition has_addr (g : goroutine) : Prop :=
  exists p : Z, addr (vp g) = Sprintf_addr p.

(** What holds of goroutine [i] at each position, whatever the others do. *)
Definition goroutine_inv (env : Env) (vps : list versionPath) (st : state)
    (i : nat) (g : goroutine) : Prop :=
  (exists vp0, vps !! i = Some vp0
               /\ version (vp g) = version vp0 /\ bin (vp g) = bin vp0)
  /\ match at_pc g with
     | AtWriteFile => True
     | AtAdd => WriteFile env (fp_of env g) (bin (vp g)) = None
     | AtStart => WriteFile env (fp_of env g) (bin (vp g)) = None /\ has_addr g
     | AtStore => launched_ok env g /\ has_addr g
     | Returned None =>
         launched_ok env g /\ has_addr g /\ verPaths st !! i = Some (vp g)
     | Returned (Some e) =>
         exists cause, e = ErrWriteFile (version (vp g)) cause
                       \/ e = ErrStart (version (vp g)) cause
     end.

Definition local_inv (env : Env) (vps : list versionPath) (st : state) : Prop :=
  length (goroutines st) = length vps
  /\ length (verPaths st) = length vps
  /\ (forall i g, goroutines st !! i = Some g -> goroutine_inv env vps st i g)
  /\ (forall cmd, cmd ∈ started st -> exists p : Z, snd cmd = ["-port"; Sprintf_addr p]).

(** The invariant of the port counter: the trace of allocations lists
    consecutive ports from 8080, each taken by another goroutine. *)
Definition alloc_inv (vps : list versionPath) (st : state) : Prop :=
  length (goroutines st) = length vps
  /\ ports st = 8080 + Z.of_nat (length (allocated st))
  /\ (forall k i p, allocated st !! k = Some (i, p) ->
        p = 8080 + Z.of_nat k /\ (i < length vps)%nat)
  /\ NoDup (allocated st).*1
  /\ (forall i g, goroutines st !! i = Some g ->
        match at_pc g with
        | AtWriteFile | AtAdd => i ∉ (allocated st).*1
        | AtStart | AtStore | Returned None =>
            exists p, (i, p) ∈ allocated st /\ addr (vp g) = Sprintf_addr p
        | Returned (Some _) => True
        end).

(** No goroutine has returned an error. *)
Definition no_failure (st : state) : Prop :=
  forall i g e, goroutines st !! i = Some g -> at_pc g <> Returned (Some e).

(** *** Bundles, systems and requests used as examples *)

(** A bundle with two versions and a file beside them. *)
Definition bundle : binFS :=
  {| ReadDir := fun p =>
       if String.eqb p "." then
         inr [ {| Name := "1.0.0"; IsDir := true |};
               {| Name := "README.md"; IsDir := false |};
               {| Name := "1.1.0"; IsDir := true |} ]
       else inl "file does not exist";
     ReadFile := fun p =>
       if String.eqb p "1.0.0/agentbaker" then inr "payload of 1.0.0"
       else if String.eqb p "1.1.0/agentbaker" then inr "payload of 1.1.0"
       else inl "file does not exist" |}.

Definition bundle_entries : list versionPath :=
  [ {| version := "1.0.0"; bin := "payload of 1.0.0"; addr := "" |};
    {| version := "1.1.0"; bin := "payload of 1.1.0"; addr := "" |} ].

(** A bundle with a directory that is not named after a release. *)
Definition odd_bundle : binFS :=
  {| ReadDir := fun p =>
       if String.eqb p "." then inr [ {| Name := "not a version!"; IsDir := true |} ]
       else inl "file does not exist";
     ReadFile := fun p =>
       if String.eqb p "not a version!/agentbaker" then inr "payload"
       else inl "file does not exist" |}.

(** A system on which every write and every start succeeds. *)
Definition env_ok : Env :=
  {| TempDir := "/tmp";
     WriteFile := fun _ _ => None;
     Start := fun _ _ => None |}.

(** A system on which the payload of 1.1.0 cannot be written. *)
Definition env_write_fails : Env :=
  {| TempDir := "/tmp";
     WriteFile := fun p _ =>
       if String.eqb p "/tmp/1.1.0" then Some "no space left on device" else None;
     Start := fun _ _ => None |}.

(** The context of a request to /getnodebootstrapdata. *)
Definition bootstrap_ctx (body : string) : Ctx :=
  {| Path := "/getnodebootstrapdata";
     Body := body;
     Header := [("Content-Type", "application/json"); ("X-Request-Id", "42")] |}.

Definition pinned_body : string :=
  quoted "{'ABVersion':'1.0.0','Req':{'Type':'x','Data':'y'}}".

Definition unknown_body : string :=
  quoted "{'ABVersion':'9.9.9','Req':{'Type':'x','Data':'y'}}".

Definition one_version : Mapping :=
  {| versions := {[ "1.0.0" := "http://localhost:8080" ]} |}.

(** A backend that answers every request with 200 and a fixed body. *)
Definition backend_ok : Network :=
  fun _ => {| resp_status := 200; resp_body := "response"; resp_errs := [] |}.

(** *** The payloads the library encodes *)

Module utf8.

(** A continuation byte, from [lo] to [hi]. *)
Definition between (lo hi : N) (c : ascii) : bool :=
  (lo <=? N_of_ascii c)%N && (N_of_ascii c <=? hi)%N.

(** The range of the second byte after the first byte [b0] of a sequence
    of three or four bytes (no overlong form, no surrogate, nothing above
    U+10FFFF). *)
Definition second (b0 : N) : ascii -> bool :=
  match b0 with
  | 224%N => between 160 191
  | 237%N => between 128 159
  | 240%N => between 144 191
  | 244%N => between 128 143
  | _ => between 128 191
  end.

(** [utf8.ValidString(s)] *)
Fixpoint ValidString (s : string) : bool :=
  match s with
  | EmptyString => true
  | String c0 r0 =>
      let b0 := N_of_ascii c0 in
      if (b0 <? 128)%N then ValidString r0
      else
        match r0 with
        | EmptyString => false
        | String c1 r1 =>
            if (194 <=? b0)%N && (b0 <=? 223)%N then
              between 128 191 c1 && ValidString r1
            else
              match r1 with
              | EmptyString => false
              | String c2 r2 =>
                  if (224 <=? b0)%N && (b0 <=? 239)%N then
                    second b0 c1 && between 128 191 c2 && ValidString r2
                  else
                    match r2 with
                    | EmptyString => false
                    | String c3 r3 =>
                        (240 <=? b0)%N && (b0 <=? 244)%N
                        && second b0 c1 && between 128 191 c2 && between 128 191 c3
                        && ValidString r3
                    end
              end
        end
  end.

End utf8.

(** The string of the given bytes. *)
Definition bytes (l : list N) : string :=
  fold_right (fun b r => String (ascii_of_N b) r) EmptyString l.

(** Every string of [v] is valid UTF-8: the values [json.Marshal]
    encodes without an error. *)
Fixpoint valid_value (v : govalue) : bool :=
  match v with
  | VString s => utf8.ValidString s
  | VBool _ => true
  | VStruct fs => forallb (fun f => valid_value (snd f)) fs
  end.

Definition is_upper (c : ascii) : bool := utf8.between 65 90 c.
Definition is_ident_char (c : ascii) : bool :=
  utf8.between 65 90 c || utf8.between 97 122 c || utf8.between 48 57 c
  || Ascii.eqb c "_".

Fixpoint all_chars (p : ascii -> bool) (s : string) : bool :=
  match s with
  | EmptyString => true
  | String c r => p c && all_chars p r
  end.

(** The name of an exported field, written in ASCII: an upper-case letter,
    then letters, digits and underscores. *)
Definition exported (name : string) : bool :=
  match name with
  | EmptyString => false
  | String c r => is_upper c && all_chars is_ident_char r
  end.

(** Every field of [t], at every depth, is exported. *)
Fixpoint exported_fields (t : gotype) : bool :=
  match t with
  | TString | TBool => true
  | TStruct fs => forallb (fun f => exported (fst f) && exported_fields (snd f)) fs
  end.

(** The number of objects around the innermost value of an encoding of
    type [t]. *)
Fixpoint nesting (t : gotype) : nat :=
  match t with
  | TString | TBool => 0
  | TStruct fs => S (list_max (map (fun f => nesting (snd f)) fs))
  end.

(** The payload types of the round trip: strings, booleans and structs
    whose fields are exported, untagged and distinctly named, which the
    library encodes field by field under the name of the field; the
    envelope of the payload stays within the nesting the library reads. *)
Definition payload_type (T : gotype) : bool :=
  wf_type T && exported_fields T && (Z.of_nat (nesting (VersionedReqT T)) <? 10000).

(** The first field named [n]. *)
Fixpoint lookup_field (n : string) (vs : list (string * govalue)) : option govalue :=
  match vs with
  | [] => None
  | (k, v) :: rest => if String.eqb n k then Some v else lookup_field n rest
  end.

(** Reading the encoding of [v] into a variable of type [t] leaves the
    variable zero and gives no error: every field of [t] that [v] has is
    of the same kind and zero. *)
Fixpoint reads_zero (t : gotype) (v : govalue) {struct t} : bool :=
  match t, v with
  | TString, VString s => String.eqb s ""
  | TBool, VBool b => negb b
  | TStruct fs, VStruct ws =>
      forallb (fun f => match lookup_field (fst f) ws with
                        | Some w => reads_zero (snd f) w
                        | None => true
                        end) fs
  | _, _ => false
  end.

(** The size of a value. *)
Fixpoint vsize (v : govalue) : nat :=
  match v with
  | VString _ | VBool _ => 1
  | VStruct fs => S (list_sum (map (fun f => vsize (snd f)) fs))
  end.

(** A payload type with a field named like a field of the envelope whose
    bare encoding is still read as a bare payload. *)
Definition Nested : gotype := TStruct [("Req", TStruct [("A", TString)])].
Definition nested_payload : govalue := VStruct [("Req", VStruct [("A", VString "x")])].

(** ** Definitions for the further properties *)

(** The request [sendToAgentBaker] builds. *)
Definition forwarded (c : Ctx) (base body : string) : Request :=
  {| req_method := "POST"; req_url := path.Join [base; Path c];
     req_body := body; req_header := Header c |}.

(** A string without a slash. *)
Fixpoint no_slash (s : string) : bool :=
  match s with
  | EmptyString => true
  | String c rest => negb (Ascii.eqb c "/") && no_slash rest
  end.

(** A path element that [Clean] keeps as it is: no slash, and neither
    empty nor one of the dot elements. *)
Definition plain_element (s : string) : bool :=
  no_slash s && negb (String.eqb s "") && negb (String.eqb s ".")
  && negb (String.eqb s "..").

(** The payload file of the directory [name]. *)
Definition payload_path (name : string) : string := path.Join [name; "agentbaker"].

(** Entry [x] is what [extractBinaries] makes of the directory [name]. *)
Definition extracted (binariesFS : binFS) (name : string) (x : versionPath) : Prop :=
  version x = name
  /\ ReadFile binariesFS (payload_path name) = inr (bin x)
  /\ addr x = "".

(** *** The traces of a launch *)

(** The payload of entry [x] has been written to its path. *)
Definition wrote (env : Env) (st : state) (x : versionPath) : Prop :=
  (entry_path env x, bin x) ∈ written st.

(** Goroutine [i] has taken a port, and the address of [g] is made of it. *)
Definition took_port (st : state) (i : nat) (g : goroutine) : Prop :=
  exists p : Z, (i, p) ∈ allocated st /\ addr (vp g) = Sprintf_addr p.

(** The file of entry [x] has been started with the address of [g]. *)
Definition ran (env : Env) (st : state) (x : versionPath) (g : goroutine) : Prop :=
  (entry_path env x, ["-port"; addr (vp g)]) ∈ started st.

(** What the traces say of goroutine [i] at each position. *)
Definition goroutine_trace (env : Env) (vps : list versionPath) (st : state)
    (i : nat) (g : goroutine) : Prop :=
  exists x, vps !! i = Some x
    /\ version (vp g) = version x /\ bin (vp g) = bin x
    /\ match at_pc g with
       | AtWriteFile => (i ∉ (allocated st).*1) /\ verPaths st !! i = Some x
       | AtAdd => wrote env st x /\ (i ∉ (allocated st).*1) /\ verPaths st !! i = Some x
       | AtStart => wrote env st x /\ took_port st i g /\ verPaths st !! i = Some x
       | AtStore =>
           wrote env st x /\ took_port st i g /\ ran env st x g
           /\ verPaths st !! i = Some x
       | Returned None =>
           wrote env st x /\ took_port st i g /\ ran env st x g
           /\ verPaths st !! i = Some (vp g)
       | Returned (Some e) =>
           verPaths st !! i = Some x
           /\ ((exists cause, e = ErrWriteFile (version x) cause
                  /\ WriteFile env (entry_path env x) (bin x) = Some cause
                  /\ (i ∉ (allocated st).*1))
               \/ (exists cause, e = ErrStart (version x) cause
                     /\ wrote env st x /\ took_port st i g
                     /\ Start env (entry_path env x) ["-port"; addr (vp g)] = Some cause))
       end.

(** The invariant of a launch, for every number of entries: the counter,
    the trace of allocations, and what was written and started. *)
Definition launch_inv (env : Env) (vps : list versionPath) (st : state) : Prop :=
  length (goroutines st) = length vps
  /\ length (verPaths st) = length vps
  /\ ports st = wrap32 (8080 + Z.of_nat (length (allocated st)))
  /\ (forall k i p, allocated st !! k = Some (i, p) ->
        p = wrap32 (8080 + Z.of_nat k) /\ (i < length vps)%nat)
  /\ NoDup (allocated st).*1
  /\ (forall i g, goroutines st !! i = Some g -> goroutine_trace env vps st i g)
  /\ (forall w, w ∈ written st ->
        exists x, x ∈ vps /\ w = (entry_path env x, bin x)
                  /\ WriteFile env (entry_path env x) (bin x) = None)
  /\ (forall cmd, cmd ∈ started st ->
        exists i x p, vps !! i = Some x /\ (i, p) ∈ allocated st
                      /\ cmd = (entry_path env x, ["-port"; Sprintf_addr p])
                      /\ Start env (entry_path env x) ["-port"; Sprintf_addr p] = None).

(* ================================================================== *)
(** * Part II: properties *)
(* ================================================================== *)

(** ** [path.Clean] and [path.Join] on the examples of their documentation *)

Example Clean_ex1 : path.Clean "a//c" = "a/c". Proof. reflexivity. Qed.
Example Clean_ex2 : path.Clean "a/c/." = "a/c". Proof. reflexivity. Qed.
Example Clean_ex3 : path.Clean "a/c/b/.." = "a/c". Proof. reflexivity. Qed.
Example Clean_ex4 : path.Clean "/../a/c" = "/a/c". Proof. reflexivity. Qed.
Example Clean_ex5 : path.Clean "/../a/b/../././/c" = "/a/c". Proof. reflexivity. Qed.
Example Clean_ex6 : path.Clean "" = ".". Proof. reflexivity. Qed.
Example Clean_ex7 : path.Clean "../../a" = "../../a". Proof. reflexivity. Qed.
Example Clean_ex8 : path.Clean "a/../.." = "..". Proof. reflexivity. Qed.
Example Clean_ex9 : path.Clean "/" = "/". Proof. reflexivity. Qed.
Example Join_ex1 : path.Join ["a"; "b/c"] = "a/b/c". Proof. reflexivity. Qed.
Example Join_ex2 : path.Join ["a"; ""] = "a". Proof. reflexivity. Qed.
Example Join_ex3 : path.Join [""; ""] = "". Proof. reflexivity. Qed.
Example Join_ex4 : path.Join ["a"; "../../../xyz"] = "../../xyz". Proof. reflexivity. Qed.
Example Join_ex5 : path.Join ["/tmp"; "1.0.0"] = "/tmp/1.0.0". Proof. reflexivity. Qed.

(** What the router and the launcher join. *)
Example Join_url :
  path.Join ["http://localhost:8080"; "/getnodebootstrapdata"]
  = "http:/localhost:8080/getnodebootstrapdata".
Proof. reflexivity. Qed.

Example Join_payload : path.Join ["1.0.0"; "agentbaker"] = "1.0.0/agentbaker".
Proof. reflexivity. Qed.

(** ** Strings *)

Lemma append_cons (x : ascii) (a b : string) : String x a ++ b = String x (a ++ b).
Proof. reflexivity. Qed.

Lemma append_nil_l (a : string) : "" ++ a = a.
Proof. reflexivity. Qed.

Lemma append_assoc (a b c : string) : (a ++ b) ++ c = a ++ (b ++ c).
Proof.
  induction a as [|x a IH]; [reflexivity|].
  rewrite !append_cons. now rewrite IH.
Qed.

Lemma length_append (a b : string) :
  String.length (a ++ b) = (String.length a + String.length b)%nat.
Proof.
  induction a as [|x a IH]; [reflexivity|].
  rewrite append_cons. cbn [String.length]. now rewrite IH.
Qed.

(** ** JSON text: what is written is read back *)

Lemma parse_chars_escape_char (c : ascii) (t : string) :
  parse_chars (escape_char c ++ t) =
  match parse_chars t with
  | Some (u, r) => Some (String c u, r)
  | None => None
  end.
Proof.
  destruct c as [[] [] [] [] [] [] [] []]; reflexivity.
Qed.

Lemma parse_chars_escape (s rest : string) :
  parse_chars (escape s ++ String dquote rest) = Some (s, rest).
Proof.
  induction s as [|c s IH].
  - reflexivity.
  - cbn [escape]. rewrite append_assoc, parse_chars_escape_char, IH. reflexivity.
Qed.

Lemma print_Object ms : print (Object ms) = "{" ++ members_text ms ++ "}".
Proof. reflexivity. Qed.

Lemma print_Array els : print (Array els) = "[" ++ elements_text els ++ "]".
Proof. reflexivity. Qed.

Lemma concat_cons (sep x : string) (l : list string) :
  String.concat sep (x :: l) =
  x ++ match l with [] => "" | _ :: _ => sep ++ String.concat sep l end.
Proof.
  destruct l; cbn [String.concat].
  - induction x as [|c x IH]; [reflexivity|]. rewrite append_cons. now rewrite <- IH.
  - reflexivity.
Qed.

Lemma print_plain_head v :
  plain v = true -> exists c r, print v = String c r /\ opens_value c = true.
Proof.
  destruct v as [|[]|lit|s|els|ms]; intros H; try discriminate;
    try (eexists _, _; split; [reflexivity | reflexivity]).
Qed.

Lemma parse_value_object n r :
  parse_value (S n) (String "{" (String dquote r)) =
  match parse_members n (String dquote r) with
  | Some (ms, rest) => if nodup_names ms then Some (Object ms, rest) else None
  | None => None
  end.
Proof. reflexivity. Qed.

Lemma parse_value_string n r :
  parse_value (S n) (String dquote r) =
  match parse_chars r with
  | Some (t, rest) => Some (Str t, rest)
  | None => None
  end.
Proof. reflexivity. Qed.

Lemma parse_value_array n c r :
  opens_value c = true ->
  parse_value (S n) (String "[" (String c r)) =
  match parse_elements n (String c r) with
  | Some (els, rest) => Some (Array els, rest)
  | None => None
  end.
Proof.
  unfold opens_value. intros H.
  apply andb_true_iff in H as [H H3]. apply andb_true_iff in H as [H1 H2].
  apply negb_true_iff in H1, H2.
  change (parse_value (S n) (String "[" (String c r))) with
    (match skip_ws (String c r) with
     | EmptyString => None
     | String c' r' =>
         if Ascii.eqb c' "]" then Some (Array [], r')
         else
           match parse_elements n (String c r) with
           | Some (els, rest) => Some (Array els, rest)
           | None => None
           end
     end).
  cbn [skip_ws]. rewrite H1, H2. reflexivity.
Qed.

Lemma parse_members_step n r k r2 :
  parse_chars r = Some (k, String ":" r2) ->
  parse_members (S n) (String dquote r) =
  match parse_value n r2 with
  | None => None
  | Some (v, r3) => members_after n k v r3
  end.
Proof.
  intros H.
  change (parse_members (S n) (String dquote r)) with
    (match parse_chars r with
     | None => None
     | Some (k, r1) =>
         match skip_ws r1 with
         | EmptyString => None
         | String c1 r2 =>
             if negb (Ascii.eqb c1 ":") then None
             else
               match parse_value n r2 with
               | None => None
               | Some (v, r3) => members_after n k v r3
               end
         end
     end).
  rewrite H. reflexivity.
Qed.

Lemma parse_elements_step n s :
  parse_elements (S n) s =
  match parse_value n s with
  | None => None
  | Some (v, r1) => elements_after n v r1
  end.
Proof. reflexivity. Qed.

Lemma members_after_close n k v r : members_after n k v (String "}" r) = Some ([(k, v)], r).
Proof. reflexivity. Qed.

Lemma members_after_comma n k v r :
  members_after n k v (String "," r) =
  match parse_members n r with
  | Some (ms, rest) => Some ((k, v) :: ms, rest)
  | None => None
  end.
Proof. reflexivity. Qed.

Lemma elements_after_close n v r : elements_after n v (String "]" r) = Some ([v], r).
Proof. reflexivity. Qed.

Lemma elements_after_comma n v r :
  elements_after n v (String "," r) =
  match parse_elements n r with
  | Some (els, rest) => Some (v :: els, rest)
  | None => None
  end.
Proof. reflexivity. Qed.

Lemma members_text_cons kv ms :
  members_text (kv :: ms) =
  String dquote (escape (fst kv) ++ String dquote (String ":" (print (snd kv) ++
     match ms with [] => "" | _ :: _ => String "," (members_text ms) end))).
Proof.
  unfold members_text. cbn [map]. rewrite concat_cons.
  unfold member_text at 1. unfold quote.
  rewrite !append_cons, !append_assoc, !append_cons, append_nil_l, !append_assoc.
  destruct ms; reflexivity.
Qed.

Lemma elements_text_cons v els :
  elements_text (v :: els) =
  print v ++ match els with [] => "" | _ :: _ => String "," (elements_text els) end.
Proof.
  unfold elements_text. cbn [map]. rewrite concat_cons. destruct els; reflexivity.
Qed.

Lemma text_roundtrip (n : nat) :
  (forall v rest, plain v = true -> (String.length (print v) < n)%nat ->
     parse_value n (print v ++ rest) = Some (v, rest))
  /\ (forall kv ms rest,
        forallb (fun kv => plain (snd kv)) (kv :: ms) = true ->
        (String.length (members_text (kv :: ms)) < n)%nat ->
        parse_members n (members_text (kv :: ms) ++ String "}" rest)
        = Some (kv :: ms, rest))
  /\ (forall v els rest,
        forallb plain (v :: els) = true ->
        (S (String.length (elements_text (v :: els))) < n)%nat ->
        parse_elements n (elements_text (v :: els) ++ String "]" rest)
        = Some (v :: els, rest)).
Proof.
  induction n as [|n (IHv & IHm & IHe)].
  { repeat split; intros; lia. }
  split; [|split].
  - intros v rest Hp Hlen. destruct v as [|[]|lit|s|els|ms]; try discriminate; try reflexivity.
    + (* Str *)
      cbn [print]. unfold quote. rewrite append_cons, append_assoc, append_cons, append_nil_l.
      rewrite parse_value_string, parse_chars_escape. reflexivity.
    + (* Array *)
      destruct els as [|v els]; [reflexivity|].
      cbn [plain] in Hp. rewrite print_Array in *.
      rewrite !append_cons, !append_nil_l, append_assoc, append_cons, append_nil_l in *.
      cbn [String.length] in Hlen. rewrite length_append in Hlen. cbn [String.length] in Hlen.
      assert (Hv : plain v = true) by (cbn in Hp; apply andb_true_iff in Hp; tauto).
      destruct (print_plain_head v Hv) as (c & r & Hc & Ho).
      pose proof (elements_text_cons v els) as Het.
      rewrite Hc in Het. rewrite append_cons in Het.
      assert (Hgo := IHe v els rest Hp ltac:(lia)).
      rewrite Het in *. rewrite append_cons in *. 
      rewrite (parse_value_array _ _ _ Ho). rewrite Hgo. reflexivity.
    + (* Object *)
      destruct ms as [|kv ms]; [reflexivity|].
      cbn [plain] in Hp. apply andb_true_iff in Hp as [Hnd Hp].
      rewrite print_Object in *.
      rewrite !append_cons, !append_nil_l, append_assoc, append_cons, append_nil_l in *.
      cbn [String.length] in Hlen. rewrite length_append in Hlen. cbn [String.length] in Hlen.
      assert (Hgo := IHm kv ms rest Hp ltac:(lia)).
      rewrite members_text_cons in Hgo |- *. rewrite append_cons in Hgo |- *.
      rewrite parse_value_object, Hgo, Hnd. reflexivity.
  - intros [k v] ms rest Hp Hlen.
    rewrite members_text_cons in Hlen |- *. cbn [fst snd] in *.
    rewrite append_cons.
    rewrite (parse_members_step n _ k
               (print v ++ (match ms with [] => "" | _ :: _ => String "," (members_text ms) end
                            ++ String "}" rest)))
      by (repeat (rewrite append_assoc || rewrite append_cons);
          apply parse_chars_escape).
    cbn [String.length] in Hlen. rewrite !length_append in Hlen.
    cbn [String.length] in Hlen. rewrite !length_append in Hlen.
    cbn [forallb] in Hp. apply andb_true_iff in Hp as [Hv Hms]. cbn [snd] in Hv.
    rewrite IHv by (assumption || lia).
    destruct ms as [|kv' ms].
    + rewrite append_nil_l. apply members_after_close.
    + rewrite append_cons, members_after_comma.
      cbn [String.length] in Hlen.
      rewrite IHm by (assumption || lia). reflexivity.
  - intros v els rest Hp Hlen.
    rewrite elements_text_cons in Hlen |- *.
    rewrite parse_elements_step.
    rewrite !length_append in Hlen.
    cbn [forallb] in Hp. apply andb_true_iff in Hp as [Hv Hels].
    rewrite append_assoc, IHv by (assumption || lia).
    destruct els as [|v' els].
    + rewrite append_nil_l. apply elements_after_close.
    + rewrite append_cons, elements_after_comma.
      cbn [String.length] in Hlen.
      rewrite IHe by (assumption || lia). reflexivity.
Qed.

Lemma append_nil_r (a : string) : a ++ "" = a.
Proof. induction a as [|x a IH]; [reflexivity|]. rewrite append_cons. now rewrite IH. Qed.

Lemma parse_print (v : value) : plain v = true -> parse (print v) = Some v.
Proof.
  intros Hp. unfold parse.
  destruct (text_roundtrip (S (String.length (print v)))) as (Hv & _ & _).
  rewrite <- (append_nil_r (print v)) at 2.
  rewrite Hv by (assumption || lia). reflexivity.
Qed.

(** ** Go values: what is encoded is decoded back *)

Lemma has_type_struct fs vs :
  has_type (TStruct fs) (VStruct vs) = true <-> Forall2 typed_field fs vs.
Proof.
  revert vs. induction fs as [|[n t] fs IH]; intros [|[m v] vs].
  - split; [constructor | reflexivity].
  - split; [discriminate | inversion 1].
  - split; [discriminate | inversion 1].
  - change (has_type (TStruct ((n, t) :: fs)) (VStruct ((m, v) :: vs)))
      with (String.eqb n m && has_type t v && has_type (TStruct fs) (VStruct vs)).
    rewrite !andb_true_iff, IH, String.eqb_eq. split.
    + intros [[? ?] ?]. constructor; [split; assumption | assumption].
    + inversion 1 as [|? ? ? ? [? ?]]; subst. tauto.
Qed.

Lemma has_type_inv_struct fs v :
  has_type (TStruct fs) v = true -> exists vs, v = VStruct vs /\ Forall2 typed_field fs vs.
Proof.
  destruct v as [s|b|vs]; try discriminate.
  intros H. exists vs. split; [reflexivity | now apply has_type_struct].
Qed.

Lemma existsb_name {A} (n : string) (fs : list (string * A)) :
  existsb (fun f => String.eqb n (fst f)) fs = true <-> In n (field_names fs).
Proof.
  rewrite existsb_exists. unfold field_names. rewrite in_map_iff. split.
  - intros (f & Hin & Heq). apply String.eqb_eq in Heq. eauto.
  - intros (f & Heq & Hin). exists f. split; [assumption|]. apply String.eqb_eq. congruence.
Qed.

Lemma wf_type_struct fs :
  wf_type (TStruct fs) = true <->
  List.NoDup (field_names fs) /\ Forall (fun f => wf_type (snd f) = true) fs.
Proof.
  induction fs as [|[n t] fs IH].
  - split; [split; constructor | reflexivity].
  - change (wf_type (TStruct ((n, t) :: fs)))
      with (negb (existsb (fun f => String.eqb n (fst f)) fs) && wf_type t
            && wf_type (TStruct fs)).
    rewrite !andb_true_iff, IH, negb_true_iff. cbn [field_names map fst].
    split.
    + intros [[Hn Ht] [Hnd Hfs]]. split; constructor; try assumption.
      intros Hin. apply existsb_name in Hin. congruence.
    + intros [Hnd Hfs]. inversion Hnd; subst. inversion Hfs; subst.
      repeat split; try assumption.
      destruct (existsb _ fs) eqn:E; [|reflexivity].
      apply existsb_name in E. contradiction.
Qed.

Lemma typed_field_names fs vs :
  Forall2 typed_field fs vs -> field_names vs = field_names fs.
Proof.
  induction 1 as [|f x fs vs [Hn _] _ IH]; [reflexivity|].
  cbn [field_names map]. unfold field_names in IH. congruence.
Qed.

(** *** Zero values *)

Lemma zero_facts (t : gotype) : IsZero (zero t) = true /\ has_type t (zero t) = true.
Proof.
  induction t as [| |fs IH] using gotype_induction; [split; reflexivity ..|].
  split.
  - cbn [zero IsZero]. induction IH as [|[n t] fs [Hz _] _ IHfs]; [reflexivity|].
    cbn [map forallb fst snd] in *. now rewrite Hz, IHfs.
  - apply has_type_struct. cbn [zero].
    induction IH as [|[n t] fs [_ Ht] _ IHfs]; constructor; [split; [reflexivity | exact Ht] | assumption].
Qed.

Lemma IsZero_zero (t : gotype) : IsZero (zero t) = true.
Proof. apply zero_facts. Qed.

Lemma has_type_zero (t : gotype) : has_type t (zero t) = true.
Proof. apply zero_facts. Qed.

(** *** Encoding gives plain values *)

Lemma encode_struct vs : encode (VStruct vs) = Object (map encode_field vs).
Proof. reflexivity. Qed.

Lemma nodup_names_spec (ms : list (string * value)) :
  nodup_names ms = true <-> List.NoDup (field_names ms).
Proof.
  induction ms as [|[k j] ms IH].
  - split; [constructor | reflexivity].
  - cbn [nodup_names field_names map fst]. rewrite andb_true_iff, IH, negb_true_iff. split.
    + intros [Hn Hnd]. constructor; [|assumption].
      intros Hin. apply existsb_name in Hin. congruence.
    + inversion 1; subst. split; [|assumption].
      destruct (existsb _ ms) eqn:E; [|reflexivity].
      apply existsb_name in E. contradiction.
Qed.

Lemma field_names_encode vs : field_names (map encode_field vs) = field_names vs.
Proof. unfold field_names. rewrite map_map. reflexivity. Qed.

Lemma encode_plain (t : gotype) :
  forall v, wf_type t = true -> has_type t v = true -> plain (encode v) = true.
Proof.
  induction t as [| |fs IH] using gotype_induction; intros v Hwf Hty.
  - destruct v; try discriminate. reflexivity.
  - destruct v; try discriminate. reflexivity.
  - apply has_type_inv_struct in Hty as (vs & -> & Hty).
    apply wf_type_struct in Hwf as [Hnd Hwf].
    rewrite encode_struct. cbn [plain]. apply andb_true_iff. split.
    + apply nodup_names_spec. rewrite field_names_encode.
      now rewrite (typed_field_names _ _ Hty).
    + clear Hnd. induction Hty as [|f x fs vs [_ Hx] _ IHty]; [reflexivity|].
      inversion IH; subst. inversion Hwf; subst.
      cbn [map forallb encode_field snd]. apply andb_true_iff. split; auto.
Qed.

(** *** Decoding what was encoded *)

Lemma decode_struct fs ms :
  decode (TStruct fs) (Object ms) = option_map VStruct (decode_fields ms fs).
Proof.
  cbn [decode]. f_equal.
  induction fs as [|[n t] fs IH]; [reflexivity|].
  cbn [decode_fields]. rewrite <- IH. reflexivity.
Qed.

Lemma lookup_member_encode (vs : list (string * govalue)) (n : string) (v : govalue) :
  List.NoDup (field_names vs) -> In (n, v) vs ->
  lookup_member n (map encode_field vs) = Some (encode v).
Proof.
  induction vs as [|[m x] vs IH]; intros Hnd Hin; [destruct Hin|].
  cbn [field_names map fst] in Hnd. inversion Hnd; subst.
  cbn [map encode_field lookup_member fst snd].
  destruct Hin as [Heq | Hin].
  - inversion Heq; subst. now rewrite String.eqb_refl.
  - destruct (String.eqb_spec n m) as [-> | _].
    + exfalso. apply H1. unfold field_names. apply in_map_iff. exists (m, v). auto.
    + apply IH; assumption.
Qed.

Lemma lookup_member_absent {A} (f : A -> value) (vs : list (string * A)) (n : string) :
  ~ In n (field_names vs) ->
  lookup_member n (map (fun x => (fst x, f (snd x))) vs) = None.
Proof.
  induction vs as [|[m x] vs IH]; intros Hn; [reflexivity|].
  cbn [map lookup_member fst snd]. cbn [field_names map fst] in Hn.
  destruct (String.eqb_spec n m) as [-> | _]; [exfalso; apply Hn; now left|].
  apply IH. intros Hin. apply Hn. now right.
Qed.

Lemma decode_encode (t : gotype) :
  forall v, wf_type t = true -> has_type t v = true -> decode t (encode v) = Some v.
Proof.
  induction t as [| |fs IH] using gotype_induction; intros v Hwf Hty.
  - destruct v; try discriminate. reflexivity.
  - destruct v; try discriminate. reflexivity.
  - apply has_type_inv_struct in Hty as (vs & -> & Hty).
    apply wf_type_struct in Hwf as [Hnd Hwf].
    rewrite encode_struct, decode_struct.
    rewrite <- (typed_field_names _ _ Hty) in Hnd.
    enough (H : forall fs' vs', Forall2 typed_field fs' vs' ->
                Forall (fun f => forall v, wf_type (snd f) = true ->
                                  has_type (snd f) v = true ->
                                  decode (snd f) (encode v) = Some v) fs' ->
                Forall (fun f => wf_type (snd f) = true) fs' ->
                (forall x, In x vs' -> In x vs) ->
                decode_fields (map encode_field vs) fs' = Some vs').
    { rewrite (H fs vs); auto. }
    clear IH Hwf Hty. intros fs' vs' Hty.
    induction Hty as [|[n t] [m x] fs' vs' [Hn Hx] _ IHty]; intros IH Hwf Hsub; [reflexivity|].
    cbn [fst snd] in *. subst m. inversion IH; subst. inversion Hwf; subst.
    cbn [decode_fields]. unfold decode_field at 1. cbn [fst snd] in *.
    rewrite (lookup_member_encode vs n x Hnd) by (apply Hsub; now left).
    rewrite H1 by assumption.
    rewrite IHty; auto. intros y Hy. apply Hsub. now right.
Qed.

(** ** [json.Unmarshal] after [json.Marshal] *)

Lemma Unmarshal_Marshal (t : gotype) (v : govalue) :
  wf_type t = true -> has_type t v = true -> Unmarshal t (Marshal v) = Some v.
Proof.
  intros Hwf Hty. unfold Unmarshal, Marshal.
  rewrite parse_print by (eapply encode_plain; eassumption).
  now apply decode_encode.
Qed.

Lemma Marshal_not_empty (v : govalue) : (String.length (Marshal v) =? 0)%nat = false.
Proof. destruct v as [s|[]|vs]; reflexivity. Qed.

Lemma Unmarshal_versioned_Marshal (T : gotype) (r : VersionedReq) :
  wf_type T = true -> has_type T (Req r) = true ->
  Unmarshal_versioned T (Marshal (to_govalue r)) = Some r.
Proof.
  intros Hwf Hty. unfold Unmarshal_versioned.
  rewrite Unmarshal_Marshal.
  - destruct r; reflexivity.
  - apply wf_type_struct. split.
    + repeat constructor; cbn; intuition discriminate.
    + repeat constructor. exact Hwf.
  - apply has_type_struct. repeat constructor. exact Hty.
Qed.

Lemma bare_payload_names fs :
  bare_payload_type (TStruct fs) = true ->
  ~ In "ABVersion" (field_names fs) /\ ~ In "Req" (field_names fs).
Proof.
  cbn [bare_payload_type]. rewrite forallb_forall. intros H.
  split; intros Hin; apply in_map_iff in Hin as ([n t] & Hn & Hin);
    cbn [fst] in Hn; subst n; specialize (H _ Hin); discriminate.
Qed.

(** A bare payload read as an envelope: both fields are left at zero. *)
Lemma Unmarshal_versioned_bare (T : gotype) (P : govalue) :
  wf_type T = true -> has_type T P = true -> bare_payload_type T = true ->
  Unmarshal_versioned T (Marshal P) = Some {| ABVersion := ""; Req := zero T |}.
Proof.
  intros Hwf Hty Hbare. destruct T as [| |fs]; try discriminate.
  pose proof (encode_plain _ _ Hwf Hty) as Hplain.
  apply has_type_inv_struct in Hty as (vs & -> & Hty).
  apply bare_payload_names in Hbare as [Hab Hreq].
  rewrite <- (typed_field_names _ _ Hty) in Hab, Hreq.
  unfold Unmarshal_versioned, Unmarshal, Marshal.
  rewrite parse_print by assumption.
  rewrite encode_struct. unfold VersionedReqT. rewrite decode_struct.
  cbn [decode_fields]. unfold decode_field. cbn [fst snd]. unfold encode_field.
  rewrite !lookup_member_absent by assumption. reflexivity.
Qed.

(** ** The table of [TestVersionedRequest] *)

Example test_bad_json :
  is_err (versionedRequest Config "{") = true.
Proof. reflexivity. Qed.

Example test_version_without_req :
  is_err (versionedRequest Config (quoted "{'ABVersion':'1.0.0'}")) = true.
Proof. reflexivity. Qed.

Example test_not_a_config :
  is_err (versionedRequest Config (quoted "{'Random': 'data'}")) = true.
Proof. reflexivity. Qed.

Example test_bare_config :
  versionedRequest Config (quoted "{'Type': 'test', 'Data': 'data'}")
  = Ok (Latest, test_config).
Proof. reflexivity. Qed.

Example test_req_without_version :
  is_err (versionedRequest Config (quoted "{'Req':{'Type': 'test', 'Data': 'data'}}")) = true.
Proof. reflexivity. Qed.

Example test_versioned_config :
  versionedRequest Config
    (quoted "{'ABVersion':'1.0.0','Req':{'Type': 'test', 'Data': 'data'}}")
  = Ok ("1.0.0", test_config).
Proof. reflexivity. Qed.

(** ** Resolution of the two request shapes *)

(** C1 as the specification states it (for every payload type) fails: the
    payload type [Collides] has a field named ABVersion, so the encoding
    of its non-zero value [collides_payload] is read as an envelope with a
    version and no request, and is rejected. *)
Lemma versionedRequest_roundtrip_fails :
  wf_type Collides = true /\ has_type Collides collides_payload = true
  /\ IsZero collides_payload = false
  /\ versionedRequest Collides (Marshal collides_payload) = Err ErrReqMissing
  /\ versionedRequest Collides (Marshal collides_payload) <> Ok (Latest, collides_payload).
Proof. repeat split; try reflexivity. vm_compute. discriminate. Qed.

(** *** Valid UTF-8 *)

Example ValidString_ascii : utf8.ValidString "latest 1.0.0" = true.
Proof. reflexivity. Qed.

Example ValidString_two_bytes : utf8.ValidString (bytes [195; 169]%N) = true.
Proof. reflexivity. Qed.

Example ValidString_three_bytes : utf8.ValidString (bytes [226; 130; 172; 65]%N) = true.
Proof. reflexivity. Qed.

Example ValidString_four_bytes : utf8.ValidString (bytes [240; 159; 152; 128]%N) = true.
Proof. reflexivity. Qed.

Example ValidString_byte_255 : utf8.ValidString (bytes [255]%N) = false.
Proof. reflexivity. Qed.

Example ValidString_lone_continuation : utf8.ValidString (bytes [65; 128]%N) = false.
Proof. reflexivity. Qed.

Example ValidString_overlong : utf8.ValidString (bytes [192; 128]%N) = false.
Proof. reflexivity. Qed.

Example ValidString_surrogate : utf8.ValidString (bytes [237; 160; 128]%N) = false.
Proof. reflexivity. Qed.

Example ValidString_above_10FFFF : utf8.ValidString (bytes [244; 144; 128; 128]%N) = false.
Proof. reflexivity. Qed.

Example ValidString_truncated : utf8.ValidString (bytes [226; 130]%N) = false.
Proof. reflexivity. Qed.

(** A payload the library does not encode. *)
Example valid_value_byte_255 :
  has_type Config (VStruct [("Type", VString (bytes [255]%N)); ("Data", VString "y")]) = true
  /\ valid_value (VStruct [("Type", VString (bytes [255]%N)); ("Data", VString "y")]) = false.
Proof. split; reflexivity. Qed.

(** *** A bare payload read as an envelope *)

Lemma lookup_member_fields (n : string) (ws : list (string * govalue)) :
  lookup_member n (map encode_field ws) = option_map encode (lookup_field n ws).
Proof.
  induction ws as [|[k w] ws IH]; [reflexivity|].
  cbn [map encode_field lookup_member lookup_field fst snd].
  destruct (String.eqb n k); [reflexivity | exact IH].
Qed.

Lemma decode_field_encoded (ws : list (string * govalue)) (f : string * gotype) :
  decode_field (map encode_field ws) f
  = match lookup_field (fst f) ws with
    | Some w => decode (snd f) (encode w)
    | None => Some (zero (snd f))
    end.
Proof.
  unfold decode_field. rewrite lookup_member_fields.
  destruct (lookup_field (fst f) ws); reflexivity.
Qed.

(** [reads_zero] says what decoding does. *)
Lemma reads_zero_spec (t : gotype) :
  forall v, reads_zero t v = true
            <-> exists z, decode t (encode v) = Some z /\ IsZero z = true.
Proof.
  induction t as [| |fs IH] using gotype_induction; intros v.
  - destruct v as [s|b|ws]; cbn.
    + split; [intros H; eauto | intros (z & [= <-] & H); exact H].
    + split; [discriminate | intros (z & [=] & _)].
    + split; [discriminate | intros (z & [=] & _)].
  - destruct v as [s|b|ws]; cbn.
    + split; [discriminate | intros (z & [=] & _)].
    + split; [intros H; eauto | intros (z & [= <-] & H); exact H].
    + split; [discriminate | intros (z & [=] & _)].
  - destruct v as [s|b|ws].
    + cbn. split; [discriminate | intros (z & [=] & _)].
    + cbn. split; [discriminate | intros (z & [=] & _)].
    + rewrite encode_struct, decode_struct. cbn [reads_zero].
      enough (H : forallb (fun f => match lookup_field (fst f) ws with
                                    | Some w => reads_zero (snd f) w
                                    | None => true
                                    end) fs = true
                  <-> exists zs, decode_fields (map encode_field ws) fs = Some zs
                                 /\ forallb (fun f => IsZero (snd f)) zs = true).
      { rewrite H. split.
        - intros (zs & -> & Hz). exists (VStruct zs). split; [reflexivity | exact Hz].
        - intros (z & Hd & Hz). destruct (decode_fields _ fs) as [zs|]; [|discriminate].
          injection Hd as <-. exists zs. split; [reflexivity | exact Hz]. }
      induction IH as [|f fs Hf _ IHfs].
      * cbn. split; [intros _; exists []; split; reflexivity | reflexivity].
      * cbn [forallb decode_fields]. rewrite decode_field_encoded, andb_true_iff, IHfs.
        destruct (lookup_field (fst f) ws) as [w|].
        -- rewrite Hf. split.
           ++ intros [(z & -> & Hz) (zs & -> & Hzs)]. exists ((fst f, z) :: zs).
              split; [reflexivity|]. cbn. now rewrite Hz, Hzs.
           ++ intros (zs' & Hd & Hz).
              destruct (decode (snd f) (encode w)) as [z|]; [|discriminate].
              destruct (decode_fields _ fs) as [zs|]; [|discriminate].
              injection Hd as <-. cbn in Hz. apply andb_true_iff in Hz as [Hz Hzs].
              split; [exists z | exists zs]; auto.
        -- split.
           ++ intros [_ (zs & -> & Hzs)]. exists ((fst f, zero (snd f)) :: zs).
              split; [reflexivity|]. cbn. now rewrite IsZero_zero, Hzs.
           ++ intros (zs' & Hd & Hz).
              destruct (decode_fields _ fs) as [zs|]; [|discriminate].
              injection Hd as <-. cbn in Hz. apply andb_true_iff in Hz as [_ Hzs].
              split; [reflexivity | exists zs; auto].
Qed.

Lemma decode_fields_lookup ms fs vs n x :
  decode_fields ms fs = Some vs -> lookup_field n vs = Some x ->
  exists t, decode_field ms (n, t) = Some x.
Proof.
  revert vs. induction fs as [|[m t] fs IH]; intros vs Hd Hl.
  - injection Hd as <-. discriminate.
  - cbn [decode_fields] in Hd.
    destruct (decode_field ms (m, t)) as [v|] eqn:Hv; [|discriminate].
    destruct (decode_fields ms fs) as [vs'|]; [|discriminate].
    injection Hd as <-. cbn [lookup_field fst] in Hl.
    destruct (String.eqb_spec n m) as [-> | _].
    + injection Hl as <-. eauto.
    + eapply IH; [reflexivity | exact Hl].
Qed.

Lemma decode_to_string t v s : decode t (encode v) = Some (VString s) -> v = VString s.
Proof.
  destruct t as [| |fs]; destruct v as [s'|b|ws]; cbn [encode decode]; try discriminate.
  - now intros [= ->].
  - destruct (_ fs); discriminate.
Qed.

Lemma decode_to_struct t v vs :
  decode t (encode v) = Some (VStruct vs) ->
  exists fs ws, t = TStruct fs /\ v = VStruct ws
                /\ decode_fields (map encode_field ws) fs = Some vs.
Proof.
  destruct t as [| |fs]; destruct v as [s'|b|ws]; try (cbn [encode decode]; discriminate).
  rewrite encode_struct, decode_struct. intros H.
  destruct (decode_fields _ fs) as [vs'|] eqn:Hd; [|discriminate]. injection H as <-.
  exists fs, ws. split; [reflexivity|]. split; [reflexivity | exact Hd].
Qed.

Lemma lookup_field_nonzero n vs x :
  lookup_field n vs = Some x -> IsZero x = false -> IsZero (VStruct vs) = false.
Proof.
  induction vs as [|[k v] vs IH]; [discriminate|].
  cbn [lookup_field]. destruct (String.eqb n k).
  - intros [= ->] Hx. cbn. now rewrite Hx.
  - intros Hl Hx. cbn [IsZero forallb snd]. cbn [IsZero] in IH.
    rewrite (IH Hl Hx). apply andb_false_r.
Qed.

Lemma lookup_field_size n vs x :
  lookup_field n vs = Some x -> (vsize x < vsize (VStruct vs))%nat.
Proof.
  induction vs as [|[k v] vs IH]; [discriminate|].
  cbn [lookup_field]. destruct (String.eqb n k).
  - intros [= ->]. cbn [vsize map snd]. unfold list_sum. cbn [fold_right]. lia.
  - intros Hl. specialize (IH Hl). cbn [vsize map snd] in *. unfold list_sum in *.
    cbn [fold_right]. lia.
Qed.

(** No value is the request of an envelope of version latest that is read
    from its own field Req. *)
Lemma no_self_envelope (k : nat) :
  forall vs t w,
    (vsize (VStruct vs) <= k)%nat ->
    lookup_field "ABVersion" vs = Some (VString Latest) ->
    lookup_field "Req" vs = Some w ->
    decode t (encode w) = Some (VStruct vs) -> False.
Proof.
  induction k as [|k IH]; intros vs t w Hk Hab Hreq Hd.
  - cbn in Hk. lia.
  - pose proof (lookup_field_size _ _ _ Hreq) as Hsize.
    apply decode_to_struct in Hd as (fs & ws & -> & -> & Hd).
    destruct (decode_fields_lookup _ _ _ _ _ Hd Hab) as [ta Ha].
    destruct (decode_fields_lookup _ _ _ _ _ Hd Hreq) as [tr Hr].
    rewrite decode_field_encoded in Ha, Hr. cbn [fst snd] in Ha, Hr.
    destruct (lookup_field "ABVersion" ws) as [wa|] eqn:Hwa.
    + apply decode_to_string in Ha. subst wa.
      destruct (lookup_field "Req" ws) as [w'|] eqn:Hw'.
      * apply (IH ws tr w'); [lia | exact Hwa | exact Hw' | exact Hr].
      * injection Hr as Hr.
        pose proof (lookup_field_nonzero _ _ _ Hwa eq_refl) as Hnz.
        rewrite <- Hr, IsZero_zero in Hnz. discriminate.
    + injection Ha as Ha. pose proof (IsZero_zero ta) as Hz. rewrite Ha in Hz. discriminate.
Qed.


(** The envelope the bare encoding of [P] is read as. *)
Lemma Unmarshal_versioned_encoded (T : gotype) (P : govalue) :
  wf_type T = true -> has_type T P = true ->
  Unmarshal_versioned T (Marshal P)
  = match decode (VersionedReqT T) (encode P) with
    | Some v => of_govalue v
    | None => None
    end.
Proof.
  intros Hwf Hty. unfold Unmarshal_versioned, Unmarshal, Marshal.
  rewrite parse_print by (eapply encode_plain; eassumption). reflexivity.
Qed.

Lemma decode_envelope_fields (T : gotype) (ws : list (string * govalue)) (v : govalue) :
  decode (VersionedReqT T) (encode (VStruct ws)) = Some v ->
  exists s r, v = VStruct [("ABVersion", VString s); ("Req", r)]
              /\ decode_field (map encode_field ws) ("ABVersion", TString) = Some (VString s)
              /\ decode_field (map encode_field ws) ("Req", T) = Some r.
Proof.
  unfold VersionedReqT. rewrite encode_struct, decode_struct. cbn [decode_fields].
  destruct (decode_field _ ("ABVersion", TString)) as [a|] eqn:Ha; [|discriminate].
  destruct (decode_field _ ("Req", T)) as [r|] eqn:Hr; [|discriminate].
  cbn. intros [= <-].
  assert (exists s, a = VString s) as [s ->].
  { unfold decode_field in Ha. cbn [fst snd] in Ha.
    destruct (lookup_member _ _) as [j|]; [|injection Ha as <-; eauto].
    destruct j; cbn in Ha; try discriminate; injection Ha as <-; eauto. }
  eauto.
Qed.

(** The bare encoding of a non-zero payload resolves to the payload
    exactly when it reads as the zero envelope. *)
Lemma bare_roundtrip_iff (T : gotype) (P : govalue) :
  wf_type T = true -> has_type T P = true -> IsZero P = false ->
  versionedRequest T (Marshal P) = Ok (Latest, P)
  <-> reads_zero (VersionedReqT T) P = true.
Proof.
  intros Hwf Hty Hnz. unfold versionedRequest.
  rewrite Marshal_not_empty, Unmarshal_versioned_encoded by assumption.
  rewrite reads_zero_spec. split.
  - destruct (decode (VersionedReqT T) (encode P)) as [v|] eqn:Hd; [|discriminate].
    destruct P as [s|b|ws]; try (cbn in Hd; discriminate).
    destruct (decode_envelope_fields T ws v Hd) as (s & r & -> & Ha & Hr).
    cbn [of_govalue Req ABVersion]. destruct (IsZero r) eqn:Hz.
    + destruct (String.eqb_spec s "") as [-> | _]; cbn [negb]; [|discriminate].
      intros _. eexists. split; [reflexivity|]. cbn. now rewrite Hz.
    + destruct (String.eqb_spec s "") as [-> | _]; [discriminate|].
      unfold Ok. intros [= -> ->]. exfalso.
      rewrite !decode_field_encoded in Ha, Hr. cbn [fst snd] in Ha, Hr.
      destruct (lookup_field "ABVersion" ws) as [wa|] eqn:Hwa; [|discriminate].
      apply decode_to_string in Ha. subst wa.
      destruct (lookup_field "Req" ws) as [w|] eqn:Hw.
      * apply (no_self_envelope (vsize (VStruct ws)) ws T w); auto.
      * injection Hr as Hr. rewrite <- Hr, IsZero_zero in Hz. discriminate.
  - intros (z & Hd & Hz). rewrite Hd.
    destruct P as [s|b|ws]; try (cbn in Hd; discriminate).
    destruct (decode_envelope_fields T ws z Hd) as (s & r & -> & _ & _).
    cbn in Hz. rewrite andb_true_r in Hz. apply andb_true_iff in Hz as [Hs Hr].
    cbn [of_govalue Req ABVersion]. rewrite Hr, Hs. cbn [negb].
    rewrite Unmarshal_Marshal by assumption. now rewrite Hnz.
Qed.

Lemma reads_zero_bare (T : gotype) (P : govalue) :
  has_type T P = true -> bare_payload_type T = true ->
  reads_zero (VersionedReqT T) P = true.
Proof.
  intros Hty Hbare. destruct T as [| |fs]; try discriminate.
  apply has_type_inv_struct in Hty as (vs & -> & Hty).
  apply bare_payload_names in Hbare as [Hab Hreq].
  rewrite <- (typed_field_names _ _ Hty) in Hab, Hreq.
  assert (Habsent : forall n, ~ In n (field_names vs) -> lookup_field n vs = None).
  { intros n. clear. induction vs as [|[k v] vs IH]; intros Hn; [reflexivity|].
    cbn [lookup_field]. destruct (String.eqb_spec n k) as [-> | _].
    - exfalso. apply Hn. now left.
    - apply IH. intros Hin. apply Hn. now right. }
  unfold VersionedReqT. cbn [reads_zero forallb fst snd].
  now rewrite !Habsent by assumption.
Qed.

(** C1 (amended). Round trip of resolution, for the payload types the
    library encodes field by field (strings, booleans and structs with
    exported, untagged, distinctly named fields of ASCII name, the
    envelope nested fewer than 10000 deep): for every non-zero payload
    [P] of such a type [T] whose strings are valid UTF-8 and every
    non-empty version [V] that is valid UTF-8, [versionedRequest] applied
    to the encoding of the envelope [{ABVersion: V, Req: P}] returns
    [(V, P)]; and
    [versionedRequest] applied to the encoding of the bare [P] returns
    [(Latest, P)] exactly when that encoding reads as the zero envelope:
    [P] is a struct whose field ABVersion, if it has one, is the empty
    string, and whose field Req, if it has one, is a struct in which every
    field that [T] names too is of the kind [T] gives it and zero, at
    every depth.  It does so, in particular, for every struct type
    without a field named ABVersion or Req. *)
Theorem versionedRequest_roundtrip (T : gotype) (P : govalue) (V : Version) :
  payload_type T = true -> has_type T P = true -> valid_value P = true ->
  IsZero P = false -> V <> "" -> utf8.ValidString V = true ->
  versionedRequest T (Marshal (to_govalue {| ABVersion := V; Req := P |})) = Ok (V, P)
  /\ (versionedRequest T (Marshal P) = Ok (Latest, P)
      <-> reads_zero (VersionedReqT T) P = true)
  /\ (bare_payload_type T = true -> versionedRequest T (Marshal P) = Ok (Latest, P)).
Proof.
  intros HT Hty _ Hnz HV _.
  unfold payload_type in HT. apply andb_true_iff in HT as [HT _].
  apply andb_true_iff in HT as [Hwf _].
  split; [|split].
  - unfold versionedRequest.
    rewrite Marshal_not_empty, Unmarshal_versioned_Marshal by assumption.
    cbn [Req ABVersion]. rewrite Hnz.
    apply String.eqb_neq in HV. now rewrite HV.
  - now apply bare_roundtrip_iff.
  - intros Hbare. apply bare_roundtrip_iff; [assumption ..|].
    now apply reads_zero_bare.
Qed.

Lemma versionedRequest_roundtrip_witness :
  versionedRequest Config (Marshal (to_govalue {| ABVersion := "1.0.0"; Req := test_config |}))
    = Ok ("1.0.0", test_config)
  /\ versionedRequest Config (Marshal test_config) = Ok (Latest, test_config).
Proof.
  destruct (versionedRequest_roundtrip Config test_config "1.0.0") as (H1 & H2 & _);
    [reflexivity | reflexivity | reflexivity | reflexivity | discriminate | reflexivity |].
  split; [exact H1 | apply H2; reflexivity].
Defined.

(** A payload type with a field named Req whose bare encoding resolves
    to the payload: what it holds in Req has no field of the type itself. *)
Example nested_roundtrip :
  payload_type Nested = true /\ has_type Nested nested_payload = true
  /\ bare_payload_type Nested = false
  /\ reads_zero (VersionedReqT Nested) nested_payload = true
  /\ versionedRequest Nested (Marshal nested_payload) = Ok (Latest, nested_payload).
Proof. repeat split; vm_compute; reflexivity. Qed.

(** C2. Errors of resolution: [versionedRequest T b] returns an error
    exactly when [b] is empty, or [b] does not decode as an envelope, or
    the envelope has a zero [Req] and a non-empty [ABVersion], or the
    envelope has a zero [Req] and the bare decoding of [b] fails or is
    zero, or the envelope has a non-zero [Req] and an empty [ABVersion].
    When the envelope does not decode, the error is that of the envelope:
    the result does not depend on the bare decoding.  In particular the
    encoding of an envelope with a version [V] and no request, the
    encoding of an envelope with a request [P] and no version, the empty
    body and the body [{] are all rejected. *)
Theorem versionedRequest_error_iff (T : gotype) (b : string) (V : Version) (P : govalue) :
  wf_type T = true -> has_type T P = true -> IsZero P = false -> V <> "" ->
  (is_err (versionedRequest T b) = true <->
     b = ""
     \/ Unmarshal_versioned T b = None
     \/ (exists env, Unmarshal_versioned T b = Some env
                     /\ IsZero (Req env) = true /\ ABVersion env <> "")
     \/ (exists env, Unmarshal_versioned T b = Some env
                     /\ IsZero (Req env) = true
                     /\ (Unmarshal T b = None
                         \/ exists config, Unmarshal T b = Some config
                                           /\ IsZero config = true))
     \/ (exists env, Unmarshal_versioned T b = Some env
                     /\ IsZero (Req env) = false /\ ABVersion env = ""))
  /\ (b <> "" -> Unmarshal_versioned T b = None ->
      versionedRequest T b = Err ErrUnmarshalVersioned)
  /\ is_err (versionedRequest T (Marshal (to_govalue {| ABVersion := V; Req := zero T |}))) = true
  /\ is_err (versionedRequest T (Marshal (to_govalue {| ABVersion := ""; Req := P |}))) = true
  /\ is_err (versionedRequest T "") = true
  /\ is_err (versionedRequest T "{") = true.
Proof.
  intros Hwf Hty Hnz HV.
  refine (conj _ (conj _ (conj _ (conj _ (conj _ _))))).
  - unfold versionedRequest. destruct b as [|c b].
    { cbn. tauto. }
    cbn [String.length Nat.eqb].
    destruct (Unmarshal_versioned T (String c b)) as [env|] eqn:Henv.
    2: { cbn. tauto. }
    destruct (IsZero (Req env)) eqn:Hreq.
    + destruct (String.eqb_spec (ABVersion env) "") as [Hab | Hab]; cbn [negb].
      * destruct (Unmarshal T (String c b)) as [config|] eqn:Hcfg.
        -- destruct (IsZero config) eqn:Hz; cbn [is_err Err Ok].
           ++ split; [|reflexivity]. intros _. do 3 right. left.
              exists env. repeat split; try assumption. right. eauto.
           ++ split; [discriminate|].
              intros [H | [H | [(e & He & _ & Hv) | [(e & He & _ & [H | (c' & Hc & Hz')])
                                 | (e & He & Hr & _)]]]];
                try discriminate; try congruence.
        -- cbn. split; [|reflexivity]. intros _. do 3 right. left.
           exists env. repeat split; try assumption. now left.
      * cbn. split; [|reflexivity]. intros _. right. right. left. exists env. auto.
    + destruct (String.eqb_spec (ABVersion env) "") as [Hab | Hab].
      * cbn. split; [|reflexivity]. intros _. do 4 right. exists env. auto.
      * cbn. split; [discriminate|].
        intros [H | [H | [(e & He & Hr & _) | [(e & He & Hr & _) | (e & He & _ & Hv)]]]];
          try discriminate; congruence.
  - intros Hb Hnone. unfold versionedRequest. rewrite Hnone.
    destruct b; [contradiction | reflexivity].
  - unfold versionedRequest.
    rewrite Marshal_not_empty, Unmarshal_versioned_Marshal
      by (assumption || apply has_type_zero).
    cbn [Req ABVersion]. rewrite IsZero_zero.
    apply String.eqb_neq in HV. now rewrite HV.
  - unfold versionedRequest.
    rewrite Marshal_not_empty, Unmarshal_versioned_Marshal by assumption.
    cbn [Req ABVersion]. now rewrite Hnz.
  - reflexivity.
  - reflexivity.
Qed.

Lemma versionedRequest_error_iff_witness :
  is_err (versionedRequest Config
            (Marshal (to_govalue {| ABVersion := "1.0.0"; Req := zero Config |}))) = true
  /\ is_err (versionedRequest Config
               (Marshal (to_govalue {| ABVersion := ""; Req := test_config |}))) = true.
Proof.
  destruct (versionedRequest_error_iff Config "{" "1.0.0" test_config)
    as (_ & _ & H1 & H2 & _);
    [reflexivity | reflexivity | reflexivity | discriminate |].
  split; assumption.
Defined.

(** ** The goroutines of [spawnVersions] *)

Lemma run_app env s1 s2 st : run env (s1 ++ s2) st = run env s2 (run env s1 st).
Proof. unfold run. apply fold_left_app. Qed.

Lemma run_cons env i s st : run env (i :: s) st = run env s (step env st i).
Proof. reflexivity. Qed.

(** The cases of a step of goroutine [i], which is [g]. *)
Ltac step_cases env st i g Hg :=
  unfold step; rewrite Hg;
  let Hpc := fresh "Hpc" in
  let Hcall := fresh "Hcall" in
  destruct (at_pc g) eqn:Hpc;
  [ destruct (WriteFile env (fp_of env g) (bin (vp g))) eqn:Hcall
  | idtac
  | destruct (Start env (fp_of env g) ["-port"; addr (vp g)]) eqn:Hcall
  | idtac
  | idtac ];
  cbn [goroutines verPaths ports written started allocated set_goroutine].

(** The effect of a step on the list of goroutines. *)
Lemma step_goroutines env st i :
  goroutines (step env st i) = goroutines st
  \/ exists g g', goroutines st !! i = Some g
                  /\ goroutines (step env st i) = <[i := g']> (goroutines st).
Proof.
  destruct (goroutines st !! i) as [g|] eqn:Hg.
  - step_cases env st i g Hg; try (right; exists g; eexists; split; reflexivity).
    now left.
  - left. unfold step. now rewrite Hg.
Qed.

Lemma step_length env st i :
  length (goroutines (step env st i)) = length (goroutines st).
Proof.
  destruct (step_goroutines env st i) as [-> | (g & g' & _ & ->)];
    [reflexivity | apply length_insert].
Qed.

Lemma step_other env st i j :
  i <> j -> goroutines (step env st i) !! j = goroutines st !! j.
Proof.
  intros Hne. destruct (step_goroutines env st i) as [-> | (g & g' & _ & ->)];
    [reflexivity | now apply list_lookup_insert_ne].
Qed.

Lemma run_length env sched st :
  length (goroutines (run env sched st)) = length (goroutines st).
Proof.
  revert st. induction sched as [|i sched IH]; intros st; [reflexivity|].
  rewrite run_cons, IH. apply step_length.
Qed.

Lemma step_progress env st i g :
  goroutines st !! i = Some g ->
  exists g', goroutines (step env st i) !! i = Some g'
             /\ (remaining g' <= Nat.pred (remaining g))%nat.
Proof.
  intros Hg. pose proof (lookup_lt_Some _ _ _ Hg) as Hi.
  unfold remaining.
  step_cases env st i g Hg;
    try (rewrite list_lookup_insert_eq by exact Hi; eexists; split; [reflexivity|];
         cbn; lia).
  exists g. split; [exact Hg|]. rewrite Hpc. cbn. lia.
Qed.

Lemma step_other_remaining env st i j g :
  goroutines st !! j = Some g ->
  exists g', goroutines (step env st i) !! j = Some g'
             /\ (remaining g' <= remaining g)%nat.
Proof.
  intros Hg. destruct (decide (i = j)) as [-> | Hne].
  - destruct (step_progress env st j g Hg) as (g' & Hg' & Hle).
    exists g'. split; [exact Hg' | lia].
  - exists g. rewrite step_other by exact Hne. split; [exact Hg | lia].
Qed.

Lemma run_remaining env sched st j g :
  goroutines st !! j = Some g ->
  exists g', goroutines (run env sched st) !! j = Some g'
             /\ (remaining g' <= remaining g)%nat.
Proof.
  revert st g. induction sched as [|i sched IH]; intros st g Hg.
  - exists g. split; [exact Hg | lia].
  - rewrite run_cons.
    destruct (step_other_remaining env st i j g Hg) as (g1 & Hg1 & Hle1).
    destruct (IH _ _ Hg1) as (g2 & Hg2 & Hle2).
    exists g2. split; [exact Hg2 | lia].
Qed.

(** Four steps take a goroutine to its return. *)
Lemma four_steps_return env st i g :
  goroutines st !! i = Some g ->
  exists g', goroutines (run env (four_steps i) st) !! i = Some g'
             /\ remaining g' = 0%nat.
Proof.
  intros Hg. unfold four_steps. rewrite !run_cons. cbn [run fold_left].
  destruct (step_progress env _ i g Hg) as (g1 & Hg1 & H1).
  destruct (step_progress env _ i g1 Hg1) as (g2 & Hg2 & H2).
  destruct (step_progress env _ i g2 Hg2) as (g3 & Hg3 & H3).
  destruct (step_progress env _ i g3 Hg3) as (g4 & Hg4 & H4).
  exists g4. split; [exact Hg4|].
  assert (remaining g <= 4)%nat by (unfold remaining; destruct (at_pc g); lia).
  lia.
Qed.

Lemma finish_all_cons i l :
  flat_map four_steps (i :: l) = (four_steps i ++ flat_map four_steps l)%list.
Proof. reflexivity. Qed.

(** After [finish_all], every goroutine has returned. *)
Lemma finish_all_returned env (l : list nat) st j g :
  goroutines st !! j = Some g -> j ∈ l ->
  exists g', goroutines (run env (flat_map four_steps l) st) !! j = Some g'
             /\ remaining g' = 0%nat.
Proof.
  revert st g. induction l as [|i l IH]; intros st g Hg Hin.
  - apply elem_of_nil in Hin. contradiction.
  - rewrite finish_all_cons, run_app.
    destruct (decide (j = i)) as [-> | Hne].
    + destruct (four_steps_return env st i g Hg) as (g1 & Hg1 & H1).
      destruct (run_remaining env (flat_map four_steps l) _ i g1 Hg1) as (g2 & Hg2 & H2).
      exists g2. split; [exact Hg2 | lia].
    + destruct (run_remaining env (four_steps i) st j g Hg) as (g1 & Hg1 & _).
      apply elem_of_cons in Hin as [? | Hin]; [contradiction|].
      exact (IH _ _ Hg1 Hin).
Qed.

Lemma spawn_all_returned env sched vps j :
  (j < length vps)%nat ->
  exists g, goroutines (snd (spawnVersions env sched vps)) !! j = Some g
            /\ remaining g = 0%nat.
Proof.
  intros Hj. unfold spawnVersions. cbn [snd]. rewrite run_app.
  set (st := run env sched (spawn_init vps)).
  assert (Hlen : length (goroutines st) = length vps).
  { unfold st. rewrite run_length. cbn [spawn_init goroutines]. apply length_map. }
  destruct (lookup_lt_is_Some_2 (goroutines st) j) as [g Hg]; [lia|].
  apply (finish_all_returned env (seq 0 (length vps)) st j g Hg).
  apply elem_of_seq. lia.
Qed.

(** *** The invariant of each goroutine *)

Lemma goroutine_inv_ext env vps st st' i g :
  verPaths st !! i = verPaths st' !! i ->
  goroutine_inv env vps st i g -> goroutine_inv env vps st' i g.
Proof.
  intros Heq [H0 H]. split; [exact H0|].
  destruct (at_pc g) as [| | | |[e|]]; try exact H.
  rewrite <- Heq. exact H.
Qed.

Lemma local_inv_init env vps : local_inv env vps (spawn_init vps).
Proof.
  unfold local_inv, spawn_init. cbn [goroutines verPaths started].
  repeat split.
  - apply length_map.
  - change (map ?f vps) with (f <$> vps) in H.
    rewrite list_lookup_fmap in H.
    destruct (vps !! i) as [vp0|] eqn:Hvp; [|discriminate].
    injection H as <-. exists vp0. cbn. auto.
  - change (map ?f vps) with (f <$> vps) in H.
    rewrite list_lookup_fmap in H.
    destruct (vps !! i) as [vp0|]; [|discriminate].
    injection H as <-. exact I.
  - intros cmd Hin. apply elem_of_nil in Hin. contradiction.
Qed.

Lemma local_inv_step env vps st i :
  local_inv env vps st -> local_inv env vps (step env st i).
Proof.
  intros (Hlg & Hlv & Hg & Hs).
  destruct (goroutines st !! i) as [g|] eqn:Hgi.
  2: { unfold step. rewrite Hgi. exact (conj Hlg (conj Hlv (conj Hg Hs))). }
  pose proof (lookup_lt_Some _ _ _ Hgi) as Hi.
  destruct (Hg i g Hgi) as [Hvp Hpos].
  (* every case but the last replaces goroutine [i] *)
  assert (Hupd : forall st' g',
            goroutines st' = <[i := g']> (goroutines st) ->
            (forall j, j <> i -> verPaths st' !! j = verPaths st !! j) ->
            length (verPaths st') = length (verPaths st) ->
            goroutine_inv env vps st' i g' ->
            (forall cmd, cmd ∈ started st' ->
               exists p : Z, snd cmd = ["-port"; Sprintf_addr p]) ->
            local_inv env vps st').
  { intros st' g' Hgs Hvs Hlen Hinv Hst. unfold local_inv.
    rewrite Hgs, length_insert, Hlen.
    split; [assumption | split; [assumption | split; [|assumption]]].
    intros j gj Hj. destruct (decide (j = i)) as [-> | Hne].
    - rewrite list_lookup_insert_eq in Hj by exact Hi. injection Hj as <-. exact Hinv.
    - rewrite list_lookup_insert_ne in Hj by congruence.
      apply (goroutine_inv_ext env vps st); [symmetry; now apply Hvs | now apply Hg]. }
  unfold goroutine_inv in Hpos. 
  step_cases env st i g Hgi.
  - (* WriteFile fails *)
    eapply Hupd; cbn [goroutines verPaths started]; try reflexivity; try assumption.
    split; [exact Hvp | eexists; left; reflexivity].
  - (* WriteFile succeeds *)
    eapply Hupd; cbn [goroutines verPaths started]; try reflexivity; try assumption.
    split; [exact Hvp | exact Hcall].
  - (* ports.Add *)
    eapply Hupd; cbn [goroutines verPaths started]; try reflexivity; try assumption.
    split; [exact Hvp|]. cbn [at_pc]. split; [exact Hpos|].
    eexists. reflexivity.
  - (* Start fails *)
    eapply Hupd; cbn [goroutines verPaths started]; try reflexivity; try assumption.
    split; [exact Hvp | eexists; right; reflexivity].
  - (* Start succeeds *)
    destruct Hpos as [Hw Ha].
    eapply Hupd; cbn [goroutines verPaths started]; try reflexivity; try assumption.
    + split; [exact Hvp|]. cbn [at_pc]. split; [split; assumption | exact Ha].
    + intros cmd Hin. apply elem_of_app in Hin as [Hin | Hin]; [now apply Hs|].
      apply list_elem_of_singleton in Hin. subst cmd. destruct Ha as [p Hp].
      exists p. cbn [snd]. now rewrite Hp.
  - (* verPaths[i] = vp *)
    destruct Hpos as [Hok Ha].
    eapply Hupd; cbn [goroutines verPaths started]; try reflexivity; try assumption.
    + intros j Hne. apply list_lookup_insert_ne. congruence.
    + apply length_insert.
    + split; [exact Hvp|]. cbn [at_pc]. repeat split; try apply Hok; try exact Ha.
      cbn [verPaths vp]. apply list_lookup_insert_eq. lia.
  - (* returned *)
    exact (conj Hlg (conj Hlv (conj Hg Hs))).
Qed.

Lemma local_inv_run env vps sched st :
  local_inv env vps st -> local_inv env vps (run env sched st).
Proof.
  revert st. induction sched as [|i sched IH]; intros st H; [exact H|].
  rewrite run_cons. apply IH. now apply local_inv_step.
Qed.

Lemma local_inv_spawn env sched vps :
  local_inv env vps (snd (spawnVersions env sched vps)).
Proof. apply local_inv_run, local_inv_init. Qed.

(** *** The invariant of the port counter *)

Lemma wrap32_small (z : Z) : - 2 ^ 31 <= z < 2 ^ 31 -> wrap32 z = z.
Proof. intros H. unfold wrap32. rewrite Z.mod_small; lia. Qed.

(** Distinct goroutine indices below [n]: at most [n] of them. *)
Lemma NoDup_bounded_length (l : list nat) (n : nat) :
  NoDup l -> (forall x, x ∈ l -> (x < n)%nat) -> (length l <= n)%nat.
Proof.
  intros Hnd Hlt.
  assert (H : l ⊆+ seq 0 n).
  { apply NoDup_submseteq; [exact Hnd|].
    intros x Hx. apply elem_of_seq. specialize (Hlt x Hx). lia. }
  apply submseteq_length in H. now rewrite length_seq in H.
Qed.

Lemma alloc_inv_init vps : alloc_inv vps (spawn_init vps).
Proof.
  unfold alloc_inv, spawn_init. cbn [goroutines ports allocated].
  split; [apply length_map|]. split; [reflexivity|].
  split; [intros k i p H; discriminate|]. split; [constructor|].
  intros i g H. change (map ?f vps) with (f <$> vps) in H.
  rewrite list_lookup_fmap in H. destruct (vps !! i); [|discriminate].
  injection H as <-. cbn. apply not_elem_of_nil.
Qed.

Lemma alloc_inv_step env vps st i :
  8080 + Z.of_nat (length vps) < 2 ^ 31 ->
  alloc_inv vps st -> alloc_inv vps (step env st i).
Proof.
  intros Hbound (Hlg & Hports & Hlog & Hnd & Hg).
  destruct (goroutines st !! i) as [g|] eqn:Hgi.
  2: { unfold step. rewrite Hgi. exact (conj Hlg (conj Hports (conj Hlog (conj Hnd Hg)))). }
  pose proof (lookup_lt_Some _ _ _ Hgi) as Hi.
  pose proof (Hg i g Hgi) as Hpos.
  (* the steps that leave the counter alone *)
  assert (Hupd : forall st' g',
            goroutines st' = <[i := g']> (goroutines st) ->
            ports st' = ports st -> allocated st' = allocated st ->
            match at_pc g' with
            | AtWriteFile | AtAdd => i ∉ (allocated st).*1
            | AtStart | AtStore | Returned None =>
                exists p, (i, p) ∈ allocated st /\ addr (vp g') = Sprintf_addr p
            | Returned (Some _) => True
            end ->
            alloc_inv vps st').
  { intros st' g' Hgs Hp Ha Hnew. unfold alloc_inv.
    rewrite Hgs, Hp, Ha, length_insert.
    split; [assumption | split; [assumption | split; [assumption | split; [assumption|]]]].
    intros j gj Hj. destruct (decide (j = i)) as [-> | Hne].
    - rewrite list_lookup_insert_eq in Hj by exact Hi. injection Hj as <-. exact Hnew.
    - rewrite list_lookup_insert_ne in Hj by congruence. now apply Hg. }
  step_cases env st i g Hgi.
  - eapply Hupd; cbn [goroutines ports allocated at_pc vp];
      first [reflexivity | exact I].
  - eapply Hupd; cbn [goroutines ports allocated at_pc vp];
      first [reflexivity | exact Hpos].
  - (* ports.Add(1) - 1 *)
    assert (Hlt : forall x, x ∈ (allocated st).*1 -> (x < length vps)%nat).
    { intros x Hx. apply list_elem_of_fmap in Hx as ([j p] & -> & Hin).
      apply list_elem_of_lookup in Hin as [k Hk]. now apply Hlog in Hk. }
    assert (Hnd' : NoDup ((allocated st).*1 ++ [i])).
    { apply NoDup_app. split; [exact Hnd|]. split; [|apply NoDup_singleton].
      intros x Hx Hxi. apply list_elem_of_singleton in Hxi. subst x. contradiction. }
    assert (Hlen : (length (allocated st) < length vps)%nat).
    { assert (H : (length ((allocated st).*1 ++ [i]) <= length vps)%nat).
      { apply NoDup_bounded_length; [exact Hnd'|].
        intros x Hx. apply elem_of_app in Hx as [Hx | Hx]; [now apply Hlt|].
        apply list_elem_of_singleton in Hx. subst x. lia. }
      rewrite length_app, length_fmap in H. cbn [length] in H. lia. }
    assert (Hnew : wrap32 (ports st + 1) = 8080 + Z.of_nat (length (allocated st)) + 1).
    { rewrite Hports. apply wrap32_small. lia. }
    assert (Hport : wrap32 (wrap32 (ports st + 1) - 1) = 8080 + Z.of_nat (length (allocated st))).
    { rewrite Hnew, wrap32_small by lia. lia. }
    rewrite Hport. unfold alloc_inv. cbn [goroutines ports allocated].
    rewrite length_insert, length_app, fmap_app. cbn [length fmap list_fmap fst].
    split; [assumption|]. split; [rewrite Hnew; lia|]. split; [|split; [exact Hnd'|]].
    + intros k j p Hk. apply lookup_snoc_Some in Hk as [[_ Hk] | [-> Heq]].
      * now apply Hlog in Hk.
      * injection Heq as <- <-. split; [reflexivity | lia].
    + intros j gj Hj. destruct (decide (j = i)) as [-> | Hne].
      * rewrite list_lookup_insert_eq in Hj by exact Hi. injection Hj as <-.
        cbn [at_pc vp addr]. eexists. split; [|reflexivity].
        apply elem_of_app. right. apply list_elem_of_singleton. reflexivity.
      * rewrite list_lookup_insert_ne in Hj by congruence.
        specialize (Hg j gj Hj).
        destruct (at_pc gj) as [| | | |[e|]]; try exact I.
        -- intros Hin. apply elem_of_app in Hin as [Hin | Hin]; [contradiction|].
           apply list_elem_of_singleton in Hin. contradiction.
        -- intros Hin. apply elem_of_app in Hin as [Hin | Hin]; [contradiction|].
           apply list_elem_of_singleton in Hin. contradiction.
        -- destruct Hg as (p & Hin & Ha). exists p. split; [|exact Ha].
           apply elem_of_app. now left.
        -- destruct Hg as (p & Hin & Ha). exists p. split; [|exact Ha].
           apply elem_of_app. now left.
        -- destruct Hg as (p & Hin & Ha). exists p. split; [|exact Ha].
           apply elem_of_app. now left.
  - eapply Hupd; cbn [goroutines ports allocated at_pc vp];
      first [reflexivity | exact I].
  - eapply Hupd; cbn [goroutines ports allocated at_pc vp];
      first [reflexivity | exact Hpos].
  - eapply Hupd; cbn [goroutines ports allocated at_pc vp];
      first [reflexivity | exact Hpos].
  - exact (conj Hlg (conj Hports (conj Hlog (conj Hnd Hg)))).
Qed.

Lemma alloc_inv_run env vps sched st :
  8080 + Z.of_nat (length vps) < 2 ^ 31 ->
  alloc_inv vps st -> alloc_inv vps (run env sched st).
Proof.
  intros Hb. revert st. induction sched as [|i sched IH]; intros st H; [exact H|].
  rewrite run_cons. apply IH. now apply alloc_inv_step.
Qed.

Lemma alloc_inv_spawn env sched vps :
  8080 + Z.of_nat (length vps) < 2 ^ 31 ->
  alloc_inv vps (snd (spawnVersions env sched vps)).
Proof. intros Hb. apply alloc_inv_run; [exact Hb | apply alloc_inv_init]. Qed.

(** *** The map built by [New] *)

Lemma build_snoc l x :
  build (l ++ [x]) = {| versions := <[version x := addr x]> (versions (build l)) |}.
Proof. unfold build. rewrite fold_left_app. reflexivity. Qed.

Lemma build_dom l : dom (versions (build l)) = list_to_set (version <$> l).
Proof.
  induction l as [|x l IH] using rev_ind.
  - cbn. apply dom_empty_L.
  - rewrite build_snoc. cbn [versions]. rewrite dom_insert_L, IH, fmap_app, list_to_set_app_L.
    cbn [fmap list_fmap list_to_set]. rewrite (right_id_L ∅ (∪)). apply (comm_L (∪)).
Qed.

Lemma build_lookup_inv l v a :
  versions (build l) !! v = Some a -> exists x, x ∈ l /\ version x = v /\ addr x = a.
Proof.
  induction l as [|x l IH] using rev_ind.
  - cbn. rewrite lookup_empty. discriminate.
  - rewrite build_snoc. cbn [versions]. intros H.
    destruct (decide (version x = v)) as [<- | Hne].
    + rewrite lookup_insert_eq in H. injection H as <-.
      exists x. split; [|auto]. apply elem_of_app. right. now apply list_elem_of_singleton.
    + rewrite lookup_insert_ne in H by exact Hne.
      destruct (IH H) as (y & Hy & Hv & Ha). exists y. split; [|auto].
      apply elem_of_app. now left.
Qed.

Lemma build_lookup l x :
  NoDup (version <$> l) -> x ∈ l -> versions (build l) !! version x = Some (addr x).
Proof.
  induction l as [|y l IH] using rev_ind; intros Hnd Hin.
  - apply elem_of_nil in Hin. contradiction.
  - rewrite build_snoc. cbn [versions].
    rewrite fmap_app in Hnd. apply NoDup_app in Hnd as (Hnd & Hfresh & _).
    apply elem_of_app in Hin as [Hin | Hin].
    + rewrite lookup_insert_ne; [now apply IH|].
      intros Heq. apply (Hfresh (version x)).
      * apply list_elem_of_fmap. eauto.
      * rewrite <- Heq. cbn. apply list_elem_of_singleton. reflexivity.
    + apply list_elem_of_singleton in Hin. subst y. apply lookup_insert_eq.
Qed.

Lemma build_size l :
  NoDup (version <$> l) -> size (versions (build l)) = length l.
Proof.
  induction l as [|y l IH] using rev_ind; intros Hnd.
  - reflexivity.
  - rewrite build_snoc. cbn [versions].
    rewrite fmap_app in Hnd. apply NoDup_app in Hnd as (Hnd & Hfresh & _).
    rewrite map_size_insert_None.
    + rewrite IH by exact Hnd. rewrite length_app. cbn. lia.
    + apply not_elem_of_dom. rewrite build_dom. intros Hin.
      apply elem_of_list_to_set in Hin. apply (Hfresh _ Hin).
      cbn. apply list_elem_of_singleton. reflexivity.
Qed.

(** *** Discovery *)

Lemma extract_loop_versions binariesFS entries acc vps :
  extract_loop binariesFS entries acc = Ok vps ->
  version <$> vps = ((version <$> acc) ++ directories entries)%list.
Proof.
  revert acc. induction entries as [|fn rest IH]; intros acc H.
  - cbn in H. injection H as <-. cbn. now rewrite app_nil_r.
  - cbn [extract_loop directories] in *. destruct (IsDir fn); cbn [negb] in H.
    + unfold validate in H.
      destruct (ReadFile binariesFS _) as [cause|content]; [discriminate|].
      apply IH in H. rewrite H, fmap_app. cbn. now rewrite <- app_assoc.
    + now apply IH.
Qed.

Lemma extractBinaries_versions binariesFS rdfs entries vps :
  ReadDir rdfs "." = inr entries ->
  extractBinaries binariesFS rdfs = Ok vps ->
  version <$> vps = directories entries.
Proof.
  intros Hdir H. unfold extractBinaries in H. rewrite Hdir in H.
  now apply extract_loop_versions in H.
Qed.

(** *** The end of [spawnVersions] *)

Lemma Wait_None gs :
  Wait gs = None -> forall g e, g ∈ gs -> at_pc g <> Returned (Some e).
Proof.
  induction gs as [|g0 gs IH]; intros H g e Hin.
  - apply elem_of_nil in Hin. contradiction.
  - cbn [Wait] in H. apply elem_of_cons in Hin as [-> | Hin].
    + intros Heq. rewrite Heq in H. discriminate.
    + apply IH; [|exact Hin]. destruct (at_pc g0) as [| | | |[e0|]]; (discriminate || exact H).
Qed.

Lemma Wait_Some gs g e :
  g ∈ gs -> at_pc g = Returned (Some e) ->
  exists g' e', Wait gs = Some e' /\ g' ∈ gs /\ at_pc g' = Returned (Some e').
Proof.
  induction gs as [|g0 gs IH]; intros Hin Hpc.
  - apply elem_of_nil in Hin. contradiction.
  - cbn [Wait]. destruct (at_pc g0) as [| | | |[e0|]] eqn:H0;
      try (apply elem_of_cons in Hin as [-> | Hin]; [congruence|];
           destruct (IH Hin Hpc) as (g' & e' & Hw & Hg' & Hpc');
           exists g', e'; split; [exact Hw | split; [now apply elem_of_cons; right | exact Hpc']]).
    exists g0, e0. split; [reflexivity | split; [apply elem_of_cons; now left | exact H0]].
Qed.

Lemma remaining_0 g : remaining g = 0%nat -> exists r, at_pc g = Returned r.
Proof. unfold remaining. destruct (at_pc g); try discriminate. eauto. Qed.

Lemma fp_of_entry env g x :
  version (vp g) = version x -> fp_of env g = entry_path env x.
Proof. intros H. unfold fp_of, entry_path. now rewrite H. Qed.

(** When [spawnVersions] returns nil, every goroutine stored its entry. *)
Lemma spawn_success env sched vps st i x :
  spawnVersions env sched vps = (None, st) -> vps !! i = Some x ->
  exists g, goroutines st !! i = Some g /\ at_pc g = Returned None
            /\ verPaths st !! i = Some (vp g)
            /\ version (vp g) = version x /\ bin (vp g) = bin x
            /\ has_addr g /\ launched_ok env g.
Proof.
  intros Hsp Hx.
  pose proof (lookup_lt_Some _ _ _ Hx) as Hi.
  destruct (spawn_all_returned env sched vps i Hi) as (g & Hg & Hrem).
  pose proof (local_inv_spawn env sched vps) as (_ & _ & Hinv & _).
  assert (Hst : snd (spawnVersions env sched vps) = st) by now rewrite Hsp.
  assert (Hw : Wait (goroutines st) = None).
  { rewrite <- Hst. unfold spawnVersions in *. cbn [snd]. now injection Hsp as -> _. }
  rewrite Hst in *.
  apply remaining_0 in Hrem as [r Hr].
  destruct r as [e|].
  { exfalso. apply (Wait_None _ Hw g e); [|exact Hr].
    apply list_elem_of_lookup. eauto. }
  destruct (Hinv i g Hg) as [(x' & Hx' & Hv & Hb) Hpos].
  rewrite Hr in Hpos. destruct Hpos as (Hok & Ha & Hstore).
  rewrite Hx in Hx'. injection Hx' as <-.
  exists g. repeat split; try assumption; apply Hok.
Qed.

Lemma spawn_success_versions env sched vps st :
  spawnVersions env sched vps = (None, st) ->
  version <$> verPaths st = version <$> vps.
Proof.
  intros Hsp. apply list_eq. intros i. rewrite !list_lookup_fmap.
  pose proof (local_inv_spawn env sched vps) as (_ & Hlen & _ & _).
  rewrite Hsp in Hlen. cbn [snd] in Hlen.
  destruct (vps !! i) as [x|] eqn:Hx.
  - destruct (spawn_success env sched vps st i x Hsp Hx) as (g & _ & _ & Hst & Hv & _).
    rewrite Hst. cbn. now rewrite Hv.
  - apply lookup_ge_None in Hx.
    rewrite (proj2 (lookup_ge_None (verPaths st) i)) by lia. reflexivity.
Qed.

Lemma spawn_success_elem env sched vps st y :
  spawnVersions env sched vps = (None, st) -> y ∈ verPaths st ->
  exists i x g, vps !! i = Some x /\ goroutines st !! i = Some g /\ y = vp g
                /\ at_pc g = Returned None
                /\ version y = version x /\ has_addr g.
Proof.
  intros Hsp Hy. apply list_elem_of_lookup in Hy as [i Hy].
  pose proof (local_inv_spawn env sched vps) as (_ & Hlen & _ & _).
  rewrite Hsp in Hlen. cbn [snd] in Hlen.
  pose proof (lookup_lt_Some _ _ _ Hy) as Hi. rewrite Hlen in Hi.
  destruct (lookup_lt_is_Some_2 vps i Hi) as [x Hx].
  destruct (spawn_success env sched vps st i x Hsp Hx) as (g & Hg & Hr & Hst & Hv & _ & Ha & _).
  rewrite Hst in Hy. injection Hy as <-.
  exists i, x, g. auto 10.
Qed.

Lemma Sprintf_addr_inj p q : Sprintf_addr p = Sprintf_addr q -> p = q.
Proof.
  unfold Sprintf_addr. intros H. apply String.app_inj in H. now apply pretty_Z_inj in H.
Qed.

Lemma Sprintf_addr_not_empty p : Sprintf_addr p <> "".
Proof. unfold Sprintf_addr. discriminate. Qed.

(** *** Launches that all succeed *)

Lemma goroutine_entry env vps st i g :
  local_inv env vps st -> goroutines st !! i = Some g ->
  exists x, vps !! i = Some x /\ version (vp g) = version x /\ bin (vp g) = bin x
            /\ fp_of env g = entry_path env x.
Proof.
  intros (_ & _ & Hinv & _) Hg.
  destruct (Hinv i g Hg) as [(x & Hx & Hv & Hb) _].
  exists x. repeat split; try assumption. now apply fp_of_entry.
Qed.

Lemma no_failure_step env vps st i :
  local_inv env vps st ->
  (forall x, x ∈ vps -> launch_succeeds env x) ->
  no_failure st -> no_failure (step env st i).
Proof.
  intros Hloc Hok Hnf.
  destruct (goroutines st !! i) as [g|] eqn:Hgi.
  2: { unfold step. now rewrite Hgi. }
  pose proof (lookup_lt_Some _ _ _ Hgi) as Hi.
  destruct (goroutine_entry env vps st i g Hloc Hgi) as (x & Hx & Hv & Hb & Hfp).
  assert (Hin : x ∈ vps) by (apply list_elem_of_lookup; eauto).
  destruct (Hok x Hin) as [Hw Hs].
  assert (Hupd : forall st' g',
            goroutines st' = <[i := g']> (goroutines st) ->
            (forall e, at_pc g' <> Returned (Some e)) -> no_failure st').
  { intros st' g' Hgs Hnew j gj e Hj. rewrite Hgs in Hj.
    destruct (decide (j = i)) as [-> | Hne].
    - rewrite list_lookup_insert_eq in Hj by exact Hi. injection Hj as <-. apply Hnew.
    - rewrite list_lookup_insert_ne in Hj by congruence. now apply (Hnf j). }
  step_cases env st i g Hgi.
  - rewrite Hfp, Hb, Hw in Hcall. discriminate.
  - eapply Hupd; [reflexivity | discriminate].
  - eapply Hupd; [reflexivity | discriminate].
  - rewrite Hfp, Hs in Hcall. discriminate.
  - eapply Hupd; [reflexivity | discriminate].
  - eapply Hupd; [reflexivity | discriminate].
  - exact Hnf.
Qed.

Lemma no_failure_run env vps sched st :
  (forall x, x ∈ vps -> launch_succeeds env x) ->
  local_inv env vps st -> no_failure st -> no_failure (run env sched st).
Proof.
  intros Hok. revert st. induction sched as [|i sched IH]; intros st Hloc Hnf; [exact Hnf|].
  rewrite run_cons. apply IH; [now apply local_inv_step | now apply (no_failure_step env vps)].
Qed.

Lemma no_failure_init vps : no_failure (spawn_init vps).
Proof.
  intros i g e H. cbn [spawn_init goroutines] in H.
  change (map ?f vps) with (f <$> vps) in H. rewrite list_lookup_fmap in H.
  destruct (vps !! i); [|discriminate]. injection H as <-. discriminate.
Qed.

Lemma Wait_no_failure gs :
  (forall g e, g ∈ gs -> at_pc g <> Returned (Some e)) -> Wait gs = None.
Proof.
  induction gs as [|g0 gs IH]; intros H; [reflexivity|].
  cbn [Wait]. destruct (at_pc g0) as [| | | |[e|]] eqn:H0;
    try (apply IH; intros g e' Hg; apply H; now apply elem_of_cons; right).
  exfalso. apply (H g0 e); [apply elem_of_cons; now left | exact H0].
Qed.

Lemma spawn_all_succeed env sched vps :
  (forall x, x ∈ vps -> launch_succeeds env x) ->
  exists st, spawnVersions env sched vps = (None, st).
Proof.
  intros Hok. unfold spawnVersions. eexists. f_equal.
  apply Wait_no_failure. intros g e Hg. apply list_elem_of_lookup in Hg as [i Hg].
  revert Hg. apply (no_failure_run env vps); [exact Hok | apply local_inv_init | apply no_failure_init].
Qed.

(** The port behind the address of a stored entry. *)
Lemma spawn_success_port env sched vps st y :
  8080 + Z.of_nat (length vps) < 2 ^ 31 ->
  spawnVersions env sched vps = (None, st) -> y ∈ verPaths st ->
  exists i k, verPaths st !! i = Some y
              /\ allocated st !! k = Some (i, 8080 + Z.of_nat k)
              /\ addr y = Sprintf_addr (8080 + Z.of_nat k)
              /\ (k < length vps)%nat.
Proof.
  intros Hb Hsp Hy.
  destruct (spawn_success_elem env sched vps st y Hsp Hy) as (i & x & g & Hx & Hg & -> & Hr & _).
  destruct (spawn_success env sched vps st i x Hsp Hx) as (g' & Hg' & _ & Hst & _).
  rewrite Hg in Hg'. injection Hg' as <-.
  pose proof (alloc_inv_spawn env sched vps Hb) as (_ & _ & Hlog & Hnd & Hpos).
  rewrite Hsp in Hlog, Hnd, Hpos. cbn [snd] in Hlog, Hnd, Hpos.
  specialize (Hpos i g Hg). rewrite Hr in Hpos. destruct Hpos as (p & Hin & Ha).
  apply list_elem_of_lookup in Hin as [k Hk].
  destruct (Hlog k i p Hk) as [-> _].
  exists i, k. repeat split; try assumption.
  assert (Hlen : (length (allocated st) <= length vps)%nat).
  { rewrite <- (length_fmap fst). apply NoDup_bounded_length; [exact Hnd|].
    intros j Hj. apply list_elem_of_fmap in Hj as ([j' q] & -> & Hj).
    apply list_elem_of_lookup in Hj as [k' Hk']. now apply Hlog in Hk'. }
  apply lookup_lt_Some in Hk. lia.
Qed.

(** Every call of the port allocator returns another value, whatever the
    schedule. *)
Lemma allocated_ports_distinct env sched vps :
  8080 + Z.of_nat (length vps) < 2 ^ 31 ->
  NoDup (allocated (snd (spawnVersions env sched vps))).*2.
Proof.
  intros Hb. destruct (alloc_inv_spawn env sched vps Hb) as (_ & _ & Hlog & _).
  apply NoDup_alt. intros k1 k2 p H1 H2.
  rewrite list_lookup_fmap in H1, H2.
  destruct (allocated _ !! k1) as [[i1 p1]|] eqn:E1; [|discriminate].
  destruct (allocated _ !! k2) as [[i2 p2]|] eqn:E2; [|discriminate].
  cbn in H1, H2. injection H1 as ->. injection H2 as ->.
  apply Hlog in E1 as [E1 _]. apply Hlog in E2 as [E2 _]. lia.
Qed.

(** C5. Launch completeness and distinctness: when the bundle holds N
    entries with N distinct versions and every launch succeeds, [New]
    returns, under every schedule of the goroutines, a mapping with exactly
    N entries, one per discovered version; the address of each entry is
    [http://localhost:<port>] for a port among the N consecutive ports
    from 8080, and no two entries share a port, the calls of the port
    allocator having returned pairwise distinct values.  (N is such that
    the 32-bit counter does not wrap.) *)
Theorem launch_complete_distinct env binariesFS rdfs sched vps :
  extractBinaries binariesFS rdfs = Ok vps ->
  NoDup (version <$> vps) ->
  8080 + Z.of_nat (length vps) < 2 ^ 31 ->
  (forall x, x ∈ vps -> launch_succeeds env x) ->
  exists m,
    New env binariesFS rdfs sched = (m, None)
    /\ size (versions m) = length vps
    /\ dom (versions m) = list_to_set (version <$> vps)
    /\ (forall v a, versions m !! v = Some a ->
          exists p, a = Sprintf_addr p /\ 8080 <= p < 8080 + Z.of_nat (length vps))
    /\ (forall v1 v2 p,
          versions m !! v1 = Some (Sprintf_addr p) ->
          versions m !! v2 = Some (Sprintf_addr p) -> v1 = v2)
    /\ NoDup (allocated (snd (spawnVersions env sched vps))).*2.
Proof.
  intros Hex Hnd Hb Hok.
  destruct (spawn_all_succeed env sched vps Hok) as [st Hsp].
  exists (build (verPaths st)).
  pose proof (spawn_success_versions env sched vps st Hsp) as Hvs.
  split; [|split; [|split; [|split; [|split; [|now apply allocated_ports_distinct]]]]].
  - unfold New. rewrite Hex. unfold Ok. now rewrite Hsp.
  - rewrite build_size by now rewrite Hvs.
    rewrite <- (length_fmap version), Hvs. apply length_fmap.
  - now rewrite build_dom, Hvs.
  - intros v a Hva. apply build_lookup_inv in Hva as (y & Hy & _ & <-).
    destruct (spawn_success_port env sched vps st y Hb Hsp Hy) as (i & k & _ & _ & Ha & Hk).
    eexists. split; [exact Ha | lia].
  - intros v1 v2 p H1 H2.
    apply build_lookup_inv in H1 as (y1 & Hy1 & <- & Ha1).
    apply build_lookup_inv in H2 as (y2 & Hy2 & <- & Ha2).
    destruct (spawn_success_port env sched vps st y1 Hb Hsp Hy1) as (i1 & k1 & Hi1 & Hk1 & Hp1 & _).
    destruct (spawn_success_port env sched vps st y2 Hb Hsp Hy2) as (i2 & k2 & Hi2 & Hk2 & Hp2 & _).
    rewrite Ha1 in Hp1. rewrite Ha2 in Hp2.
    apply Sprintf_addr_inj in Hp1, Hp2.
    assert (k1 = k2) by lia. subst k2.
    rewrite Hk1 in Hk2. injection Hk2 as <-.
    rewrite Hi1 in Hi2. now injection Hi2 as <-.
Qed.

Lemma launch_complete_distinct_witness :
  exists m,
    New env_ok bundle bundle [1; 1; 0]%nat = (m, None)
    /\ size (versions m) = length bundle_entries
    /\ dom (versions m) = list_to_set (version <$> bundle_entries)
    /\ (forall v a, versions m !! v = Some a ->
          exists p, a = Sprintf_addr p /\ 8080 <= p < 8080 + Z.of_nat (length bundle_entries))
    /\ (forall v1 v2 p,
          versions m !! v1 = Some (Sprintf_addr p) ->
          versions m !! v2 = Some (Sprintf_addr p) -> v1 = v2)
    /\ NoDup (allocated (snd (spawnVersions env_ok [1; 1; 0]%nat bundle_entries))).*2.
Proof.
  apply (launch_complete_distinct env_ok bundle bundle [1; 1; 0]%nat bundle_entries).
  - reflexivity.
  - apply NoDup_cons. split; [|apply NoDup_singleton].
    intros H. apply list_elem_of_singleton in H. discriminate.
  - reflexivity.
  - intros x _. split; reflexivity.
Defined.

(** *** A launch that fails *)

(** C6. Launch atomicity: when the launch of one entry fails (its payload
    cannot be written, or the written file cannot be started), [New]
    returns, under every schedule, an error together with the mapping
    without entries; the error is the write or start error of one of the
    entries. *)
Theorem launch_failure_publishes_nothing env binariesFS rdfs sched vps i x :
  extractBinaries binariesFS rdfs = Ok vps ->
  vps !! i = Some x ->
  launch_fails env x ->
  exists err,
    New env binariesFS rdfs sched = (empty_Mapping, Some err)
    /\ size (versions (fst (New env binariesFS rdfs sched))) = 0%nat
    /\ (forall v, Base (fst (New env binariesFS rdfs sched)) v = "")
    /\ exists v cause, v ∈ version <$> vps
                       /\ (err = ErrWriteFile v cause \/ err = ErrStart v cause).
Proof.
  intros Hex Hx Hfail.
  pose proof (lookup_lt_Some _ _ _ Hx) as Hi.
  destruct (spawn_all_returned env sched vps i Hi) as (g & Hg & Hrem).
  pose proof (local_inv_spawn env sched vps) as Hloc.
  destruct (spawnVersions env sched vps) as [r st] eqn:Hsp. cbn [snd] in *.
  assert (Hw : r = Wait (goroutines st)).
  { unfold spawnVersions in Hsp. now injection Hsp as <- <-. }
  apply remaining_0 in Hrem as [res Hres].
  destruct (goroutine_entry env vps st i g Hloc Hg) as (x' & Hx' & Hv & Hb & Hfp).
  rewrite Hx in Hx'. injection Hx' as <-.
  destruct Hloc as (_ & _ & Hinv & _).
  destruct res as [e|].
  2: { exfalso. destruct (Hinv i g Hg) as [_ Hpos]. rewrite Hres in Hpos.
       destruct Hpos as [[Hwr Hst] _]. rewrite Hfp, Hb in Hwr. rewrite Hfp in Hst.
       destruct Hfail as [Hf | Hf]; [contradiction | exact (Hf _ Hst)]. }
  assert (Hgin : g ∈ goroutines st) by (apply list_elem_of_lookup; eauto).
  destruct (Wait_Some _ g e Hgin Hres) as (g' & e' & Hwait & Hg' & Hpc').
  assert (HNew : New env binariesFS rdfs sched = (empty_Mapping, Some e')).
  { unfold New. rewrite Hex. unfold Ok. rewrite Hsp, Hw, Hwait. reflexivity. }
  exists e'. rewrite HNew. cbn [fst].
  split; [reflexivity | split; [reflexivity | split; [reflexivity|]]].
  apply list_elem_of_lookup in Hg' as [j Hj].
  destruct (Hinv j g' Hj) as [(y & Hy & Hvy & _) Hpos]. rewrite Hpc' in Hpos.
  destruct Hpos as [cause Hcause].
  exists (version (vp g')), cause. split; [|exact Hcause].
  rewrite Hvy. apply list_elem_of_fmap. exists y. split; [reflexivity|].
  apply list_elem_of_lookup. eauto.
Qed.

Lemma launch_failure_publishes_nothing_witness :
  exists err,
    New env_write_fails bundle bundle [0; 0; 0; 0]%nat = (empty_Mapping, Some err)
    /\ size (versions (fst (New env_write_fails bundle bundle [0; 0; 0; 0]%nat))) = 0%nat
    /\ (forall v, Base (fst (New env_write_fails bundle bundle [0; 0; 0; 0]%nat)) v = "")
    /\ exists v cause, v ∈ version <$> bundle_entries
                       /\ (err = ErrWriteFile v cause \/ err = ErrStart v cause).
Proof.
  apply (launch_failure_publishes_nothing env_write_fails bundle bundle
           [0; 0; 0; 0]%nat bundle_entries 1
           {| version := "1.1.0"; bin := "payload of 1.1.0"; addr := "" |}).
  - reflexivity.
  - reflexivity.
  - left. discriminate.
Defined.

(** *** The keys of the mapping *)

(** C7. No synthesized latest entry: the keys of the mapping that [New]
    returns are exactly the names of the directories of the bundle, and
    the lookup of [Latest] gives the empty string (not found) unless a
    directory is named latest. *)
Theorem mapping_keys_are_directories env binariesFS rdfs sched m entries :
  ReadDir rdfs "." = inr entries ->
  New env binariesFS rdfs sched = (m, None) ->
  dom (versions m) = list_to_set (directories entries)
  /\ (Base m Latest = "" <-> Latest ∉ directories entries).
Proof.
  intros Hdir HNew. unfold New in HNew.
  destruct (extractBinaries binariesFS rdfs) as [err|vps] eqn:Hex; [discriminate|].
  destruct (spawnVersions env sched vps) as [[err|] st] eqn:Hsp; [discriminate|].
  injection HNew as <-.
  pose proof (spawn_success_versions env sched vps st Hsp) as Hvs.
  pose proof (extractBinaries_versions _ _ _ _ Hdir Hex) as Hdirs.
  assert (Hdom : dom (versions (build (verPaths st))) = list_to_set (directories entries)).
  { now rewrite build_dom, Hvs, Hdirs. }
  split; [exact Hdom|].
  assert (Hmem : forall v, v ∈ directories entries
                           <-> is_Some (versions (build (verPaths st)) !! v)).
  { intros v. rewrite <- elem_of_dom, Hdom, elem_of_list_to_set. reflexivity. }
  unfold Base.
  destruct (versions (build (verPaths st)) !! Latest) as [a|] eqn:Hl; cbn [default].
  - assert (Hin : Latest ∈ directories entries) by (apply (proj2 (Hmem Latest)); exists a; exact Hl).
    apply build_lookup_inv in Hl as (y & Hy & _ & <-).
    destruct (spawn_success_elem env sched vps st y Hsp Hy)
      as (j & x & g & _ & _ & -> & _ & _ & [p Hp]).
    rewrite Hp. split; [intros H; now apply Sprintf_addr_not_empty in H | contradiction].
  - split; [|reflexivity]. intros _ Hin.
    apply (proj1 (Hmem Latest)) in Hin. destruct Hin as [a Ha].
    assert (Hcontra : None = Some a) by (rewrite <- Hl; exact Ha). discriminate.
Qed.

Lemma mapping_keys_are_directories_witness :
  dom (versions (fst (New env_ok bundle bundle [1; 1; 0]%nat)))
    = list_to_set ["1.0.0"; "1.1.0"]
  /\ (Base (fst (New env_ok bundle bundle [1; 1; 0]%nat)) Latest = ""
      <-> Latest ∉ ["1.0.0"; "1.1.0"]).
Proof.
  apply (mapping_keys_are_directories env_ok bundle bundle [1; 1; 0]%nat
           (fst (New env_ok bundle bundle [1; 1; 0]%nat))
           [ {| Name := "1.0.0"; IsDir := true |};
             {| Name := "README.md"; IsDir := false |};
             {| Name := "1.1.0"; IsDir := true |} ]).
  - reflexivity.
  - vm_compute. reflexivity.
Defined.

(** *** The ports *)

(** C10. The sequence of ports: under every schedule, the allocation
    number k (from zero, in the order of the calls of [ports.Add]) gives
    the port 8080 + k, as long as the 32-bit counter does not wrap; the
    first one is 8080, the port of the router's own default listen
    address. *)
Theorem port_allocation_sequence env sched vps k i p :
  8080 + Z.of_nat (length vps) < 2 ^ 31 ->
  allocated (snd (spawnVersions env sched vps)) !! k = Some (i, p) ->
  p = 8080 + Z.of_nat k
  /\ (k = 0%nat -> p = 8080 /\ main.addr = "localhost:" ++ pretty p
                   /\ Sprintf_addr p = "http://" ++ main.addr).
Proof.
  intros Hb Hk.
  destruct (alloc_inv_spawn env sched vps Hb) as (_ & _ & Hlog & _).
  destruct (Hlog k i p Hk) as [-> _].
  split; [reflexivity|]. intros ->. repeat split.
Qed.

Lemma port_allocation_sequence_witness :
  (8081 = 8080 + Z.of_nat 1)
  /\ (1%nat = 0%nat -> 8081 = 8080 /\ main.addr = "localhost:" ++ pretty 8081
                       /\ Sprintf_addr 8081 = "http://" ++ main.addr).
Proof.
  apply (port_allocation_sequence env_ok [1; 1; 0]%nat bundle_entries 1 0 8081).
  - reflexivity.
  - reflexivity.
Defined.

Lemma first_port_is_the_routers :
  allocated (snd (spawnVersions env_ok [] bundle_entries)) !! 0%nat = Some (0%nat, 8080)
  /\ main.addr = "localhost:" ++ pretty 8080.
Proof. split; reflexivity. Qed.

(** *** The subprocess arguments *)

Lemma start_arguments env sched vps cmd :
  cmd ∈ started (snd (spawnVersions env sched vps)) ->
  exists p : Z, snd cmd = ["-port"; "http://localhost:" ++ pretty p]
                /\ snd cmd <> ["-port"; pretty p].
Proof.
  intros Hin. destruct (local_inv_spawn env sched vps) as (_ & _ & _ & Hst).
  destruct (Hst cmd Hin) as [p Hp]. exists p. split; [exact Hp|].
  rewrite Hp. unfold Sprintf_addr. intros H. injection H as H.
  assert (Hlen : String.length ("http://localhost:" ++ pretty p) = String.length (pretty p))
    by now rewrite H.
  rewrite length_append in Hlen. cbn [String.length] in Hlen. lia.
Qed.

(** C8. The code passes [vp.addr], the whole address, after the [-port]
    flag, where the claim has the numeric port: the one entry of this
    launch is started with http://localhost:8080, not with 8080. *)
Theorem start_argument_is_the_address :
  started (snd (spawnVersions env_ok []
                  [ {| version := "1.0.0"; bin := "payload of 1.0.0"; addr := "" |} ]))
    = [("/tmp/1.0.0", ["-port"; "http://localhost:8080"])]
  /\ allocated (snd (spawnVersions env_ok []
                  [ {| version := "1.0.0"; bin := "payload of 1.0.0"; addr := "" |} ]))
    = [(0%nat, 8080)]
  /\ ["-port"; "http://localhost:8080"] <> ["-port"; pretty 8080].
Proof. split; [reflexivity | split; [reflexivity | discriminate]]. Qed.

(** *** Validation of the directory names *)

Lemma validate_accepts_everything (v : Version) : validate v = None.
Proof. reflexivity. Qed.

(** C9. The code accepts every directory name: [validate] returns nil
    for all of them, so a bundle whose one directory is named
    "not a version!" is discovered and launched, and the mapping has that
    name as a key. *)
Theorem malformed_version_is_accepted :
  validate "not a version!" = None
  /\ extractBinaries odd_bundle odd_bundle
     = Ok [ {| version := "not a version!"; bin := "payload"; addr := "" |} ]
  /\ snd (New env_ok odd_bundle odd_bundle []) = None
  /\ versions (fst (New env_ok odd_bundle odd_bundle [])) !! "not a version!"
     = Some "http://localhost:8080".
Proof. repeat split; vm_compute; reflexivity. Qed.

(** *** Forwarding *)

Lemma fold_header (hs : list header) (a : Request) :
  fold_left
    (fun a kv =>
       {| req_method := req_method a; req_url := req_url a;
          req_body := req_body a; req_header := (req_header a ++ [kv])%list |})
    hs a
  = {| req_method := req_method a; req_url := req_url a;
       req_body := req_body a; req_header := (req_header a ++ hs)%list |}.
Proof.
  revert a. induction hs as [|h hs IH]; intros a.
  - cbn. rewrite app_nil_r. now destruct a.
  - cbn [fold_left]. rewrite IH. cbn. now rewrite <- app_assoc.
Qed.

(** What [sendToAgentBaker] does: one POST to [path.Join(base, c.Path())]
    with the given body and the headers of the inbound request; an error
    with the status when the backend does not answer 200; the body of the
    backend's answer sent to the caller otherwise. *)
Lemma sendToAgentBaker_spec net c base body :
  let req := {| req_method := "POST"; req_url := path.Join [base; Path c];
                req_body := body; req_header := Header c |} in
  outbound (sendToAgentBaker net c base body) = [req]
  /\ (resp_errs (net req) = [] -> resp_status (net req) <> StatusOK ->
      returned (sendToAgentBaker net c base body)
        = Some (ErrAgentStatus (resp_status (net req)))
      /\ sent (sendToAgentBaker net c base body) = None)
  /\ (resp_errs (net req) = [] -> resp_status (net req) = StatusOK ->
      returned (sendToAgentBaker net c base body) = None
      /\ sent (sendToAgentBaker net c base body) = Some (resp_body (net req))).
Proof.
  intros req. unfold sendToAgentBaker. rewrite fold_header.
  cbn [req_method req_url req_body req_header app]. fold req.
  destruct (resp_errs (net req)) as [|e es] eqn:He.
  - destruct (Z.eqb_spec (resp_status (net req)) StatusOK) as [Hs | Hs]; cbn [negb].
    + split; [reflexivity|]. split; [intros _ H; contradiction | intros _ _; split; reflexivity].
    + split; [reflexivity|]. split; [intros _ _; split; reflexivity | intros _ H; contradiction].
  - split; [reflexivity|]. split; intros H; discriminate.
Qed.

(** C3. The target of the outbound request is [path.Join(base, c.Path())],
    and [path.Join] cleans its result: the two slashes after the scheme of
    the base address become one.  For the base http://localhost:8080 and
    the path /getnodebootstrapdata the request goes to
    http:/localhost:8080/getnodebootstrapdata, which is not the base
    followed by the path. *)
Theorem forward_url_is_not_base_then_path (net : Network) :
  Base one_version "1.0.0" = "http://localhost:8080"
  /\ map req_url (outbound (handle Config one_version net (bootstrap_ctx pinned_body)))
     = ["http:/localhost:8080/getnodebootstrapdata"]
  /\ "http:/localhost:8080/getnodebootstrapdata"
     <> "http://localhost:8080" ++ "/getnodebootstrapdata".
Proof.
  split; [reflexivity|]. split; [|discriminate].
  assert (H : handle Config one_version net (bootstrap_ctx pinned_body)
              = sendToAgentBaker net (bootstrap_ctx pinned_body) "http://localhost:8080"
                  (quoted "{'Type':'x','Data':'y'}")) by reflexivity.
  rewrite H.
  destruct (sendToAgentBaker_spec net (bootstrap_ctx pinned_body)
              "http://localhost:8080" (quoted "{'Type':'x','Data':'y'}")) as [-> _].
  reflexivity.
Qed.

(** *** Versions without a backend *)

(** C4. Unknown versions: for a version without an entry in the mapping,
    [Base] returns the empty string, and each of the three handlers, on a
    request that resolves to that version, returns the version-not-found
    error, sends nothing to the caller and issues no outbound request. *)
Theorem unknown_version_not_found (GetNodeBootstrapDataRequest GetLatestSigImageConfigRequest : gotype)
    (m : Mapping) (net : Network) (c : Ctx) (v : Version) :
  versions m !! v = None ->
  Base m v = ""
  /\ (forall config,
        versionedRequest GetNodeBootstrapDataRequest (Body c) = Ok (v, config) ->
        bootstrapData GetNodeBootstrapDataRequest m net c
        = {| returned := Some (ErrVersionNotFound v); sent := None; outbound := [] |})
  /\ (forall config,
        versionedRequest GetLatestSigImageConfigRequest (Body c) = Ok (v, config) ->
        latestConfig GetLatestSigImageConfigRequest m net c
        = {| returned := Some (ErrVersionNotFound v); sent := None; outbound := [] |}
        /\ distroConfig GetLatestSigImageConfigRequest m net c
           = {| returned := Some (ErrVersionNotFound v); sent := None; outbound := [] |}).
Proof.
  intros Hv.
  assert (Hbase : Base m v = "") by (unfold Base; now rewrite Hv).
  assert (H : forall T config, versionedRequest T (Body c) = Ok (v, config) ->
            handle T m net c
            = {| returned := Some (ErrVersionNotFound v); sent := None; outbound := [] |}).
  { intros T config Hreq. unfold handle. rewrite Hreq. unfold Ok. now rewrite Hbase. }
  split; [exact Hbase|]. split.
  - intros config. apply H.
  - intros config Hreq. split; apply (H _ config Hreq).
Qed.

Lemma unknown_version_not_found_witness :
  Base one_version "9.9.9" = ""
  /\ bootstrapData Config one_version backend_ok (bootstrap_ctx unknown_body)
     = {| returned := Some (ErrVersionNotFound "9.9.9"); sent := None; outbound := [] |}.
Proof.
  destruct (unknown_version_not_found Config Config one_version backend_ok
              (bootstrap_ctx unknown_body) "9.9.9") as (H1 & H2 & _).
  - reflexivity.
  - split; [exact H1|]. apply (H2 (VStruct [("Type", VString "x"); ("Data", VString "y")])).
    reflexivity.
Defined.

(* ================================================================== *)
(** * Part III: further properties of the code *)

(** ** Resolution: the successful results *)

Lemma versionedRequest_unfold (T : gotype) (c0 : ascii) (b : string) :
  versionedRequest T (String c0 b) =
  match Unmarshal_versioned T (String c0 b) with
  | None => Err ErrUnmarshalVersioned
  | Some versioned =>
      if IsZero (Req versioned) then
        if negb (String.eqb (ABVersion versioned) "") then Err ErrReqMissing
        else
          match Unmarshal T (String c0 b) with
          | None => Err ErrUnmarshalConfig
          | Some config =>
              if IsZero config then Err ErrInvalidRequest else Ok (Latest, config)
          end
      else if String.eqb (ABVersion versioned) "" then Err ErrVersionRequired
      else Ok (ABVersion versioned, Req versioned)
  end.
Proof. reflexivity. Qed.

(** What is decoded into a variable of type [t] is a value of type [t]. *)
Lemma decode_fields_typed ms fs vs :
  Forall (fun f => forall j v, decode (snd f) j = Some v -> has_type (snd f) v = true) fs ->
  decode_fields ms fs = Some vs -> Forall2 typed_field fs vs.
Proof.
  intros IH. revert vs. induction IH as [|[n t] fs Ht _ IHfs]; intros vs H.
  - injection H as <-. constructor.
  - cbn [decode_fields] in H. unfold decode_field in H. cbn [fst snd] in *.
    destruct (lookup_member n ms) as [j|] eqn:Hl.
    + destruct (decode t j) as [v|] eqn:Hd; [|discriminate].
      destruct (decode_fields ms fs) as [vs'|]; [|discriminate].
      injection H as <-. constructor; [split; [reflexivity | exact (Ht _ _ Hd)] | now apply IHfs].
    + destruct (decode_fields ms fs) as [vs'|]; [|discriminate].
      injection H as <-. constructor; [split; [reflexivity | apply has_type_zero] | now apply IHfs].
Qed.

Lemma decode_has_type (t : gotype) :
  forall j v, decode t j = Some v -> has_type t v = true.
Proof.
  induction t as [| |fs IH] using gotype_induction; intros j v H.
  - destruct j; try discriminate; injection H as <-; reflexivity.
  - destruct j; try discriminate; injection H as <-; reflexivity.
  - destruct j as [| | | | |ms]; try discriminate.
    + injection H as <-. apply has_type_zero.
    + rewrite decode_struct in H.
      destruct (decode_fields ms fs) as [vs|] eqn:Hf; [|discriminate].
      injection H as <-. apply has_type_struct. now apply (decode_fields_typed ms).
Qed.

Lemma Unmarshal_has_type (t : gotype) (b : string) (v : govalue) :
  Unmarshal t b = Some v -> has_type t v = true.
Proof.
  unfold Unmarshal. destruct (parse b) as [j|]; [apply decode_has_type | discriminate].
Qed.

Lemma Unmarshal_versioned_has_type (T : gotype) (b : string) (env : VersionedReq) :
  Unmarshal_versioned T b = Some env -> has_type T (Req env) = true.
Proof.
  unfold Unmarshal_versioned.
  destruct (Unmarshal (VersionedReqT T) b) as [v|] eqn:Hu; [|discriminate].
  apply Unmarshal_has_type in Hu. apply has_type_inv_struct in Hu as (vs & -> & Hty).
  inversion Hty as [|f1 x1 fs1 vs1 [_ H1] Hty1]; subst.
  inversion Hty1 as [|f2 x2 fs2 vs2 [_ H2] Hty2]; subst.
  inversion Hty2; subst. destruct x1 as [n1 v1], x2 as [n2 v2]. cbn [snd] in *.
  destruct v1; try discriminate. cbn [of_govalue]. intros H. injection H as <-. exact H2.
Qed.

Lemma resolved_payload (T : gotype) (b : string) (ver : Version) (cfg : govalue) :
  versionedRequest T b = Ok (ver, cfg) ->
  b <> "" /\ ver <> "" /\ IsZero cfg = false /\ has_type T cfg = true.
Proof.
  destruct b as [|c0 b]; [discriminate|].
  rewrite versionedRequest_unfold.
  destruct (Unmarshal_versioned T (String c0 b)) as [env|] eqn:Henv; [|discriminate].
  destruct (IsZero (Req env)) eqn:Hreq.
  - destruct (String.eqb (ABVersion env) ""); cbn [negb]; [|discriminate].
    destruct (Unmarshal T (String c0 b)) as [config|] eqn:Hcfg; [|discriminate].
    destruct (IsZero config) eqn:Hz; [discriminate|].
    intros H. injection H as <- <-.
    repeat split; try discriminate; [exact Hz | exact (Unmarshal_has_type _ _ _ Hcfg)].
  - destruct (String.eqb_spec (ABVersion env) "") as [Hab | Hab]; [discriminate|].
    intros H. injection H as <- <-.
    repeat split; try discriminate; try assumption.
    exact (Unmarshal_versioned_has_type _ _ _ Henv).
Qed.

(** X2. What [versionedRequest] returns without an error is never the
    empty version and never a zero payload: the body was not empty, the
    version is not the empty string, and the payload is a non-zero value
    of the payload type. *)
Theorem versionedRequest_ok_nonzero (T : gotype) (b : string) (ver : Version) (cfg : govalue) :
  versionedRequest T b = Ok (ver, cfg) ->
  b <> "" /\ ver <> "" /\ IsZero cfg = false /\ has_type T cfg = true.
Proof. apply resolved_payload. Qed.

Lemma versionedRequest_ok_nonzero_witness :
  quoted "{'ABVersion':'1.0.0','Req':{'Type': 'test', 'Data': 'data'}}" <> ""
  /\ "1.0.0" <> "" /\ IsZero test_config = false /\ has_type Config test_config = true.
Proof.
  apply (versionedRequest_ok_nonzero Config
           (quoted "{'ABVersion':'1.0.0','Req':{'Type': 'test', 'Data': 'data'}}")
           "1.0.0" test_config).
  reflexivity.
Defined.

(** ** Forwarding *)

Lemma copy_headers (hs : list header) (a : Request) :
  fold_left
    (fun a kv =>
       {| req_method := req_method a; req_url := req_url a;
          req_body := req_body a; req_header := (req_header a ++ [kv])%list |})
    hs a
  = {| req_method := req_method a; req_url := req_url a;
       req_body := req_body a; req_header := (req_header a ++ hs)%list |}.
Proof.
  revert a. induction hs as [|h hs IH]; intros a.
  - cbn. rewrite app_nil_r. now destruct a.
  - cbn [fold_left]. rewrite IH. cbn. now rewrite <- app_assoc.
Qed.

Lemma sendToAgentBaker_unfold net c base body :
  sendToAgentBaker net c base body =
  let req := forwarded c base body in
  match resp_errs (net req) with
  | e :: _ => fail (ErrAgentSend e) [req]
  | [] =>
      if negb (resp_status (net req) =? StatusOK) then
        fail (ErrAgentStatus (resp_status (net req))) [req]
      else {| returned := None; sent := Some (resp_body (net req)); outbound := [req] |}
  end.
Proof. unfold sendToAgentBaker. rewrite copy_headers. reflexivity. Qed.

(** X4. A handler issues at most one outbound request, and issues one
    exactly when the request resolves and [Base] gives a non-empty
    address for the resolved version (a malformed request, an unknown
    version and a version registered with the empty address reach no
    backend).  It sends a body to the caller only together with a nil
    error, and then the body is that of a backend answer with status 200
    and no transport error; conversely a nil error always comes with a
    body sent. *)
Theorem handle_outbound (T : gotype) (m : Mapping) (net : Network) (c : Ctx) :
  (length (outbound (handle T m net c)) <= 1)%nat
  /\ (outbound (handle T m net c) <> [] <->
      exists ver cfg, versionedRequest T (Body c) = Ok (ver, cfg) /\ Base m ver <> "")
  /\ (forall b, sent (handle T m net c) = Some b ->
        returned (handle T m net c) = None
        /\ exists req, outbound (handle T m net c) = [req]
                       /\ resp_errs (net req) = [] /\ resp_status (net req) = 200
                       /\ resp_body (net req) = b)
  /\ (returned (handle T m net c) = None -> sent (handle T m net c) <> None).
Proof.
  unfold handle.
  destruct (versionedRequest T (Body c)) as [err|[ver cfg]] eqn:Hreq.
  { cbn [fail returned sent outbound length].
    split; [lia|]. split; [|split; [intros b Hb; discriminate | intros Hr; discriminate]].
    split; [intros Hne; contradiction | intros (v & x & Hv & _); discriminate]. }
  destruct (String.eqb_spec (Base m ver) "") as [Hb | Hb].
  { cbn [fail returned sent outbound length].
    split; [lia|]. split; [|split; [intros b Hs; discriminate | intros Hr; discriminate]].
    split; [intros Hne; contradiction|].
    intros (v & x & Hv & Hne). injection Hv as <- <-. contradiction. }
  cbn zeta. rewrite sendToAgentBaker_unfold. cbn zeta.
  set (req := forwarded c (Base m ver) (Marshal cfg)).
  assert (Hex : exists v x, inr (ver, cfg) = Ok (v, x) /\ Base m v <> "")
    by (exists ver, cfg; split; [reflexivity | exact Hb]).
  destruct (resp_errs (net req)) as [|e es] eqn:He.
  - destruct (Z.eqb_spec (resp_status (net req)) StatusOK) as [Hs | Hs]; cbn [negb].
    + cbn [fail returned sent outbound length].
      split; [lia|]. split; [split; [intros _; exact Hex | discriminate]|].
      split; [|discriminate].
      intros b Hsent. injection Hsent as <-. split; [reflexivity|]. exists req. auto.
    + cbn [fail returned sent outbound length].
      split; [lia|]. split; [split; [intros _; exact Hex | discriminate]|].
      split; [intros b Hsent; discriminate | intros Hr; discriminate].
  - cbn [fail returned sent outbound length].
    split; [lia|]. split; [split; [intros _; exact Hex | discriminate]|].
    split; [intros b Hsent; discriminate | intros Hr; discriminate].
Qed.

Lemma resolve_bare (T : gotype) (P : govalue) :
  wf_type T = true -> has_type T P = true -> IsZero P = false ->
  bare_payload_type T = true ->
  versionedRequest T (Marshal P) = Ok (Latest, P).
Proof.
  intros Hwf Hty Hnz Hbare. unfold versionedRequest.
  rewrite Marshal_not_empty, Unmarshal_versioned_bare by assumption.
  cbn [Req ABVersion]. rewrite IsZero_zero. cbn [String.eqb negb].
  rewrite Unmarshal_Marshal by assumption. now rewrite Hnz.
Qed.

(** X5. The body a handler forwards can be read back: when a request
    resolves to [(ver, cfg)] and [ver] has a backend, the one outbound
    request goes to [path.Join] of the backend's address and the inbound
    path, carries the inbound headers, and its body decodes, as the
    payload type, to exactly [cfg]; when the payload type has no field
    named like the envelope's, that body is itself a bare request that
    resolves to [(Latest, cfg)], so no envelope is ever forwarded. *)
Theorem forwarded_body_decodes (T : gotype) (m : Mapping) (net : Network) (c : Ctx)
    (ver : Version) (cfg : govalue) :
  wf_type T = true ->
  versionedRequest T (Body c) = Ok (ver, cfg) ->
  Base m ver <> "" ->
  exists req,
    outbound (handle T m net c) = [req]
    /\ req_method req = "POST"
    /\ req_url req = path.Join [Base m ver; Path c]
    /\ req_header req = Header c
    /\ Unmarshal T (req_body req) = Some cfg
    /\ (bare_payload_type T = true ->
        versionedRequest T (req_body req) = Ok (Latest, cfg)).
Proof.
  intros Hwf Hreq Hbase.
  destruct (resolved_payload T (Body c) ver cfg Hreq) as (_ & _ & Hnz & Hty).
  exists (forwarded c (Base m ver) (Marshal cfg)).
  split; [|split; [reflexivity | split; [reflexivity | split; [reflexivity | split]]]].
  - unfold handle. rewrite Hreq. unfold Ok.
    apply String.eqb_neq in Hbase. rewrite Hbase.
    cbn zeta. rewrite sendToAgentBaker_unfold. cbn zeta.
    destruct (resp_errs _); [destruct (negb _)|]; reflexivity.
  - cbn [req_body forwarded]. now apply Unmarshal_Marshal.
  - intros Hbare. cbn [req_body forwarded]. now apply resolve_bare.
Qed.

Lemma forwarded_body_decodes_witness :
  exists req,
    outbound (handle Config one_version backend_ok (bootstrap_ctx pinned_body)) = [req]
    /\ req_method req = "POST"
    /\ req_url req = path.Join [Base one_version "1.0.0"; Path (bootstrap_ctx pinned_body)]
    /\ req_header req = Header (bootstrap_ctx pinned_body)
    /\ Unmarshal Config (req_body req) = Some (VStruct [("Type", VString "x"); ("Data", VString "y")])
    /\ (bare_payload_type Config = true ->
        versionedRequest Config (req_body req)
        = Ok (Latest, VStruct [("Type", VString "x"); ("Data", VString "y")])).
Proof.
  apply (forwarded_body_decodes Config one_version backend_ok (bootstrap_ctx pinned_body)
           "1.0.0" (VStruct [("Type", VString "x"); ("Data", VString "y")])).
  - reflexivity.
  - reflexivity.
  - discriminate.
Defined.

(** *** The invariant of a launch, without a bound on the counter *)

Lemma wrap32_add_l (a b : Z) : wrap32 (wrap32 a + b) = wrap32 (a + b).
Proof.
  unfold wrap32.
  change (2 ^ 31) with 2147483648. change (2 ^ 32) with 4294967296.
  assert (H : (a + 2147483648) mod 4294967296 - 2147483648 + b + 2147483648
              = (a + 2147483648) mod 4294967296 + b) by lia.
  rewrite H, Zplus_mod_idemp_l. f_equal. f_equal. lia.
Qed.

Lemma wrap32_range (z : Z) : - 2 ^ 31 <= wrap32 z < 2 ^ 31.
Proof.
  unfold wrap32. change (2 ^ 31) with 2147483648. change (2 ^ 32) with 4294967296.
  pose proof (Z.mod_pos_bound (z + 2147483648) 4294967296 ltac:(lia)). lia.
Qed.

(** [ports.Add(1) - 1] is the value of the counter before the call,
    whatever that value is. *)
Lemma add_returns_previous (c : Z) :
  wrap32 (wrap32 (wrap32 c + 1) - 1) = wrap32 c.
Proof.
  replace (wrap32 (wrap32 c + 1) - 1) with (wrap32 (wrap32 c + 1) + -1) by lia.
  rewrite wrap32_add_l.
  replace (wrap32 c + 1 + -1) with (wrap32 c + 0) by lia.
  rewrite wrap32_add_l. f_equal. lia.
Qed.

Lemma launch_inv_init env vps : launch_inv env vps (spawn_init vps).
Proof.
  unfold launch_inv, spawn_init. cbn [goroutines verPaths ports allocated written started].
  split; [apply length_map|]. split; [reflexivity|]. split; [reflexivity|].
  split; [intros k i p H; discriminate|]. split; [constructor|].
  split; [|split; intros ? H; apply elem_of_nil in H; contradiction].
  intros i g H. change (map ?f vps) with (f <$> vps) in H.
  rewrite list_lookup_fmap in H. destruct (vps !! i) as [x|] eqn:Hx; [|discriminate].
  injection H as <-. exists x. cbn [at_pc vp].
  split; [exact Hx|]. split; [reflexivity|]. split; [reflexivity|].
  split; [apply not_elem_of_nil | exact Hx].
Qed.

(** The traces only grow, and the slice changes at the index of the
    goroutine that steps. *)
Lemma goroutine_trace_mono env vps st st' i j g :
  i <> j ->
  (forall w, w ∈ written st -> w ∈ written st') ->
  (forall cmd, cmd ∈ started st -> cmd ∈ started st') ->
  (allocated st' = allocated st
   \/ exists p, allocated st' = (allocated st ++ [(i, p)])%list) ->
  verPaths st' !! j = verPaths st !! j ->
  goroutine_trace env vps st j g -> goroutine_trace env vps st' j g.
Proof.
  intros Hne Hw Hs Ha Hv (x & Hx & Hver & Hbin & Hpos).
  assert (Hnames : j ∉ (allocated st).*1 -> j ∉ (allocated st').*1).
  { intros Hj. destruct Ha as [-> | [p ->]]; [exact Hj|].
    rewrite fmap_app. intros Hin. apply elem_of_app in Hin as [Hin | Hin]; [contradiction|].
    apply list_elem_of_singleton in Hin. cbn in Hin. congruence. }
  assert (Hport : took_port st j g -> took_port st' j g).
  { intros (p & Hin & Hp). exists p. split; [|exact Hp].
    destruct Ha as [-> | [q ->]]; [exact Hin | apply elem_of_app; now left]. }
  exists x. split; [exact Hx|]. split; [exact Hver|]. split; [exact Hbin|].
  unfold wrote, ran in *. rewrite Hv.
  destruct (at_pc g) as [| | | |[e|]].
  1-4, 6: intuition auto.
  destruct Hpos as [Hvp [(cause & He & Hwf & Hn) | (cause & He & Hwr & Hp & Hst)]].
  - split; [exact Hvp|]. left. exists cause. auto.
  - split; [exact Hvp|]. right. exists cause. auto.
Qed.

(** How a step that replaces goroutine [i] keeps the invariant. *)
Lemma launch_inv_update env vps st st' i g g' :
  launch_inv env vps st ->
  goroutines st !! i = Some g ->
  goroutines st' = <[i := g']> (goroutines st) ->
  length (verPaths st') = length (verPaths st) ->
  (forall j, j <> i -> verPaths st' !! j = verPaths st !! j) ->
  ports st' = wrap32 (8080 + Z.of_nat (length (allocated st'))) ->
  (allocated st' = allocated st
   \/ (allocated st' = (allocated st ++ [(i, wrap32 (8080 + Z.of_nat (length (allocated st))))])%list
       /\ i ∉ (allocated st).*1)) ->
  (forall w, w ∈ written st -> w ∈ written st') ->
  (forall w, w ∈ written st' ->
     w ∈ written st
     \/ exists x, x ∈ vps /\ w = (entry_path env x, bin x)
                  /\ WriteFile env (entry_path env x) (bin x) = None) ->
  (forall cmd, cmd ∈ started st -> cmd ∈ started st') ->
  (forall cmd, cmd ∈ started st' ->
     cmd ∈ started st
     \/ exists x p, vps !! i = Some x /\ (i, p) ∈ allocated st'
                    /\ cmd = (entry_path env x, ["-port"; Sprintf_addr p])
                    /\ Start env (entry_path env x) ["-port"; Sprintf_addr p] = None) ->
  goroutine_trace env vps st' i g' ->
  launch_inv env vps st'.
Proof.
  intros (Hlg & Hlv & Hports & Hlog & Hnd & Hg & Hw & Hs)
         Hgi Hgs Hlen Hother Hports' Halloc Hwmono Hwnew Hsmono Hsnew Hnew.
  pose proof (lookup_lt_Some _ _ _ Hgi) as Hi.
  unfold launch_inv. rewrite Hgs, length_insert, Hlen.
  split; [exact Hlg|]. split; [exact Hlv|]. split; [exact Hports'|].
  assert (Hsub : forall e, e ∈ allocated st -> e ∈ allocated st').
  { intros e He. destruct Halloc as [-> | [-> _]]; [exact He | apply elem_of_app; now left]. }
  split; [|split; [|split; [|split]]].
  - intros k j p Hk. destruct Halloc as [Heq | [Heq Hfresh]]; rewrite Heq in Hk.
    + now apply Hlog.
    + apply lookup_snoc_Some in Hk as [[_ Hk] | [-> Hk]]; [now apply Hlog|].
      injection Hk as <- <-. split; [reflexivity | lia].
  - destruct Halloc as [-> | [-> Hfresh]]; [exact Hnd|].
    rewrite fmap_app. apply NoDup_app. split; [exact Hnd|]. split; [|apply NoDup_singleton].
    intros j Hj Hji. apply list_elem_of_singleton in Hji. cbn in Hji. subst j. contradiction.
  - intros j gj Hj. destruct (decide (j = i)) as [-> | Hne].
    + rewrite list_lookup_insert_eq in Hj by exact Hi. injection Hj as <-. exact Hnew.
    + rewrite list_lookup_insert_ne in Hj by congruence.
      apply (goroutine_trace_mono env vps st st' i j gj); auto.
      destruct Halloc as [-> | [-> _]]; [now left | right; eauto].
  - intros w Hin. destruct (Hwnew w Hin) as [Hold | Hx]; [now apply Hw | exact Hx].
  - intros cmd Hin. destruct (Hsnew cmd Hin) as [Hold | (x & p & Hx & Hp & -> & Hok)].
    + destruct (Hs cmd Hold) as (j & x & p & Hx & Hp & -> & Hok). exists j, x, p. auto.
    + exists i, x, p. auto.
Qed.

Lemma fp_of_entry_path env g x :
  version (vp g) = version x -> fp_of env g = entry_path env x.
Proof. intros H. unfold fp_of, entry_path. now rewrite H. Qed.

Lemma launch_inv_step env vps st i :
  launch_inv env vps st -> launch_inv env vps (step env st i).
Proof.
  intros Hinv.
  destruct (goroutines st !! i) as [g|] eqn:Hgi.
  2: { unfold step. now rewrite Hgi. }
  pose proof Hinv as (Hlg & Hlv & Hports & Hlog & Hnd & Hg & Hw & Hs).
  pose proof (lookup_lt_Some _ _ _ Hgi) as Hi.
  destruct (Hg i g Hgi) as (x & Hx & Hver & Hbin & Hpos).
  pose proof (fp_of_entry_path env g x Hver) as Hfp.
  assert (Hxin : x ∈ vps) by (apply list_elem_of_lookup; eauto).
  step_cases env st i g Hgi.
  - (* WriteFile fails *)
    destruct Hpos as [Hn Hv].
    eapply (launch_inv_update env vps st _ i g); try eassumption;
      cbn [goroutines verPaths ports allocated written started]; auto.
    exists x. cbn [at_pc vp]. split; [exact Hx|]. split; [exact Hver|]. split; [exact Hbin|].
    split; [exact Hv|]. left. exists s. rewrite Hver, <- Hfp, <- Hbin. auto.
  - (* WriteFile succeeds *)
    destruct Hpos as [Hn Hv].
    eapply (launch_inv_update env vps st _ i g); try eassumption;
      cbn [goroutines verPaths ports allocated written started]; auto.
    + intros w Hin. apply elem_of_app. now left.
    + intros w Hin. apply elem_of_app in Hin as [Hin | Hin]; [now left|].
      apply list_elem_of_singleton in Hin. right. exists x.
      rewrite Hin. rewrite Hfp, Hbin in *. auto.
    + exists x. cbn [at_pc vp]. split; [exact Hx|]. split; [exact Hver|]. split; [exact Hbin|].
      split; [|split; [exact Hn | exact Hv]].
      unfold wrote. cbn [written]. apply elem_of_app. right.
      apply list_elem_of_singleton. now rewrite Hfp, Hbin.
  - (* ports.Add(1) - 1 *)
    destruct Hpos as (Hwr & Hn & Hv).
    assert (Hport : wrap32 (wrap32 (ports st + 1) - 1)
                    = wrap32 (8080 + Z.of_nat (length (allocated st)))).
    { rewrite Hports. apply add_returns_previous. }
    eapply (launch_inv_update env vps st _ i g); try eassumption;
      cbn [goroutines verPaths ports allocated written started]; auto.
    + rewrite Hports, wrap32_add_l, length_app. cbn [length]. f_equal. lia.
    + right. rewrite Hport. auto.
    + exists x. cbn [at_pc vp version bin addr].
      split; [exact Hx|]. split; [exact Hver|]. split; [exact Hbin|].
      split; [exact Hwr|]. split; [|exact Hv].
      eexists. cbn [allocated]. split; [|reflexivity].
      apply elem_of_app. right. apply list_elem_of_singleton. reflexivity.
  - (* Start fails *)
    destruct Hpos as (Hwr & Hp & Hv).
    eapply (launch_inv_update env vps st _ i g); try eassumption;
      cbn [goroutines verPaths ports allocated written started]; auto.
    exists x. cbn [at_pc vp]. split; [exact Hx|]. split; [exact Hver|]. split; [exact Hbin|].
    split; [exact Hv|]. right. exists s. rewrite Hver, <- Hfp. auto.
  - (* Start succeeds *)
    destruct Hpos as (Hwr & Hp & Hv).
    eapply (launch_inv_update env vps st _ i g); try eassumption;
      cbn [goroutines verPaths ports allocated written started]; auto.
    + intros cmd Hin. apply elem_of_app. now left.
    + intros cmd Hin. apply elem_of_app in Hin as [Hin | Hin]; [now left|].
      apply list_elem_of_singleton in Hin. right.
      destruct Hp as (p & Hpin & Hpa). exists x, p.
      rewrite Hin. rewrite Hfp, Hpa in *. auto.
    + exists x. cbn [at_pc vp]. split; [exact Hx|]. split; [exact Hver|]. split; [exact Hbin|].
      split; [exact Hwr|]. split; [exact Hp|]. split; [|exact Hv].
      unfold ran. cbn [started]. apply elem_of_app. right.
      apply list_elem_of_singleton. now rewrite Hfp.
  - (* verPaths[i] = vp *)
    destruct Hpos as (Hwr & Hp & Hr & Hv).
    eapply (launch_inv_update env vps st _ i g); try eassumption;
      cbn [goroutines verPaths ports allocated written started]; auto.
    + apply length_insert.
    + intros j Hne. apply list_lookup_insert_ne. congruence.
    + exists x. cbn [at_pc vp]. split; [exact Hx|]. split; [exact Hver|]. split; [exact Hbin|].
      split; [exact Hwr|]. split; [exact Hp|]. split; [exact Hr|].
      cbn [verPaths]. apply list_lookup_insert_eq. lia.
  - exact Hinv.
Qed.

Lemma launch_inv_run env vps sched st :
  launch_inv env vps st -> launch_inv env vps (run env sched st).
Proof.
  revert st. induction sched as [|i sched IH]; intros st H; [exact H|].
  rewrite run_cons. apply IH. now apply launch_inv_step.
Qed.

Lemma launch_inv_spawn env sched vps :
  launch_inv env vps (snd (spawnVersions env sched vps)).
Proof. apply launch_inv_run, launch_inv_init. Qed.

(** The goroutine of an entry at the end of [spawnVersions]. *)
Lemma spawn_final env sched vps i x :
  vps !! i = Some x ->
  exists g r, goroutines (snd (spawnVersions env sched vps)) !! i = Some g
              /\ at_pc g = Returned r
              /\ goroutine_trace env vps (snd (spawnVersions env sched vps)) i g.
Proof.
  intros Hx. pose proof (lookup_lt_Some _ _ _ Hx) as Hi.
  destruct (spawn_all_returned env sched vps i Hi) as (g & Hg & Hrem).
  apply remaining_0 in Hrem as [r Hr].
  destruct (launch_inv_spawn env sched vps) as (_ & _ & _ & _ & _ & Htr & _).
  exists g, r. auto.
Qed.

(** X6. Each goroutine takes at most one port: in the trace of
    allocations no goroutine appears twice, so there are at most as many
    allocations as entries; and the counter has advanced by one per
    allocation (its value is 8080 plus their number, as a 32-bit
    integer).  This holds under every schedule and whatever fails. *)
Theorem one_port_per_goroutine env sched vps :
  NoDup (allocated (snd (spawnVersions env sched vps))).*1
  /\ (length (allocated (snd (spawnVersions env sched vps))) <= length vps)%nat
  /\ ports (snd (spawnVersions env sched vps))
     = wrap32 (8080 + Z.of_nat (length (allocated (snd (spawnVersions env sched vps))))).
Proof.
  destruct (launch_inv_spawn env sched vps) as (_ & _ & Hports & Hlog & Hnd & _).
  split; [exact Hnd|]. split; [|exact Hports].
  rewrite <- (length_fmap fst). apply NoDup_bounded_length; [exact Hnd|].
  intros j Hj. apply list_elem_of_fmap in Hj as ([j' q] & -> & Hj).
  apply list_elem_of_lookup in Hj as [k Hk]. now apply Hlog in Hk.
Qed.

(** X7. The port of allocation number [k] is 8080 + k as a 32-bit signed
    integer, for every number of entries: [ports.Add(1) - 1] gives the
    value of the counter before the call, also when the counter wraps. *)
Theorem port_sequence_wraps env sched vps k i p :
  allocated (snd (spawnVersions env sched vps)) !! k = Some (i, p) ->
  p = wrap32 (8080 + Z.of_nat k)
  /\ - 2 ^ 31 <= p < 2 ^ 31
  /\ (i < length vps)%nat.
Proof.
  intros Hk. destruct (launch_inv_spawn env sched vps) as (_ & _ & _ & Hlog & _).
  destruct (Hlog k i p Hk) as [-> Hi]. split; [reflexivity|]. split; [apply wrap32_range | exact Hi].
Qed.

Lemma port_sequence_wraps_witness :
  8081 = wrap32 (8080 + Z.of_nat 1)
  /\ - 2 ^ 31 <= 8081 < 2 ^ 31
  /\ (0 < length bundle_entries)%nat.
Proof.
  apply (port_sequence_wraps env_ok [1; 1; 0]%nat bundle_entries 1 0 8081). reflexivity.
Defined.

(** X8. An entry whose payload cannot be written takes no port and is
    left as it was in the slice: under every schedule its goroutine
    returns the write error, never calls [ports.Add], and never stores to
    [verPaths]. *)
Theorem failed_write_takes_no_port env sched vps i x :
  vps !! i = Some x ->
  WriteFile env (entry_path env x) (bin x) <> None ->
  (i ∉ (allocated (snd (spawnVersions env sched vps))).*1)
  /\ verPaths (snd (spawnVersions env sched vps)) !! i = Some x
  /\ exists g cause,
       goroutines (snd (spawnVersions env sched vps)) !! i = Some g
       /\ at_pc g = Returned (Some (ErrWriteFile (version x) cause))
       /\ WriteFile env (entry_path env x) (bin x) = Some cause.
Proof.
  intros Hx Hfail.
  destruct (spawn_final env sched vps i x Hx) as (g & r & Hg & Hr & Htr).
  destruct (launch_inv_spawn env sched vps) as (_ & _ & _ & _ & _ & _ & Hw & _).
  destruct Htr as (x' & Hx' & Hver & Hbin & Hpos).
  rewrite Hx in Hx'. injection Hx' as <-. rewrite Hr in Hpos.
  assert (Hnot : ~ wrote env (snd (spawnVersions env sched vps)) x).
  { intros Hin. destruct (Hw _ Hin) as (y & _ & Heq & Hok).
    injection Heq as Hp Hb. rewrite <- Hp, <- Hb in Hok. contradiction. }
  destruct r as [e|].
  - destruct Hpos as [Hv [(cause & -> & Hcause & Hn) | (cause & _ & Hwr & _)]];
      [|contradiction].
    split; [exact Hn|]. split; [exact Hv|]. exists g, cause. auto.
  - destruct Hpos as [Hwr _]. contradiction.
Qed.

Lemma failed_write_takes_no_port_witness :
  (1%nat ∉ (allocated (snd (spawnVersions env_write_fails [1; 0; 1]%nat bundle_entries))).*1)
  /\ verPaths (snd (spawnVersions env_write_fails [1; 0; 1]%nat bundle_entries)) !! 1%nat
     = Some {| version := "1.1.0"; bin := "payload of 1.1.0"; addr := "" |}
  /\ exists g cause,
       goroutines (snd (spawnVersions env_write_fails [1; 0; 1]%nat bundle_entries)) !! 1%nat
         = Some g
       /\ at_pc g = Returned (Some (ErrWriteFile "1.1.0" cause))
       /\ WriteFile env_write_fails
            (entry_path env_write_fails
               {| version := "1.1.0"; bin := "payload of 1.1.0"; addr := "" |})
            "payload of 1.1.0" = Some cause.
Proof.
  apply (failed_write_takes_no_port env_write_fails [1; 0; 1]%nat bundle_entries 1
           {| version := "1.1.0"; bin := "payload of 1.1.0"; addr := "" |}).
  - reflexivity.
  - discriminate.
Defined.

(** The goroutine of an entry whose write and start succeed. *)
Lemma entry_launched env sched vps i x :
  vps !! i = Some x ->
  launch_succeeds env x ->
  exists g p,
    goroutines (snd (spawnVersions env sched vps)) !! i = Some g
    /\ at_pc g = Returned None
    /\ verPaths (snd (spawnVersions env sched vps)) !! i
       = Some {| version := version x; bin := bin x; addr := Sprintf_addr p |}
    /\ (i, p) ∈ allocated (snd (spawnVersions env sched vps))
    /\ (entry_path env x, bin x) ∈ written (snd (spawnVersions env sched vps))
    /\ (entry_path env x, ["-port"; Sprintf_addr p])
         ∈ started (snd (spawnVersions env sched vps)).
Proof.
  intros Hx [Hwok Hsok].
  destruct (spawn_final env sched vps i x Hx) as (g & r & Hg & Hr & Htr).
  destruct Htr as (x' & Hx' & Hver & Hbin & Hpos).
  rewrite Hx in Hx'. injection Hx' as <-. rewrite Hr in Hpos.
  destruct r as [e|].
  - destruct Hpos as [_ [(cause & _ & Hcause & _) | (cause & _ & _ & _ & Hcause)]].
    + rewrite Hwok in Hcause. discriminate.
    + rewrite Hsok in Hcause. discriminate.
  - destruct Hpos as (Hwr & (p & Hp & Ha) & Hran & Hv).
    exists g, p. split; [exact Hg|]. split; [exact Hr|].
    split; [|split; [exact Hp | split; [exact Hwr|]]].
    + rewrite Hv. f_equal. destruct g as [pc0 [v0 b0 a0]]. cbn in *. now subst.
    + unfold ran in Hran. now rewrite Ha in Hran.
Qed.

(** X9. A failure elsewhere does not stop a launch: under every schedule,
    an entry whose write and start succeed has its payload written, its
    process started with [-port] and its address, and its address stored
    in the slice, also when [spawnVersions] returns the error of another
    entry. *)
Theorem successful_launch_completes env sched vps i x :
  vps !! i = Some x ->
  launch_succeeds env x ->
  exists g p,
    goroutines (snd (spawnVersions env sched vps)) !! i = Some g
    /\ at_pc g = Returned None
    /\ verPaths (snd (spawnVersions env sched vps)) !! i
       = Some {| version := version x; bin := bin x; addr := Sprintf_addr p |}
    /\ (i, p) ∈ allocated (snd (spawnVersions env sched vps))
    /\ (entry_path env x, bin x) ∈ written (snd (spawnVersions env sched vps))
    /\ (entry_path env x, ["-port"; Sprintf_addr p])
         ∈ started (snd (spawnVersions env sched vps)).
Proof. apply entry_launched. Qed.

Lemma successful_launch_completes_witness :
  exists g p,
    goroutines (snd (spawnVersions env_write_fails [1; 0; 1]%nat bundle_entries)) !! 0%nat
      = Some g
    /\ at_pc g = Returned None
    /\ verPaths (snd (spawnVersions env_write_fails [1; 0; 1]%nat bundle_entries)) !! 0%nat
       = Some {| version := "1.0.0"; bin := "payload of 1.0.0"; addr := Sprintf_addr p |}
    /\ (0%nat, p) ∈ allocated (snd (spawnVersions env_write_fails [1; 0; 1]%nat bundle_entries))
    /\ ("/tmp/1.0.0", "payload of 1.0.0")
         ∈ written (snd (spawnVersions env_write_fails [1; 0; 1]%nat bundle_entries))
    /\ ("/tmp/1.0.0", ["-port"; Sprintf_addr p])
         ∈ started (snd (spawnVersions env_write_fails [1; 0; 1]%nat bundle_entries)).
Proof.
  apply (successful_launch_completes env_write_fails [1; 0; 1]%nat bundle_entries 0
           {| version := "1.0.0"; bin := "payload of 1.0.0"; addr := "" |}).
  - reflexivity.
  - split; reflexivity.
Defined.

(** X10. Nothing else is written or started: every file [spawnVersions]
    writes is the payload of an entry at [filepath.Join(tmpdir, version)],
    and every process it starts is such a file, which it has also written,
    with the two arguments [-port] and the address made of a port that
    the goroutine of that entry took. *)
Theorem launch_touches_only_entries env sched vps :
  (forall w, w ∈ written (snd (spawnVersions env sched vps)) ->
     exists x, x ∈ vps /\ w = (path.Join [TempDir env; version x], bin x))
  /\ (forall cmd, cmd ∈ started (snd (spawnVersions env sched vps)) ->
        exists i x p,
          vps !! i = Some x
          /\ (i, p) ∈ allocated (snd (spawnVersions env sched vps))
          /\ cmd = (path.Join [TempDir env; version x], ["-port"; Sprintf_addr p])
          /\ (path.Join [TempDir env; version x], bin x)
               ∈ written (snd (spawnVersions env sched vps))).
Proof.
  destruct (launch_inv_spawn env sched vps) as (Hlg & _ & _ & _ & Hnd & Htr & Hw & Hs).
  split.
  - intros w Hin. destruct (Hw w Hin) as (x & Hx & -> & _). exists x. auto.
  - intros cmd Hin. destruct (Hs cmd Hin) as (i & x & p & Hx & Hp & -> & _).
    exists i, x, p. split; [exact Hx|]. split; [exact Hp|]. split; [reflexivity|].
    pose proof (lookup_lt_Some _ _ _ Hx) as Hi. rewrite <- Hlg in Hi.
    destruct (lookup_lt_is_Some_2 _ _ Hi) as [g Hg].
    destruct (Htr i g Hg) as (x' & Hx' & _ & _ & Hpos).
    rewrite Hx in Hx'. injection Hx' as <-.
    assert (Hin' : i ∈ (allocated (snd (spawnVersions env sched vps))).*1).
    { apply list_elem_of_fmap. exists (i, p). auto. }
    destruct (at_pc g) as [| | | |[e|]].
    + destruct Hpos as [Hn _]. contradiction.
    + destruct Hpos as [Hwr _]. exact Hwr.
    + destruct Hpos as [Hwr _]. exact Hwr.
    + destruct Hpos as [Hwr _]. exact Hwr.
    + destruct Hpos as [_ [(c & _ & _ & Hn) | (c & _ & Hwr & _)]]; [contradiction | exact Hwr].
    + destruct Hpos as [Hwr _]. exact Hwr.
Qed.

(** *** Discovery *)

Lemma extract_loop_ok binariesFS entries acc vps :
  extract_loop binariesFS entries acc = Ok vps <->
  exists new, vps = (acc ++ new)%list
              /\ Forall2 (extracted binariesFS) (directories entries) new.
Proof.
  revert acc vps. induction entries as [|fn rest IH]; intros acc vps.
  - cbn. split.
    + intros H. injection H as <-. exists []. rewrite app_nil_r. split; [reflexivity | constructor].
    + intros (new & -> & Hf). inversion Hf; subst. now rewrite app_nil_r.
  - cbn [extract_loop directories]. destruct (IsDir fn); cbn [negb].
    + unfold validate. fold (payload_path (Name fn)).
      destruct (ReadFile binariesFS (payload_path (Name fn))) as [cause|content] eqn:Hr.
      * split; [discriminate|]. intros (new & _ & Hf).
        inversion Hf as [|n x ns xs (_ & Hx & _) _]; subst. congruence.
      * rewrite IH. split.
        -- intros (new & -> & Hf). eexists (_ :: new). rewrite <- app_assoc. split; [reflexivity|].
           constructor; [|exact Hf]. repeat split. exact Hr.
        -- intros (new & -> & Hf).
           inversion Hf as [|n x ns xs (Hv & Hx & Ha) Hf']; subst.
           exists xs. split; [|exact Hf'].
           rewrite <- app_assoc. cbn. do 2 f_equal.
           destruct x as [v b a]. cbn in *. subst. congruence.
    + apply IH.
Qed.

(** X11. [extractBinaries] succeeds exactly when the directory listing of
    the bundle can be read and the file [agentbaker] of every directory
    can be read; it then returns one entry per directory, in the order of
    the listing, with the name of the directory as version, the content
    of that file as payload and no address; entries that are not
    directories are skipped. *)
Theorem extractBinaries_ok_iff binariesFS rdfs vps :
  extractBinaries binariesFS rdfs = Ok vps <->
  exists entries,
    ReadDir rdfs "." = inr entries
    /\ Forall2 (extracted binariesFS) (directories entries) vps.
Proof.
  unfold extractBinaries. destruct (ReadDir rdfs ".") as [cause|entries].
  - split; [discriminate | intros (e & H & _); discriminate].
  - rewrite extract_loop_ok. split.
    + intros (new & -> & Hf). exists entries. auto.
    + intros (e & He & Hf). injection He as <-. exists vps. auto.
Qed.

Lemma extract_loop_err binariesFS entries acc e :
  extract_loop binariesFS entries acc = Err e <->
  exists before name after cause,
    directories entries = (before ++ name :: after)%list
    /\ Forall (fun n => exists content, ReadFile binariesFS (payload_path n) = inr content)
              before
    /\ ReadFile binariesFS (payload_path name) = inl cause
    /\ e = ErrReadFile name cause.
Proof.
  revert acc. induction entries as [|fn rest IH]; intros acc.
  - cbn. split; [discriminate|].
    intros (before & name & after & cause & H & _). now destruct before.
  - cbn [extract_loop directories]. destruct (IsDir fn); cbn [negb].
    + unfold validate. fold (payload_path (Name fn)).
      destruct (ReadFile binariesFS (payload_path (Name fn))) as [cause|content] eqn:Hr.
      * split.
        -- intros H. injection H as <-. exists [], (Name fn), (directories rest), cause.
           repeat split; [constructor | exact Hr].
        -- intros (before & name & after & c & Hd & Hb & Hn & ->).
           destruct before as [|b before]; cbn in Hd; injection Hd as Hname Hd; rewrite ?Hname in *.
           ++ congruence.
           ++ inversion Hb as [|? ? [content Hc] _]; subst. congruence.
      * rewrite IH. split.
        -- intros (before & name & after & c & Hd & Hb & Hn & ->).
           exists (Name fn :: before), name, after, c. rewrite Hd.
           repeat split; [constructor; eauto | exact Hn].
        -- intros (before & name & after & c & Hd & Hb & Hn & ->).
           destruct before as [|b before]; cbn in Hd; injection Hd as Hname Hd; rewrite ?Hname in *.
           ++ congruence.
           ++ inversion Hb; subst. exists before, name, after, c. auto.
    + apply IH.
Qed.

(** X12. [extractBinaries] fails in two ways only: with the error of the
    directory listing when the bundle cannot be read, and otherwise with
    the read error of the first directory (in the order of the listing)
    whose [agentbaker] file cannot be read, named by that directory.  It
    never fails on the name of a directory. *)
Theorem extractBinaries_err_iff binariesFS rdfs e :
  extractBinaries binariesFS rdfs = Err e <->
  (exists cause, ReadDir rdfs "." = inl cause /\ e = ErrReadDir cause)
  \/ (exists entries before name after cause,
        ReadDir rdfs "." = inr entries
        /\ directories entries = (before ++ name :: after)%list
        /\ Forall (fun n => exists content,
                     ReadFile binariesFS (payload_path n) = inr content) before
        /\ ReadFile binariesFS (payload_path name) = inl cause
        /\ e = ErrReadFile name cause).
Proof.
  unfold extractBinaries. destruct (ReadDir rdfs ".") as [cause|entries].
  - split.
    + intros H. injection H as <-. left. eauto.
    + intros [(c & Hc & ->) | (en & ? & ? & ? & ? & Hen & _)]; [|discriminate].
      now injection Hc as <-.
  - rewrite extract_loop_err. split.
    + intros (before & name & after & c & H). right. exists entries, before, name, after, c. tauto.
    + intros [(c & Hc & _) | (en & before & name & after & c & Hen & H)]; [discriminate|].
      injection Hen as <-. exists before, name, after, c. exact H.
Qed.

(** ** [path.Join] on an address and a path *)

Lemma split_no_slash (s : string) : no_slash s = true -> path.split s = [s].
Proof.
  induction s as [|c s IH]; [reflexivity|].
  cbn [no_slash path.split]. intros H. apply andb_true_iff in H as [Hc Hs].
  apply negb_true_iff in Hc. unfold path.slash. rewrite Hc, (IH Hs). reflexivity.
Qed.

Lemma split_app_slash (a b : string) :
  no_slash a = true -> path.split (a ++ String "/" b) = a :: path.split b.
Proof.
  induction a as [|c a IH]; [reflexivity|].
  cbn [no_slash]. intros H. apply andb_true_iff in H as [Hc Ha].
  apply negb_true_iff in Hc. rewrite append_cons. cbn [path.split].
  unfold path.slash. rewrite Hc, (IH Ha). reflexivity.
Qed.

Lemma push_plain (rooted : bool) (out : list string) (el : string) :
  plain_element el = true -> path.push rooted out el = el :: out.
Proof.
  unfold plain_element, path.push. intros H.
  apply andb_true_iff in H as [H H3]. apply andb_true_iff in H as [H H2].
  apply andb_true_iff in H as [_ H1].
  apply negb_true_iff in H1, H2, H3. now rewrite H1, H2, H3.
Qed.

Lemma no_slash_app (a b : string) : no_slash (a ++ b) = no_slash a && no_slash b.
Proof.
  induction a as [|c a IH]; [reflexivity|].
  rewrite append_cons. cbn [no_slash]. now rewrite IH, andb_assoc.
Qed.

Lemma Join_address (host name : string) :
  plain_element host = true -> plain_element name = true ->
  path.Join ["http://" ++ host; "/" ++ name] = "http:/" ++ host ++ "/" ++ name.
Proof.
  intros Hhost Hname.
  assert (Hh : no_slash host = true).
  { unfold plain_element in Hhost. repeat (apply andb_true_iff in Hhost as [Hhost _]).
    exact Hhost. }
  assert (Hn : no_slash name = true).
  { unfold plain_element in Hname. repeat (apply andb_true_iff in Hname as [Hname _]).
    exact Hname. }
  change (path.Join ["http://" ++ host; "/" ++ name])
    with (path.Clean (path.concat_slash ["http://" ++ host; "/" ++ name])).
  change (path.concat_slash ["http://" ++ host; "/" ++ name])
    with (("http://" ++ host) ++ "/" ++ "/" ++ name).
  assert (Hsplit : path.split (("http://" ++ host) ++ "/" ++ "/" ++ name)
                   = ["http:"; ""; host; ""; name]).
  { change (("http://" ++ host) ++ "/" ++ "/" ++ name)
      with ("http:" ++ String "/" ("" ++ String "/" (host ++ String "/" ("" ++ String "/" name)))).
    rewrite split_app_slash by reflexivity. rewrite split_app_slash by reflexivity.
    rewrite split_app_slash by exact Hh. rewrite split_app_slash by reflexivity.
    now rewrite split_no_slash by exact Hn. }
  change (("http://" ++ host) ++ "/" ++ "/" ++ name)
    with (String "h" ("ttp://" ++ host ++ "/" ++ "/" ++ name)) in *.
  cbn [path.Clean]. rewrite Hsplit.
  change (Ascii.eqb "h" path.slash) with false. cbn [fold_left].
  change (path.push false [] "http:") with ["http:"].
  change (path.push false ["http:"] "") with ["http:"].
  rewrite (push_plain false _ host Hhost).
  change (path.push false [host; "http:"] "") with [host; "http:"].
  rewrite (push_plain false _ name Hname).
  cbn [rev app]. unfold path.concat_slash. cbn [String.concat].
  reflexivity.
Qed.

Lemma pretty_N_char_no_slash (x : N) : Ascii.eqb (pretty_N_char x) "/" = false.
Proof. unfold pretty_N_char. repeat case_match; reflexivity. Qed.

Lemma pretty_N_go_no_slash (x : N) (s : string) :
  no_slash s = true -> no_slash (pretty_N_go x s) = true.
Proof.
  revert s. induction (N.lt_wf_0 x) as [x _ IH]; intros s Hs.
  assert (x = 0 \/ 0 < x)%N as [-> | Hx] by lia.
  - now rewrite pretty_N_go_0.
  - rewrite pretty_N_go_step by exact Hx. apply IH.
    + now apply N.div_lt.
    + cbn [no_slash]. now rewrite pretty_N_char_no_slash, Hs.
Qed.

Lemma pretty_N_no_slash (x : N) : no_slash (pretty x) = true.
Proof.
  unfold pretty, pretty_N. destruct (decide (x = 0%N)); [reflexivity|].
  now apply pretty_N_go_no_slash.
Qed.

Lemma pretty_Z_no_slash (z : Z) : no_slash (pretty z) = true.
Proof.
  destruct z as [|p|p]; [reflexivity | apply pretty_N_no_slash|].
  change (pretty (Z.neg p)) with ("-" ++ pretty (N.pos p)).
  rewrite no_slash_app. now rewrite pretty_N_no_slash.
Qed.

Lemma localhost_plain (p : Z) : plain_element ("localhost:" ++ pretty p) = true.
Proof.
  unfold plain_element. rewrite no_slash_app, pretty_Z_no_slash. reflexivity.
Qed.

(** X13. Every address that [spawnVersions] makes is cut by
    [sendToAgentBaker]: for every port and every inbound path made of a
    slash and one plain element (as the paths of the three endpoints are),
    the request goes to [http:/localhost:<port>/<element>], with one
    slash after the scheme, which is not the address followed by the
    path. *)
Theorem forward_url_of_every_address (net : Network) (c : Ctx) (p : Z) (name body : string) :
  plain_element name = true ->
  Path c = "/" ++ name ->
  map req_url (outbound (sendToAgentBaker net c (Sprintf_addr p) body))
  = ["http:/localhost:" ++ pretty p ++ "/" ++ name]
  /\ "http:/localhost:" ++ pretty p ++ "/" ++ name <> Sprintf_addr p ++ Path c.
Proof.
  intros Hname Hpath. split.
  - rewrite sendToAgentBaker_unfold. cbn zeta.
    assert (Hurl : req_url (forwarded c (Sprintf_addr p) body)
                   = "http:/localhost:" ++ pretty p ++ "/" ++ name).
    { cbn [forwarded req_url]. rewrite Hpath.
      change (Sprintf_addr p) with ("http://" ++ "localhost:" ++ pretty p).
      rewrite (Join_address ("localhost:" ++ pretty p) name (localhost_plain p) Hname).
      now rewrite !append_assoc. }
    destruct (resp_errs _); [destruct (negb _)|]; cbn [fail outbound map]; now rewrite Hurl.
  - rewrite Hpath. unfold Sprintf_addr. intros H.
    apply (f_equal String.length) in H. rewrite !length_append in H.
    cbn [String.length] in H. rewrite ?length_append in H. lia.
Qed.

Lemma forward_url_of_every_address_witness :
  map req_url (outbound (sendToAgentBaker backend_ok (bootstrap_ctx pinned_body)
                           (Sprintf_addr 8081) "{}"))
  = ["http:/localhost:" ++ pretty 8081 ++ "/" ++ "getnodebootstrapdata"]
  /\ "http:/localhost:" ++ pretty 8081 ++ "/" ++ "getnodebootstrapdata"
     <> Sprintf_addr 8081 ++ Path (bootstrap_ctx pinned_body).
Proof.
  apply (forward_url_of_every_address backend_ok (bootstrap_ctx pinned_body) 8081
           "getnodebootstrapdata" "{}"); reflexivity.
Defined.

(** *** The mapping and the processes *)

Lemma New_success env binariesFS rdfs sched vps m :
  extractBinaries binariesFS rdfs = Ok vps ->
  New env binariesFS rdfs sched = (m, None) ->
  spawnVersions env sched vps = (None, snd (spawnVersions env sched vps))
  /\ m = build (verPaths (snd (spawnVersions env sched vps))).
Proof.
  intros Hex HNew. unfold New in HNew. rewrite Hex in HNew. unfold Ok in HNew.
  destruct (spawnVersions env sched vps) as [[err|] st]; [discriminate|].
  injection HNew as <-. split; reflexivity.
Qed.

(** The entry, the port and the traces behind an address of the mapping. *)
Lemma published_entry env binariesFS rdfs sched vps m v a :
  extractBinaries binariesFS rdfs = Ok vps ->
  New env binariesFS rdfs sched = (m, None) ->
  versions m !! v = Some a ->
  exists i x p,
    vps !! i = Some x /\ version x = v /\ a = Sprintf_addr p
    /\ (i, p) ∈ allocated (snd (spawnVersions env sched vps))
    /\ (path.Join [TempDir env; v], bin x) ∈ written (snd (spawnVersions env sched vps))
    /\ (path.Join [TempDir env; v], ["-port"; a])
         ∈ started (snd (spawnVersions env sched vps)).
Proof.
  intros Hex HNew Hva.
  destruct (New_success _ _ _ _ _ _ Hex HNew) as [Hsp ->].
  set (st := snd (spawnVersions env sched vps)) in *.
  apply build_lookup_inv in Hva as (y & Hy & <- & <-).
  apply list_elem_of_lookup in Hy as [i Hy].
  destruct (launch_inv_spawn env sched vps) as (Hlg & Hlv & _). fold st in Hlg, Hlv.
  pose proof (lookup_lt_Some _ _ _ Hy) as Hi. rewrite Hlv in Hi.
  destruct (lookup_lt_is_Some_2 vps i Hi) as [x Hx].
  destruct (spawn_final env sched vps i x Hx) as (g & r & Hg & Hr & Htr). fold st in Hg, Htr.
  destruct Htr as (x' & Hx' & Hver & Hbin & Hpos).
  rewrite Hx in Hx'. injection Hx' as <-. rewrite Hr in Hpos.
  destruct r as [e|].
  { exfalso. assert (Hw : Wait (goroutines st) = None).
    { unfold spawnVersions in Hsp. cbn [snd] in Hsp. fold st in Hsp. now injection Hsp. }
    apply (Wait_None _ Hw g e); [|exact Hr]. apply list_elem_of_lookup. eauto. }
  destruct Hpos as (Hwr & (p & Hp & Ha) & Hran & Hv).
  rewrite Hv in Hy. injection Hy as <-.
  exists i, x, p. split; [exact Hx|]. split; [now rewrite Hver|]. split; [exact Ha|].
  split; [exact Hp|]. unfold wrote, ran, entry_path in *. rewrite Hver. auto.
Qed.

(** X14. The mapping agrees with what was launched: when [New] returns a
    mapping, every entry [v -> a] of it is the version of a discovered
    entry whose payload was written to [filepath.Join(tmpdir, v)] and
    whose file was started with the arguments [-port] and [a]; [a] is the
    address made of the port that the goroutine of that entry took. *)
Theorem published_address_is_launched env binariesFS rdfs sched vps m v a :
  extractBinaries binariesFS rdfs = Ok vps ->
  New env binariesFS rdfs sched = (m, None) ->
  versions m !! v = Some a ->
  exists i x p,
    vps !! i = Some x /\ version x = v /\ a = Sprintf_addr p
    /\ (i, p) ∈ allocated (snd (spawnVersions env sched vps))
    /\ (path.Join [TempDir env; v], bin x) ∈ written (snd (spawnVersions env sched vps))
    /\ (path.Join [TempDir env; v], ["-port"; a])
         ∈ started (snd (spawnVersions env sched vps)).
Proof. apply published_entry. Qed.

Lemma published_address_is_launched_witness :
  exists i x p,
    bundle_entries !! i = Some x /\ version x = "1.1.0" /\ "http://localhost:8080" = Sprintf_addr p
    /\ (i, p) ∈ allocated (snd (spawnVersions env_ok [1; 1; 0]%nat bundle_entries))
    /\ (path.Join [TempDir env_ok; "1.1.0"], bin x)
         ∈ written (snd (spawnVersions env_ok [1; 1; 0]%nat bundle_entries))
    /\ (path.Join [TempDir env_ok; "1.1.0"], ["-port"; "http://localhost:8080"])
         ∈ started (snd (spawnVersions env_ok [1; 1; 0]%nat bundle_entries)).
Proof.
  apply (published_address_is_launched env_ok bundle bundle [1; 1; 0]%nat bundle_entries
           (fst (New env_ok bundle bundle [1; 1; 0]%nat)) "1.1.0" "http://localhost:8080").
  - reflexivity.
  - vm_compute. reflexivity.
  - vm_compute. reflexivity.
Defined.

(** Two allocations of one goroutine are one. *)
Lemma allocated_functional env sched vps i p q :
  (i, p) ∈ allocated (snd (spawnVersions env sched vps)) ->
  (i, q) ∈ allocated (snd (spawnVersions env sched vps)) -> p = q.
Proof.
  intros Hp Hq. destruct (launch_inv_spawn env sched vps) as (_ & _ & _ & _ & Hnd & _).
  apply list_elem_of_lookup in Hp as [k1 H1]. apply list_elem_of_lookup in Hq as [k2 H2].
  assert (k1 = k2).
  { apply (NoDup_lookup _ k1 k2 i Hnd); rewrite list_lookup_fmap; [now rewrite H1 | now rewrite H2]. }
  subst k2. rewrite H1 in H2. now injection H2.
Qed.

(** X15. No port is skipped: when every launch succeeds and the counter
    does not wrap, each of the N ports from 8080 is the port of a version
    of the mapping that [New] returns, under every schedule. *)
Theorem ports_have_no_gap env binariesFS rdfs sched vps p :
  extractBinaries binariesFS rdfs = Ok vps ->
  NoDup (version <$> vps) ->
  8080 + Z.of_nat (length vps) < 2 ^ 31 ->
  (forall x, x ∈ vps -> launch_succeeds env x) ->
  8080 <= p < 8080 + Z.of_nat (length vps) ->
  exists m v, New env binariesFS rdfs sched = (m, None)
              /\ versions m !! v = Some (Sprintf_addr p).
Proof.
  intros Hex Hnd Hb Hok Hp.
  destruct (spawn_all_succeed env sched vps Hok) as [st Hsp].
  assert (Hst : snd (spawnVersions env sched vps) = st) by now rewrite Hsp.
  exists (build (verPaths st)).
  assert (HNew : New env binariesFS rdfs sched = (build (verPaths st), None)).
  { unfold New. rewrite Hex. unfold Ok. now rewrite Hsp. }
  destruct (launch_inv_spawn env sched vps) as (Hlg & _ & _ & Hlog & Hndn & _).
  rewrite Hst in Hlg, Hlog, Hndn.
  (* every goroutine has taken a port, so there are N allocations *)
  assert (Hall : forall i, (i < length vps)%nat -> i ∈ (allocated st).*1).
  { intros i Hi. destruct (lookup_lt_is_Some_2 vps i Hi) as [x Hx].
    destruct (entry_launched env sched vps i x Hx) as (g & q & _ & _ & _ & Hq & _).
    { apply Hok. apply list_elem_of_lookup. eauto. }
    rewrite Hst in Hq. apply list_elem_of_fmap. exists (i, q). auto. }
  assert (Hlen : (length vps <= length (allocated st))%nat).
  { assert (Hsub : seq 0 (length vps) ⊆+ (allocated st).*1).
    { apply NoDup_submseteq; [apply NoDup_seq|].
      intros i Hi. apply elem_of_seq in Hi. apply Hall. lia. }
    apply submseteq_length in Hsub. rewrite length_seq, length_fmap in Hsub. exact Hsub. }
  set (k := Z.to_nat (p - 8080)).
  destruct (lookup_lt_is_Some_2 (allocated st) k) as [[i q] Hk]; [unfold k; lia|].
  destruct (Hlog k i q Hk) as [Hq Hi].
  assert (Hqp : q = p).
  { rewrite Hq, wrap32_small by (unfold k; lia). unfold k. lia. }
  clear Hq. subst q.
  destruct (lookup_lt_is_Some_2 vps i Hi) as [x Hx].
  destruct (entry_launched env sched vps i x Hx) as (g & q & _ & _ & Hv & Hq' & _).
  { apply Hok. apply list_elem_of_lookup. eauto. }
  rewrite Hst in Hv, Hq'.
  assert (Hqp : q = p).
  { apply (allocated_functional env sched vps i); rewrite Hst; [exact Hq'|].
    apply list_elem_of_lookup. eauto. }
  subst q.
  exists (version x). split; [exact HNew|].
  pose proof (spawn_success_versions env sched vps st Hsp) as Hvs.
  rewrite <- Hvs in Hnd.
  apply (build_lookup (verPaths st)
           {| version := version x; bin := bin x; addr := Sprintf_addr p |} Hnd).
  apply list_elem_of_lookup. eauto.
Qed.

Lemma ports_have_no_gap_witness :
  exists m v, New env_ok bundle bundle [1; 1; 0]%nat = (m, None)
              /\ versions m !! v = Some (Sprintf_addr 8081).
Proof.
  apply (ports_have_no_gap env_ok bundle bundle [1; 1; 0]%nat bundle_entries 8081).
  - reflexivity.
  - apply NoDup_cons. split; [|apply NoDup_singleton].
    intros H. apply list_elem_of_singleton in H. discriminate.
  - reflexivity.
  - intros x _. split; reflexivity.
  - cbn. lia.
Defined.

(** ** From the launch to the handlers *)

(** X16. Routing, end to end: with the mapping that [New] returns, a
    request that resolves to [(ver, cfg)] has one of two outcomes.  When no
    discovered entry has the version [ver], the handler returns the
    version-not-found error, issues no request and sends nothing.
    Otherwise it issues exactly one request, which [sendToAgentBaker]
    builds for an address [a] and the encoding of [cfg], and a process
    was started from [filepath.Join(tmpdir, ver)] with the arguments
    [-port] and [a]: requests only go to processes launched for their
    version. *)
Theorem request_reaches_its_version env binariesFS rdfs sched vps m
    (T : gotype) (net : Network) (c : Ctx) (ver : Version) (cfg : govalue) :
  extractBinaries binariesFS rdfs = Ok vps ->
  New env binariesFS rdfs sched = (m, None) ->
  versionedRequest T (Body c) = Ok (ver, cfg) ->
  ((ver ∉ (version <$> vps))
   /\ handle T m net c
      = {| returned := Some (ErrVersionNotFound ver); sent := None; outbound := [] |})
  \/ (ver ∈ (version <$> vps)
      /\ exists p,
        Base m ver = Sprintf_addr p
        /\ outbound (handle T m net c) = [forwarded c (Sprintf_addr p) (Marshal cfg)]
        /\ (path.Join [TempDir env; ver], ["-port"; Sprintf_addr p])
             ∈ started (snd (spawnVersions env sched vps))).
Proof.
  intros Hex HNew Hreq.
  destruct (versions m !! ver) as [a|] eqn:Hl.
  - right.
    destruct (published_entry env binariesFS rdfs sched vps m ver a Hex HNew Hl)
      as (i & x & p & Hx & Hv & -> & _ & _ & Hst).
    split.
    { apply list_elem_of_fmap. exists x. split; [now rewrite Hv|].
      apply list_elem_of_lookup. eauto. }
    exists p.
    assert (Hb : Base m ver = Sprintf_addr p) by (unfold Base; now rewrite Hl).
    split; [exact Hb|]. split; [|exact Hst].
    unfold handle. rewrite Hreq. unfold Ok. rewrite Hb.
    destruct (String.eqb_spec (Sprintf_addr p) "") as [He|_].
    { now apply Sprintf_addr_not_empty in He. }
    rewrite sendToAgentBaker_unfold. cbn zeta.
    destruct (resp_errs _); [destruct (negb _)|]; reflexivity.
  - left. split.
    + destruct (New_success _ _ _ _ _ _ Hex HNew) as [Hsp Hm].
      pose proof (spawn_success_versions env sched vps _ Hsp) as Hvs.
      intros Hin. rewrite <- Hvs in Hin.
      assert (Hd : ver ∈ dom (versions m)).
      { rewrite Hm, build_dom, elem_of_list_to_set. exact Hin. }
      apply elem_of_dom in Hd as [a Ha].
      assert (Hcontra : None = Some a) by (rewrite <- Hl; exact Ha). discriminate.
    + unfold handle. rewrite Hreq. unfold Ok, Base. rewrite Hl. reflexivity.
Qed.

Lemma request_reaches_its_version_witness :
  (("1.0.0" ∉ (version <$> bundle_entries))
   /\ handle Config (fst (New env_ok bundle bundle [1; 1; 0]%nat)) backend_ok
        (bootstrap_ctx pinned_body)
      = {| returned := Some (ErrVersionNotFound "1.0.0"); sent := None; outbound := [] |})
  \/ ("1.0.0" ∈ (version <$> bundle_entries)
      /\ exists p,
        Base (fst (New env_ok bundle bundle [1; 1; 0]%nat)) "1.0.0" = Sprintf_addr p
        /\ outbound (handle Config (fst (New env_ok bundle bundle [1; 1; 0]%nat)) backend_ok
                       (bootstrap_ctx pinned_body))
           = [forwarded (bootstrap_ctx pinned_body) (Sprintf_addr p)
                (Marshal (VStruct [("Type", VString "x"); ("Data", VString "y")]))]
        /\ (path.Join [TempDir env_ok; "1.0.0"], ["-port"; Sprintf_addr p])
             ∈ started (snd (spawnVersions env_ok [1; 1; 0]%nat bundle_entries))).
Proof.
  apply (request_reaches_its_version env_ok bundle bundle [1; 1; 0]%nat bundle_entries
           (fst (New env_ok bundle bundle [1; 1; 0]%nat)) Config backend_ok
           (bootstrap_ctx pinned_body) "1.0.0").
  - reflexivity.
  - vm_compute. reflexivity.
  - vm_compute. reflexivity.
Defined.
